(** * WebWii upload tools: a shallow embedding and its verified properties

    The development follows the JavaScript sources of the WebWii pages:

    - [bootmii-import.js]: [validateBackupSize], [performBackupValidation];
    - [wad-handler.js] (and its earlier revision): [validateWadFile],
      [validateDolFile], [detectFileType], the upload handler and
      [performNandInstallation];
    - the shared utilities: [showNandWarning];
    - [dolphin-loader.js] and the RetroArch integration: [bootROM],
      [loadROMIntoRetroArch].

    JavaScript numbers that hold sizes and offsets are modelled as [Z] (all
    values involved are integers far below 2^53), an [ArrayBuffer] as its
    length together with its byte contents, exceptions as an explicit
    outcome, and the DOM as the node properties the code touches. Event
    listeners become functions on the page state and the browser's event
    loop a run over a list of events; an uncaught exception ends the listener
    that raised it and keeps the state reached so far. *)

From Stdlib Require Import ZArith NArith String Ascii List Bool Lia.
From Stdlib Require Import Strings.Byte.
From stdpp Require Import base gmap strings list pretty.

Local Open Scope string_scope.
Local Open Scope list_scope.
Local Open Scope Z_scope.

(** ** JavaScript outcomes *)

(** The exceptions the modelled code can raise. *)
Inductive JsError : Type :=
| RangeError                (* DataView access outside the buffer *)
| TypeError                 (* property access on null / undefined *)
| Error (msg : string).     (* [throw new Error(msg)] *)

(** The outcome of running a piece of code. [OutOfFuel] only marks a loop
    model that was given too few iterations; the theorems below show that it
    never occurs. *)
Inductive outcome (A : Type) : Type :=
| Returns (a : A)
| Throws (e : JsError)
| OutOfFuel.

Arguments Returns {A} a.
Arguments Throws {A} e.
Arguments OutOfFuel {A}.

(** One 32-bit read through a [DataView]: the ghost record of which part of
    the buffer the code looked at. *)
Record Read : Type := mkRead { offset : Z; littleEndian : bool }.

(** Computations that read a buffer: the reads performed so far, in order,
    and the outcome. *)
Definition M (A : Type) : Type := (list Read * outcome A)%type.

Definition ret {A} (a : A) : M A := ([], Returns a).
Definition throw {A} (e : JsError) : M A := ([], Throws e).

Definition bind {A B} (m : M A) (f : A -> M B) : M B :=
  match m with
  | (t, Returns a) => let '(t', r) := f a in (app t t', r)
  | (t, Throws e) => (t, Throws e)
  | (t, OutOfFuel) => (t, OutOfFuel)
  end.

Notation "'let*' x ':=' m 'in' k" := (bind m (fun x => k))
  (at level 10, x name, m at level 100, k at level 200).

Definition reads {A} (m : M A) : list Read := fst m.
Definition result {A} (m : M A) : outcome A := snd m.

(** ** ArrayBuffer and DataView *)

Record ArrayBuffer : Type := mkBuffer {
  byteLength : N;
  byteAt : Z -> byte
}.

Definition len (b : ArrayBuffer) : Z := Z.of_N (byteLength b).

Definition u8 (b : ArrayBuffer) (i : Z) : Z := Z.of_N (Byte.to_N (byteAt b i)).

(** The four bytes at [i] combined as an unsigned 32-bit value. *)
Definition word32 (b : ArrayBuffer) (i : Z) (le : bool) : Z :=
  if le then
    Z.lor (u8 b i)
      (Z.lor (Z.shiftl (u8 b (i + 1)) 8)
         (Z.lor (Z.shiftl (u8 b (i + 2)) 16) (Z.shiftl (u8 b (i + 3)) 24)))
  else
    Z.lor (Z.shiftl (u8 b i) 24)
      (Z.lor (Z.shiftl (u8 b (i + 1)) 16)
         (Z.lor (Z.shiftl (u8 b (i + 2)) 8) (u8 b (i + 3)))).

Arguments word32 : simpl never.

(** [DataView.prototype.getUint32(byteOffset, littleEndian)]: a [RangeError]
    unless the four bytes lie inside the buffer. *)
Definition getUint32 (b : ArrayBuffer) (i : Z) (le : bool) : M Z :=
  if (i <? 0) || (len b <? i + 4) then throw RangeError
  else ([mkRead i le], Returns (word32 b i le)).

(** ** bootmii-import.js *)

Module SizeCheck.
Record t : Type := mk { isValid : bool; isWarning : bool; message : string }.
End SizeCheck.

Module Validation.
Record t : Type := mk { isValid : bool; message : string; warnings : list string }.
End Validation.

Definition BOOTMII_STANDARD_SIZE : Z := 512 * 1024 * 1024.
Definition SIZE_TOLERANCE : Z := 1024 * 1024.

Definition EMPTY_BACKUP_MESSAGE : string := "Error: Backup file is empty.".
Definition EMPTY_1KB_WARNING : string :=
  "First 1KB of backup appears to be empty. This may indicate a corrupted backup.".

Section BootMii.

(** [formatBytes] renders a size through floating-point logarithms; the
    validators only splice its result into their messages, so it is kept
    abstract. *)
Variable formatBytes : Z -> string.

Definition sizeErrorMessage (size : Z) : string :=
  "Error: File size (" +:+ formatBytes size +:+
  ") does not match standard BootMii backup size (" +:+
  formatBytes BOOTMII_STANDARD_SIZE +:+
  "). This may not be a valid backup file.".

Definition sizeWarningMessage (size : Z) : string :=
  "Warning: File size (" +:+ formatBytes size +:+
  ") differs slightly from standard BootMii backup size (" +:+
  formatBytes BOOTMII_STANDARD_SIZE +:+
  "). Proceeding with validation...".

Definition validateBackupSize (size : Z) : SizeCheck.t :=
  let difference := Z.abs (size - BOOTMII_STANDARD_SIZE) in
  if SIZE_TOLERANCE * 10 <? difference then
    SizeCheck.mk false false (sizeErrorMessage size)
  else if SIZE_TOLERANCE <? difference then
    SizeCheck.mk true true (sizeWarningMessage size)
  else
    SizeCheck.mk true false "".

End BootMii.

(** The scan loop of [performBackupValidation]:
    [for (let i = 0; i < Math.min(1024, byteLength); i += 4)], leaving with
    [hasData = true] at the first non-zero word. The result is [hasData]. *)
Fixpoint scanLoop (fuel : nat) (b : ArrayBuffer) (i : Z) : M bool :=
  match fuel with
  | O => ([], OutOfFuel)
  | S fuel' =>
      if i <? Z.min 1024 (len b) then
        let* w := getUint32 b i true in
        if negb (w =? 0) then ret true else scanLoop fuel' b (i + 4)
      else ret false
  end.

Definition performBackupValidation (arrayBuffer : ArrayBuffer) : M Validation.t :=
  if len arrayBuffer =? 0 then
    ret (Validation.mk false EMPTY_BACKUP_MESSAGE [])
  else
    let* hasData := scanLoop 257 arrayBuffer 0 in
    let warnings := if negb hasData then [EMPTY_1KB_WARNING] else [] in
    ret (Validation.mk true "" warnings).

(** What an upload through the BootMii card comes to: the status messages
    shown, in order, as (type, message); the warnings listed in the details
    box; whether the restore button is offered. *)
Record ImportResult : Type := mkImportResult {
  statuses : list (string * string);
  listedWarnings : list string;
  restoreOffered : bool
}.

Definition BACKUP_LOADED_MESSAGE : string :=
  "BootMii backup loaded and validated successfully!".

(** The [change] listener of the backup input followed by [reader.onload] and
    [validateAndParseBackup]: the size of the file is checked before it is
    read, its contents after. [file.size] is the length of the buffer. *)
Definition importBackup (formatBytes : Z -> string) (arrayBuffer : ArrayBuffer)
  : M ImportResult :=
  let sizeValid := validateBackupSize formatBytes (len arrayBuffer) in
  if negb (SizeCheck.isValid sizeValid) then
    ret (mkImportResult [("error", SizeCheck.message sizeValid)] [] false)
  else
    let notes := if SizeCheck.isWarning sizeValid
                 then [("info", SizeCheck.message sizeValid)] else [] in
    let* validation := performBackupValidation arrayBuffer in
    if negb (Validation.isValid validation) then
      ret (mkImportResult (notes ++ [("error", Validation.message validation)]) [] false)
    else
      ret (mkImportResult (notes ++ [("success", BACKUP_LOADED_MESSAGE)])
             (Validation.warnings validation) true).

(** ** JavaScript string helpers *)

(** [s.split(sep)] for a one-character separator: never an empty array. *)
Fixpoint split (sep : ascii) (s : string) : list string :=
  match s with
  | EmptyString => [EmptyString]
  | String c rest =>
      if Ascii.eqb c sep then EmptyString :: split sep rest
      else match split sep rest with
           | piece :: pieces => String c piece :: pieces
           | [] => [String c EmptyString]
           end
  end.

(** [Array.prototype.pop]: the last element, [undefined] on an empty array. *)
Definition pop (pieces : list string) : option string := last pieces.

Definition lowerChar (c : ascii) : ascii :=
  let n := N_of_ascii c in
  if ((65 <=? n) && (n <=? 90))%N then ascii_of_N (n + 32) else c.

(** [s.toLowerCase()] on the Latin letters; no other character lowers to a
    letter of the extensions compared below. *)
Fixpoint toLowerCase (s : string) : string :=
  match s with
  | EmptyString => EmptyString
  | String c rest => String (lowerChar c) (toLowerCase rest)
  end.

(** ** wad-handler.js: structural checks and type detection *)

Inductive FileType : Type := WAD | DOL.

Definition WAD_MAGIC : Z := 0x00204973.
Definition DOL_TEXT_OFFSET : Z := 0x00.
Definition DOL_DATA_OFFSET : Z := 0x1C.

Definition validateWadFile (arrayBuffer : ArrayBuffer) : M bool :=
  if len arrayBuffer <? 64 then ret false
  else
    let* headerSignature := getUint32 arrayBuffer 0 false in
    if (headerSignature =? 0x49730000) || (headerSignature =? 0x69620000)
    then ret true
    else ret true.

Definition validateDolFile (arrayBuffer : ArrayBuffer) : M bool :=
  if len arrayBuffer <? 0x100 then ret false
  else
    let* textOffset0 := getUint32 arrayBuffer DOL_TEXT_OFFSET false in
    let* dataOffset0 := getUint32 arrayBuffer DOL_DATA_OFFSET false in
    if (0 <? textOffset0) && (textOffset0 <? len arrayBuffer) then ret true
    else if (0 <? dataOffset0) && (dataOffset0 <? len arrayBuffer) then ret true
    else ret true.

Definition detectFileType (filename : string) (arrayBuffer : ArrayBuffer)
  : M (option FileType) :=
  match pop (split "." filename) with
  | None => throw TypeError
  | Some piece =>
      let extension := toLowerCase piece in
      if String.eqb extension "wad" then
        let* ok := validateWadFile arrayBuffer in
        ret (if ok then Some WAD else None)
      else if String.eqb extension "dol" then
        let* ok := validateDolFile arrayBuffer in
        ret (if ok then Some DOL else None)
      else ret None
  end.

(** The earlier revision of the handler: the two checks look at the length
    only and read nothing. *)
Module Legacy.

Definition validateWadFile (arrayBuffer : ArrayBuffer) : M bool :=
  if len arrayBuffer <? 64 then ret false else ret true.

Definition validateDolFile (arrayBuffer : ArrayBuffer) : M bool :=
  if len arrayBuffer <? 0x100 then ret false else ret true.

Definition detectFileType (filename : string) (arrayBuffer : ArrayBuffer)
  : M (option FileType) :=
  match pop (split "." filename) with
  | None => throw TypeError
  | Some piece =>
      let extension := toLowerCase piece in
      if String.eqb extension "wad" then
        let* ok := validateWadFile arrayBuffer in
        ret (if ok then Some WAD else None)
      else if String.eqb extension "dol" then
        let* ok := validateDolFile arrayBuffer in
        ret (if ok then Some DOL else None)
      else ret None
  end.

End Legacy.

(** ** Shared utilities: the NAND warning modal *)

Module Gate.
Section Gate.

(** The callbacks handed to [showNandWarning] as [onConfirm]. *)
Context {Cb : Type}.

(** The two click listeners that [showNandWarning] registers. The first is
    [() => { modal.style.display = 'none'; if (onConfirm) onConfirm(); }],
    the second only hides the modal. *)
Inductive Listener : Type :=
| ConfirmListener (onConfirm : option Cb)
| CancelListener.

(** The part of the document the modal code touches. Button nodes live in
    [nodes] (a node is its list of click listeners, in registration order)
    whether or not they are still part of the document;
    [confirmButton] and [cancelButton] are what
    [getElementById('confirm-nand-operation')] and
    [getElementById('cancel-nand-operation')] currently find. *)
Record t : Type := mk {
  modalDisplay : option string;    (* [None]: no #nand-warning-modal *)
  messageText : option string;     (* [None]: no #warning-message *)
  confirmButton : option nat;
  cancelButton : option nat;
  nodes : list (list Listener)
}.

Definition setModalDisplay (d : string) (g : t) : t :=
  mk (option_map (fun _ => d) (modalDisplay g)) (messageText g)
     (confirmButton g) (cancelButton g) (nodes g).

Definition setMessageText (m : string) (g : t) : t :=
  mk (modalDisplay g) (Some m) (confirmButton g) (cancelButton g) (nodes g).

(** [node.cloneNode(true)]: a new node outside the document; listeners
    added with [addEventListener] are not copied. *)
Definition cloneNode (g : t) : nat * t :=
  (length (nodes g),
   mk (modalDisplay g) (messageText g) (confirmButton g) (cancelButton g)
      (nodes g ++ [[]])).

(** [old.parentNode.replaceChild(new, old)] for the two buttons. *)
Definition replaceConfirm (n : nat) (g : t) : t :=
  mk (modalDisplay g) (messageText g) (Some n) (cancelButton g) (nodes g).

Definition replaceCancel (n : nat) (g : t) : t :=
  mk (modalDisplay g) (messageText g) (confirmButton g) (Some n) (nodes g).

Definition addEventListener (n : nat) (l : Listener) (g : t) : t :=
  mk (modalDisplay g) (messageText g) (confirmButton g) (cancelButton g)
     (alter (fun ls => ls ++ [l]) n (nodes g)).

(** [showNandWarning(message, onConfirm)]: the document afterwards and the
    exception that interrupted the call, if any. *)
Definition showNandWarning (message : string) (onConfirm : option Cb) (g : t)
  : t * option JsError :=
  match modalDisplay g with
  | None => (g, None)
  | Some _ =>
      match messageText g with
      | None => (g, Some TypeError)
      | Some _ =>
          let g1 := setModalDisplay "flex" (setMessageText message g) in
          match confirmButton g1 with
          | None => (g1, Some TypeError)
          | Some _ =>
              let '(newConfirmButton, g2) := cloneNode g1 in
              match cancelButton g2 with
              | None => (g2, Some TypeError)
              | Some _ =>
                  let '(newCancelButton, g3) := cloneNode g2 in
                  let g4 := replaceCancel newCancelButton
                              (replaceConfirm newConfirmButton g3) in
                  let g5 := addEventListener newConfirmButton
                              (ConfirmListener onConfirm) g4 in
                  (addEventListener newCancelButton CancelListener g5, None)
              end
          end
      end
  end.

(** Running one listener: the document afterwards and the callbacks it
    invoked. *)
Definition runListener (l : Listener) (g : t) : t * list Cb :=
  match l with
  | ConfirmListener onConfirm =>
      (setModalDisplay "none" g,
       match onConfirm with Some cb => [cb] | None => [] end)
  | CancelListener => (setModalDisplay "none" g, [])
  end.

Fixpoint runListeners (ls : list Listener) (g : t) : t * list Cb :=
  match ls with
  | [] => (g, [])
  | l :: ls' =>
      let '(g1, cbs1) := runListener l g in
      let '(g2, cbs2) := runListeners ls' g1 in
      (g2, cbs1 ++ cbs2)
  end.

(** A click event dispatched to node [n]. *)
Definition click (n : nat) (g : t) : t * list Cb :=
  match nodes g !! n with
  | Some ls => runListeners ls g
  | None => (g, [])
  end.

(** A click on the button the document shows under the given id. *)
Definition clickConfirm (g : t) : t * list Cb :=
  match confirmButton g with
  | Some n => click n g
  | None => (g, [])
  end.

Definition clickCancel (g : t) : t * list Cb :=
  match cancelButton g with
  | Some n => click n g
  | None => (g, [])
  end.

(** The modal is on screen exactly while its inline display is ['flex']
    (the style sheet hides it otherwise), and only then can its buttons be
    clicked by the user. *)
Definition shown (g : t) : bool :=
  match modalDisplay g with
  | Some d => String.eqb d "flex"
  | None => false
  end.

(** A page that has the modal, its message line and both buttons. *)
Definition complete (g : t) : bool :=
  match modalDisplay g, messageText g, confirmButton g, cancelButton g with
  | Some _, Some _, Some _, Some _ => true
  | _, _, _, _ => false
  end.

(** What the user can do to the modal: ask for a confirmation (through one
    of the page's buttons), or click one of the modal's buttons while it is
    on screen. *)
Inductive Event : Type :=
| Request (message : string) (onConfirm : option Cb)
| UserConfirm
| UserCancel.

Definition step (e : Event) (g : t) : t * list Cb :=
  match e with
  | Request message onConfirm => (fst (showNandWarning message onConfirm g), [])
  | UserConfirm => if shown g then clickConfirm g else (g, [])
  | UserCancel => if shown g then clickCancel g else (g, [])
  end.

Fixpoint run (es : list Event) (g : t) : t * list Cb :=
  match es with
  | [] => (g, [])
  | e :: es' =>
      let '(g1, cbs1) := step e g in
      let '(g2, cbs2) := run es' g1 in
      (g2, cbs1 ++ cbs2)
  end.

Definition isRequest (e : Event) : bool :=
  match e with Request _ _ => true | _ => false end.

End Gate.
Arguments t : clear implicits.
Arguments Listener : clear implicits.
Arguments Event : clear implicits.
End Gate.

(** ** The WAD/DOL card: upload, confirmation, installation *)

Module File.
Record t : Type := mk { name : string; size : Z; lastModified : Z }.
End File.

(** The closures handed to [showNandWarning] by the page:
    [() => performNandInstallation(currentFile, currentFileType)]. It reads
    the two variables when it is called. *)
Inductive Action : Type := InstallCurrent.

Record Status : Type := mkStatus {
  className : string;
  textContent : string;
  display : string
}.

(** What [handleWadFile] / [handleDolFile] write into the details box: the
    file name, the type line and the buffer length. *)
Record Details : Type := mkDetails {
  detailsName : string;
  detailsType : string;
  detailsSize : Z
}.

(** A running [setInterval] of [performNandInstallation] with the variables
    its closure holds. *)
Record Interval : Type := mkInterval {
  timerId : nat;
  file : option File.t;
  fileType : option FileType;
  progress : Z
}.

Record Page : Type := mkPage {
  currentFile : option File.t;  (* closure variable of [initWadDolHandler] *)
  currentFileType : option FileType;  (* closure variable of [initWadDolHandler] *)
  gate : Gate.t Action;  (* the shared warning modal *)
  status : Status;  (* #wad-dol-status *)
  statusLog : list (string * string);  (* ghost: calls of [showStatus] *)
  infoDisplay : string;  (* #wad-dol-info *)
  details : option Details;  (* #wad-dol-details *)
  installDisplay : string;  (* #install-wad-dol *)
  progressDisplay : string;  (* #wad-dol-progress *)
  progressWidth : option Z;  (* its .progress-fill width, in percent *)
  progressLog : list Z;  (* ghost: the calls of [updateProgress] *)
  intervals : list Interval;  (* the running [setInterval] timers *)
  nextTimer : nat;  (* the next timer id *)
  hideTimeouts : nat;  (* pending [setTimeout]s that hide the bar *)
  lastWadDolInstall : option (string * string);  (* cookie: file name and type *)
  moduleFS : option (option (gmap string (list byte)))  (* RetroArch [Module] and its [FS] *)
}.

Definition setCurrentFile (v : option File.t) (p : Page) : Page :=
  mkPage v (currentFileType p) (gate p) (status p) (statusLog p)
    (infoDisplay p) (details p) (installDisplay p) (progressDisplay p)
    (progressWidth p) (progressLog p) (intervals p) (nextTimer p)
    (hideTimeouts p) (lastWadDolInstall p) (moduleFS p).

Definition setCurrentFileType (v : option FileType) (p : Page) : Page :=
  mkPage (currentFile p) v (gate p) (status p) (statusLog p) (infoDisplay p)
    (details p) (installDisplay p) (progressDisplay p) (progressWidth p)
    (progressLog p) (intervals p) (nextTimer p) (hideTimeouts p)
    (lastWadDolInstall p) (moduleFS p).

Definition setGate (v : Gate.t Action) (p : Page) : Page :=
  mkPage (currentFile p) (currentFileType p) v (status p) (statusLog p)
    (infoDisplay p) (details p) (installDisplay p) (progressDisplay p)
    (progressWidth p) (progressLog p) (intervals p) (nextTimer p)
    (hideTimeouts p) (lastWadDolInstall p) (moduleFS p).

Definition setStatus (v : Status) (p : Page) : Page :=
  mkPage (currentFile p) (currentFileType p) (gate p) v (statusLog p)
    (infoDisplay p) (details p) (installDisplay p) (progressDisplay p)
    (progressWidth p) (progressLog p) (intervals p) (nextTimer p)
    (hideTimeouts p) (lastWadDolInstall p) (moduleFS p).

Definition setStatusLog (v : list (string * string)) (p : Page) : Page :=
  mkPage (currentFile p) (currentFileType p) (gate p) (status p) v
    (infoDisplay p) (details p) (installDisplay p) (progressDisplay p)
    (progressWidth p) (progressLog p) (intervals p) (nextTimer p)
    (hideTimeouts p) (lastWadDolInstall p) (moduleFS p).

Definition setInfoDisplay (v : string) (p : Page) : Page :=
  mkPage (currentFile p) (currentFileType p) (gate p) (status p) (statusLog p)
    v (details p) (installDisplay p) (progressDisplay p) (progressWidth p)
    (progressLog p) (intervals p) (nextTimer p) (hideTimeouts p)
    (lastWadDolInstall p) (moduleFS p).

Definition setDetails (v : option Details) (p : Page) : Page :=
  mkPage (currentFile p) (currentFileType p) (gate p) (status p) (statusLog p)
    (infoDisplay p) v (installDisplay p) (progressDisplay p) (progressWidth p)
    (progressLog p) (intervals p) (nextTimer p) (hideTimeouts p)
    (lastWadDolInstall p) (moduleFS p).

Definition setInstallDisplay (v : string) (p : Page) : Page :=
  mkPage (currentFile p) (currentFileType p) (gate p) (status p) (statusLog p)
    (infoDisplay p) (details p) v (progressDisplay p) (progressWidth p)
    (progressLog p) (intervals p) (nextTimer p) (hideTimeouts p)
    (lastWadDolInstall p) (moduleFS p).

Definition setProgressDisplay (v : string) (p : Page) : Page :=
  mkPage (currentFile p) (currentFileType p) (gate p) (status p) (statusLog p)
    (infoDisplay p) (details p) (installDisplay p) v (progressWidth p)
    (progressLog p) (intervals p) (nextTimer p) (hideTimeouts p)
    (lastWadDolInstall p) (moduleFS p).

Definition setProgressWidth (v : option Z) (p : Page) : Page :=
  mkPage (currentFile p) (currentFileType p) (gate p) (status p) (statusLog p)
    (infoDisplay p) (details p) (installDisplay p) (progressDisplay p) v
    (progressLog p) (intervals p) (nextTimer p) (hideTimeouts p)
    (lastWadDolInstall p) (moduleFS p).

Definition setProgressLog (v : list Z) (p : Page) : Page :=
  mkPage (currentFile p) (currentFileType p) (gate p) (status p) (statusLog p)
    (infoDisplay p) (details p) (installDisplay p) (progressDisplay p)
    (progressWidth p) v (intervals p) (nextTimer p) (hideTimeouts p)
    (lastWadDolInstall p) (moduleFS p).

Definition setIntervals (v : list Interval) (p : Page) : Page :=
  mkPage (currentFile p) (currentFileType p) (gate p) (status p) (statusLog p)
    (infoDisplay p) (details p) (installDisplay p) (progressDisplay p)
    (progressWidth p) (progressLog p) v (nextTimer p) (hideTimeouts p)
    (lastWadDolInstall p) (moduleFS p).

Definition setNextTimer (v : nat) (p : Page) : Page :=
  mkPage (currentFile p) (currentFileType p) (gate p) (status p) (statusLog p)
    (infoDisplay p) (details p) (installDisplay p) (progressDisplay p)
    (progressWidth p) (progressLog p) (intervals p) v (hideTimeouts p)
    (lastWadDolInstall p) (moduleFS p).

Definition setHideTimeouts (v : nat) (p : Page) : Page :=
  mkPage (currentFile p) (currentFileType p) (gate p) (status p) (statusLog p)
    (infoDisplay p) (details p) (installDisplay p) (progressDisplay p)
    (progressWidth p) (progressLog p) (intervals p) (nextTimer p) v
    (lastWadDolInstall p) (moduleFS p).

Definition setLastWadDolInstall (v : option (string * string)) (p : Page) : Page :=
  mkPage (currentFile p) (currentFileType p) (gate p) (status p) (statusLog p)
    (infoDisplay p) (details p) (installDisplay p) (progressDisplay p)
    (progressWidth p) (progressLog p) (intervals p) (nextTimer p)
    (hideTimeouts p) v (moduleFS p).

Definition setModuleFS (v : option (option (gmap string (list byte)))) (p : Page) : Page :=
  mkPage (currentFile p) (currentFileType p) (gate p) (status p) (statusLog p)
    (infoDisplay p) (details p) (installDisplay p) (progressDisplay p)
    (progressWidth p) (progressLog p) (intervals p) (nextTimer p)
    (hideTimeouts p) (lastWadDolInstall p) v.

Definition dquote : string := String (ascii_of_nat 34) EmptyString.

Definition fileTypeName (t : FileType) : string :=
  match t with WAD => "WAD" | DOL => "DOL" end.

(** A file type spliced into a template literal; [null] prints as "null". *)
Definition typeText (t : option FileType) : string :=
  match t with Some ty => fileTypeName ty | None => "null" end.

(** [showStatus(statusDiv, type, message)]. *)
Definition showStatus (type message : string) (p : Page) : Page :=
  setStatusLog (statusLog p ++ [(type, message)])
    (setStatus (mkStatus ("status-message " +:+ type) message "block") p).

(** [updateProgress(progressBar, percent)], the bar having its fill. *)
Definition updateProgress (percent : Z) (p : Page) : Page :=
  setProgressLog (progressLog p ++ [percent]) (setProgressWidth (Some percent) p).

Definition resetWadDolUI (p : Page) : Page :=
  let p1 := setStatus (mkStatus "status-message" (textContent (status p)) "none") p in
  let p2 := setInfoDisplay "none" p1 in
  setInstallDisplay "none" p2.

(** The [change] listener of the file input, up to the start of the read. *)
Definition onChange (file : File.t) (p : Page) : Page :=
  let p1 := setCurrentFile (Some file) p in
  let p2 := resetWadDolUI p1 in
  let p3 := setProgressDisplay "block" p2 in
  updateProgress 0 p3.

Definition handleWadFile (file : File.t) (arrayBuffer : ArrayBuffer) (p : Page)
  : Page :=
  let fileSize := len arrayBuffer in
  let p1 := setDetails
              (Some (mkDetails (File.name file) "WAD (Wii Application Data)" fileSize)) p in
  let p2 := setInfoDisplay "block" p1 in
  let p3 := setInstallDisplay "inline-block" p2 in
  let p4 := setProgressDisplay "none" p3 in
  showStatus "success"
    "WAD file loaded successfully! Review the information above." p4.

Definition handleDolFile (file : File.t) (arrayBuffer : ArrayBuffer) (p : Page)
  : Page :=
  let fileSize := len arrayBuffer in
  let p1 := setDetails
              (Some (mkDetails (File.name file) "DOL (Dolphin Executable)" fileSize)) p in
  let p2 := setInfoDisplay "block" p1 in
  let p3 := setInstallDisplay "inline-block" p2 in
  let p4 := setProgressDisplay "none" p3 in
  showStatus "success"
    "DOL file loaded successfully! Review the information above." p4.

Definition INVALID_TYPE_MESSAGE : string :=
  "Invalid file type. Please select a .wad or .dol file.".

(** [reader.onload] of the read started for [file]. An exception raised by
    the type detection would leave the listener at that point. *)
Definition onLoad (file : File.t) (arrayBuffer : ArrayBuffer) (p : Page) : Page :=
  let p1 := updateProgress 100 p in
  match result (detectFileType (File.name file) arrayBuffer) with
  | Returns fileType =>
      let p2 := setCurrentFileType fileType p1 in
      match fileType with
      | Some WAD => handleWadFile file arrayBuffer p2
      | Some DOL => handleDolFile file arrayBuffer p2
      | None =>
          setProgressDisplay "none" (showStatus "error" INVALID_TYPE_MESSAGE p2)
      end
  | Throws _ | OutOfFuel => p1
  end.

(** [reader.onprogress]. [percentLoaded] stands for the value of
    [Math.round((e.loaded / e.total) * 100)], which the listener computes in
    floating point from the fields of the event; it is an integer for an
    event of a read that has received bytes, whose total is positive. An
    event whose length is not computable updates nothing. *)
Definition onProgress (lengthComputable : bool) (percentLoaded : Z) (p : Page)
  : Page :=
  if lengthComputable then updateProgress percentLoaded p else p.

Definition READ_ERROR_MESSAGE : string := "Error reading file. Please try again.".

(** [reader.onerror]. *)
Definition onError (p : Page) : Page :=
  setProgressDisplay "none" (showStatus "error" READ_ERROR_MESSAGE p).

Definition installMessage (file : File.t) : string :=
  "You are about to install " +:+ dquote +:+ File.name file +:+ dquote +:+
  " to the virtual NAND. This operation may overwrite existing data. Are you sure you want to proceed?".

(** The [click] listener of the install button. *)
Definition onInstallClick (p : Page) : Page :=
  match currentFile p, currentFileType p with
  | Some file, Some _ =>
      setGate (fst (Gate.showNandWarning (installMessage file)
                      (Some InstallCurrent) (gate p))) p
  | _, _ => p
  end.

(** [performNandInstallation(file, fileType)]: announces the installation
    and starts the interval timer, whose closure holds [progress = 0]. *)
Definition performNandInstallation (file : option File.t)
    (fileType : option FileType) (p : Page) : Page :=
  let p1 := showStatus "info"
              ("Installing " +:+ typeText fileType +:+ " file to virtual NAND...") p in
  let p2 := setProgressDisplay "block" p1 in
  let installInterval := nextTimer p2 in
  let p3 := setIntervals
              (intervals p2 ++ [mkInterval installInterval file fileType 0]) p2 in
  setNextTimer (S installInterval) p3.

Definition runAction (a : Action) (p : Page) : Page :=
  match a with
  | InstallCurrent => performNandInstallation (currentFile p) (currentFileType p) p
  end.

(** A click dispatched to the modal's confirm (cancel) button: its listeners
    run, and the callbacks they invoke act on the page. The listeners touch
    only the modal and the callbacks never touch it, so running the
    callbacks after the listeners gives the state the interleaved run
    gives. *)
Definition onConfirmClick (p : Page) : Page :=
  let '(g, cbs) := Gate.clickConfirm (gate p) in
  fold_left (fun q cb => runAction cb q) cbs (setGate g p).

Definition onCancelClick (p : Page) : Page :=
  let '(g, cbs) := Gate.clickCancel (gate p) in
  fold_left (fun q cb => runAction cb q) cbs (setGate g p).

Definition clearInterval (id : nat) (p : Page) : Page :=
  setIntervals (filter (fun t => timerId t ≠ id) (intervals p)) p.

Definition storeProgress (id : nat) (v : Z) (p : Page) : Page :=
  setIntervals
    (map (fun t => if decide (timerId t = id)
                   then mkInterval (timerId t) (file t) (fileType t) v else t)
       (intervals p)) p.

Definition installedMessage (f : File.t) (fileType : option FileType) : string :=
  typeText fileType +:+ " file " +:+ dquote +:+ File.name f +:+ dquote +:+
  " installed successfully to virtual NAND!".

(** One firing of the interval callback of timer [t]. With [file] null the
    success message cannot be built: the callback stops, after having
    cleared its timer. *)
Definition tick (t : Interval) (p : Page) : Page :=
  let progress' := progress t + 10 in
  let p1 := storeProgress (timerId t) progress' p in
  let p2 := updateProgress progress' p1 in
  if 100 <=? progress' then
    let p3 := clearInterval (timerId t) p2 in
    match file t with
    | None => p3
    | Some f =>
        let p4 := showStatus "success" (installedMessage f (fileType t)) p3 in
        let p5 := setLastWadDolInstall
                    (Some (File.name f, typeText (fileType t))) p4 in
        setHideTimeouts (S (hideTimeouts p5)) p5
    end
  else p2.

Definition onTick (id : nat) (p : Page) : Page :=
  match List.find (fun t => bool_decide (timerId t = id)) (intervals p) with
  | Some t => tick t p
  | None => p
  end.

(** The [setTimeout] callback that hides the progress bar. *)
Definition onHideTimeout (p : Page) : Page :=
  match hideTimeouts p with
  | O => p
  | S n => setHideTimeouts n (setProgressDisplay "none" p)
  end.

(** The fixed top-level directories of the staging namespace: the four
    that [setupFileSystem] creates and the [/tmp] of the RetroArch loader. *)
Definition ROOTS : list string := ["/roms"; "/saves"; "/states"; "/user"; "/tmp"].

(** The path is, as a text, one of the roots followed by a slash. *)
Definition beginsWithRoot (path : string) : bool :=
  existsb (fun r => String.prefix (r +:+ "/") path) ROOTS.

(** What a write to the namespace comes to: the namespace with the entry,
    or the refusal of the path. *)
Inductive Staging : Type :=
| Staged (fs : gmap string (list byte))
| InvalidPath.

(** Modelled from the spec: the virtual file system behind [Module.FS] is
    the emulator's and not part of the repository. Following the spec's
    staging namespace it is a map from path to contents: staging under a
    path that does not begin with one of the fixed roots fails with
    [InvalidPath] and creates nothing; any other write stores the contents
    under the path, overwriting silently what was there. *)
Definition writeFile (path : string) (data : list byte)
    (fs : gmap string (list byte)) : Staging :=
  if beginsWithRoot path then Staged (<[path := data]> fs) else InvalidPath.

(** [loadROMIntoRetroArch(filename, data)]: without [Module] or [Module.FS]
    it only logs an error, and so does its [catch] when the write fails. *)
Definition loadROMIntoRetroArch (filename : string) (data : list byte) (p : Page)
  : Page :=
  match moduleFS p with
  | Some (Some fs) =>
      let romPath := "/tmp/" +:+ filename in
      match writeFile romPath data fs with
      | Staged fs' => setModuleFS (Some (Some fs')) p
      | InvalidPath => p
      end
  | _ => p
  end.

Inductive Event : Type :=
| ChangeFile (file : File.t)
| ReaderLoaded (file : File.t) (arrayBuffer : ArrayBuffer)
| ClickInstall
| ClickConfirm
| ClickCancel
| Tick (id : nat)
| HideTimeout
| LoadRom (filename : string) (data : list byte)
| ReaderProgress (lengthComputable : bool) (percentLoaded : Z)
| ReaderFailed.

Definition step (e : Event) (p : Page) : Page :=
  match e with
  | ChangeFile file => onChange file p
  | ReaderLoaded file arrayBuffer => onLoad file arrayBuffer p
  | ClickInstall => onInstallClick p
  | ClickConfirm => onConfirmClick p
  | ClickCancel => onCancelClick p
  | Tick id => onTick id p
  | HideTimeout => onHideTimeout p
  | LoadRom filename data => loadROMIntoRetroArch filename data p
  | ReaderProgress lengthComputable percentLoaded =>
      onProgress lengthComputable percentLoaded p
  | ReaderFailed => onError p
  end.

(** Whether the browser can deliver the event: a button must be on screen to
    be clicked, a timer must be pending to fire. The page keeps no record of
    the reads under way, so the events of a read are taken as deliverable
    at any time. *)
Definition enabled (e : Event) (p : Page) : bool :=
  match e with
  | ClickInstall => String.eqb (installDisplay p) "inline-block"
  | ClickConfirm | ClickCancel => Gate.shown (gate p)
  | Tick id => bool_decide (id ∈ map timerId (intervals p))
  | HideTimeout => bool_decide (hideTimeouts p ≠ O)
  | _ => true
  end.

Definition run (es : list Event) (p : Page) : Page :=
  fold_left (fun q e => step e q) es p.

(** A run in which every event can be delivered when it occurs. *)
Fixpoint feasible (es : list Event) (p : Page) : bool :=
  match es with
  | [] => true
  | e :: es' => enabled e p && feasible es' (step e p)
  end.

(** The page as served: nothing selected, modal hidden by the style sheet,
    buttons without listeners, RetroArch loaded with an empty file system. *)
Definition initialPage : Page :=
  mkPage None None
    (Gate.mk (Some "") (Some "") (Some 0%nat) (Some 1%nat) [[]; []])
    (mkStatus "status-message" "" "") [] "" None "" "" None [] [] 0 0 None
    (Some (Some ∅)).

(** The operations in the Running state: the live interval timers; those
    installing the file called [target]. *)
Definition runningOn (target : string) (p : Page) : list Interval :=
  filter (fun t => option_map File.name (file t) = Some target) (intervals p).

(** ** dolphin-loader.js *)

Module Dolphin.

(** The Emscripten module object as far as [bootROM] uses it. *)
Record EmModule : Type := mkModule {
  FS : option (gmap string (list byte));
  ccall : bool                          (* whether [module.ccall] exists *)
}.

(** [dolphinInstance]: [None] is null, [Some None] an instance without a
    [bootFile] method, [Some (Some f)] one whose [bootFile] is the engine's
    function [f]. *)
Record Loader : Type := mkLoader {
  isReady : bool;
  module : option EmModule;
  dolphinInstance : option (option (string -> bool))
}.

(** The directories [setupFileSystem] creates. *)
Definition dirs : list string := ["/roms"; "/saves"; "/states"; "/user"].

Definition NOT_READY : string := "Dolphin is not ready. Call init() first.".
Definition NO_BOOT_METHOD : string := "No boot method available".

Definition INVALID_PATH : string := "InvalidPath".

(** The calls [bootROM] makes into the engine: [module.FS.writeFile],
    [dolphinInstance.bootFile] and [module.ccall('BootManager_BootFile')]. *)
Inductive Call : Type :=
| WriteFile (path : string) (data : list byte)
| BootFile (path : string)
| BootManagerBootFile (path : string).

(** What a call of [bootROM] comes to: the loader afterwards, the calls
    made into the engine, in order, and the outcome (a raised exception is
    the rejection of the returned promise). *)
Record Booted : Type := mkBooted {
  after : Loader;
  made : list Call;
  returned : outcome bool
}.

(** [bootROM(filename, data)]. The [catch] logs the exception and raises it
    again. *)
Definition bootROM (filename : string) (data : list byte) (l : Loader) : Booted :=
  if negb (isReady l) then mkBooted l [] (Throws (Error NOT_READY))
  else
    match module l with
    | None => mkBooted l [] (Throws TypeError)
    | Some m =>
        match FS m with
        | None => mkBooted l [] (Throws TypeError)
        | Some fs =>
            let romPath := "/roms/" +:+ filename in
            match writeFile romPath data fs with
            | InvalidPath =>
                mkBooted l [WriteFile romPath data] (Throws (Error INVALID_PATH))
            | Staged fs' =>
                let l1 := mkLoader (isReady l)
                            (Some (mkModule (Some fs') (ccall m)))
                            (dolphinInstance l) in
                match dolphinInstance l with
                | Some (Some bootFile) =>
                    let success := bootFile romPath in
                    mkBooted l1 [WriteFile romPath data; BootFile romPath]
                      (if success then Returns true else Returns false)
                | _ =>
                    if ccall m then
                      mkBooted l1 [WriteFile romPath data; BootManagerBootFile romPath]
                        (Returns true)
                    else
                      mkBooted l1 [WriteFile romPath data]
                        (Throws (Error NO_BOOT_METHOD))
                end
            end
        end
    end.

(** The files of the loader's file system. *)
Definition files (l : Loader) : gmap string (list byte) :=
  match module l with
  | Some m => default ∅ (FS m)
  | None => ∅
  end.

End Dolphin.

(** ** Reference definitions used in the statements *)

(** A buffer of [n] zero bytes. *)
Definition zeros (n : N) : ArrayBuffer := mkBuffer n (fun _ => x00).

(** The part of a file name that [detectFileType] compares: what follows the
    last dot, or the whole name if it has no dot. *)
Definition extensionOf (filename : string) : string :=
  default EmptyString (pop (split "." filename)).

(** The static table from extension to file type, and the least length the
    structural check of each type accepts. *)
Definition EXTENSION_TABLE : list (string * FileType) := [("wad", WAD); ("dol", DOL)].

Definition minSize (t : FileType) : Z :=
  match t with WAD => 64 | DOL => 0x100 end.

Fixpoint lookupExtension (table : list (string * FileType)) (extension : string)
  : option FileType :=
  match table with
  | [] => None
  | (e, t) :: rest => if String.eqb extension e then Some t else lookupExtension rest extension
  end.

(** Classification by the lowered extension alone. *)
Definition classifyByExtension (filename : string) : option FileType :=
  lookupExtension EXTENSION_TABLE (toLowerCase (extensionOf filename)).

(** The offsets [i], [i + 4], ... of [n] consecutive words. *)
Definition wordOffsets (i : Z) (n : nat) : list Z :=
  map (fun k => i + 4 * Z.of_nat k) (seq 0 n).

(** Whether the text contains the given piece. *)
Definition contains (piece text : string) : bool :=
  bool_decide (is_Some (String.index 0 piece text)).

(** The scan seen from the data: whether one of the [n] words from [i] on is
    non-zero, and how many words are looked at until that is known. *)
Fixpoint hasDataIn (b : ArrayBuffer) (n : nat) (i : Z) : bool :=
  match n with
  | O => false
  | S n' => if word32 b i true =? 0 then hasDataIn b n' (i + 4) else true
  end.

Fixpoint scanned (b : ArrayBuffer) (n : nat) (i : Z) : nat :=
  match n with
  | O => O
  | S n' => if word32 b i true =? 0 then S (scanned b n' (i + 4)) else 1%nat
  end.

Definition readLE (o : Z) : Read := mkRead o true.

(** The callbacks a confirm listener invokes. *)
Definition invoked {Cb : Type} (onConfirm : option Cb) : list Cb :=
  match onConfirm with Some cb => [cb] | None => [] end.

(** The state a request leaves behind: the document's confirm button carries
    the one listener of that request, its cancel button the one cancel
    listener. *)
Definition armed {Cb : Type} (onConfirm : option Cb) (g : Gate.t Cb) : Prop :=
  Gate.complete g = true /\
  (exists n, Gate.confirmButton g = Some n /\
             Gate.nodes g !! n = Some [Gate.ConfirmListener onConfirm]) /\
  (exists m, Gate.cancelButton g = Some m /\
             Gate.nodes g !! m = Some [Gate.CancelListener]).

(** A page whose confirm button already carries a listener from elsewhere. *)
Definition staleGate : Gate.t nat :=
  Gate.mk (Some "") (Some "") (Some 0%nat) (Some 1%nat)
    [[Gate.ConfirmListener (Some 0%nat)]; []].

(** The upload used in the examples. *)
Definition gameWad : File.t := File.mk "game.wad" 64 0.

(** A Dolphin loader that is ready, with an empty file system and the
    [ccall] interface. *)
Definition readyLoader : Dolphin.Loader :=
  Dolphin.mkLoader true (Some (Dolphin.mkModule (Some ∅) true)) None.

(** The files of the page's RetroArch file system. *)
Definition pageFiles (p : Page) : gmap string (list byte) :=
  match moduleFS p with
  | Some (Some fs) => fs
  | _ => ∅
  end.

(** Every path of the file system begins, as a text, with a fixed root. *)
Definition allBeginWithRoot (fs : gmap string (list byte)) : Prop :=
  forall path, is_Some (fs !! path) -> beginsWithRoot path = true.

(** The namespace after an attempt to stage: a refused write leaves it as
    it was. *)
Definition staged (path : string) (data : list byte)
    (fs : gmap string (list byte)) : gmap string (list byte) :=
  match writeFile path data fs with
  | Staged fs' => fs'
  | InvalidPath => fs
  end.

(** The namespace after a sequence of attempts. *)
Definition stagedAll (ws : list (string * list byte))
    (fs : gmap string (list byte)) : gmap string (list byte) :=
  fold_left (fun q w => staged (fst w) (snd w) q) ws fs.

(** Delivery of an event by the browser: an event that cannot be delivered
    does not happen. *)
Definition deliver (e : Event) (p : Page) : Page :=
  if enabled e p then step e p else p.

Definition deliverAll (es : list Event) (p : Page) : Page :=
  fold_left (fun q e => deliver e q) es p.

Definition isModalClick (e : Event) : bool :=
  match e with ClickConfirm | ClickCancel => true | _ => false end.

(** ** Further definitions used in the statements *)

(** The text has no dot. *)
Fixpoint noDot (s : string) : bool :=
  match s with
  | EmptyString => true
  | String c rest => negb (Ascii.eqb c ".") && noDot rest
  end.

(** What [detectFileType] answers, read off the table and the minimum
    lengths. *)
Definition detected (filename : string) (arrayBuffer : ArrayBuffer)
  : option FileType :=
  match classifyByExtension filename with
  | Some t => if len arrayBuffer <? minSize t then None else Some t
  | None => None
  end.

(** The type line [handleWadFile] / [handleDolFile] put into the details. *)
Definition typeLine (t : FileType) : string :=
  match t with
  | WAD => "WAD (Wii Application Data)"
  | DOL => "DOL (Dolphin Executable)"
  end.

Definition loadedMessage (t : FileType) : string :=
  match t with
  | WAD => "WAD file loaded successfully! Review the information above."
  | DOL => "DOL file loaded successfully! Review the information above."
  end.


(** The progress events of a read, given as the pairs of what
    [e.lengthComputable] and the rounded percentage were. *)
Definition progressEvents (reports : list (bool * Z)) : list Event :=
  map (fun r => ReaderProgress (fst r) (snd r)) reports.

(** The percentages that the progress events of the reads delivered to the
    bar, in order. *)
Definition reportedPercents (es : list Event) : list Z :=
  flat_map (fun e => match e with
                     | ReaderProgress true percentLoaded => [percentLoaded]
                     | _ => []
                     end) es.

(** The running timers are in order: their ids are distinct and below the
    next id to be handed out, the progress each closure holds is one of
    0, 10, ..., 90, and every value handed to the progress bar so far lies
    within 0..100 or is one of the percentages [reported] by the reads. *)
Definition timersSound (reported : list Z) (p : Page) : Prop :=
  NoDup (map timerId (intervals p)) /\
  Forall (fun t => (timerId t < nextTimer p)%nat /\
                   exists k, 0 <= k < 10 /\ progress t = 10 * k) (intervals p) /\
  Forall (fun x => 0 <= x <= 100 \/ In x reported) (progressLog p).

(** The progress after one tick of timer [t]. *)
Definition ticked (t : Interval) : Interval :=
  mkInterval (timerId t) (file t) (fileType t) (progress t + 10).

Definition installingMessage (t : option FileType) : string :=
  "Installing " +:+ typeText t +:+ " file to virtual NAND...".


(** The progress values 10, 20, ..., 10 * n. *)
Definition tens (n : nat) : list Z := map (fun j => 10 * Z.of_nat j) (seq 1 n).

Arguments tens : simpl never.








(** ** dolphin-loader.js: the life cycle of the loader *)

Module Life.

(** How a promise returned by [init] ended. *)
Inductive Settlement : Type :=
| Resolved
| Rejected (e : JsError).

(** The calls the loader makes into the engine. *)
Inductive EngineCall : Type :=
| CallPause
| CallPauseMainLoop
| CallResume
| CallResumeMainLoop
| CallStop
| CallCoreStop                 (* [ccall('Core_Stop', ...)] *)
| CallSaveState (slot : Z)
| CallSyncfs                   (* [FS.syncfs(false, ...)] *)
| CallLoadState (slot : Z)
| CallBoot (c : Dolphin.Call). (* what [bootROM] calls *)

(** Which of the optional methods the Dolphin instance and the module
    object have. *)
Record Methods : Type := mkMethods {
  instPause : bool;
  instResume : bool;
  instStop : bool;
  instSaveState : bool;
  instLoadState : bool;
  modPauseMainLoop : bool;
  modResumeMainLoop : bool;
  modSyncfs : bool
}.

Definition noMethods : Methods :=
  mkMethods false false false false false false false false.

(** The loader object together with what it has set going. Every call of
    [init] returns a promise; promises are numbered in the order of the
    calls, and the resolve and reject functions pushed on the two callback
    lists are recorded by the number of their promise. *)
Record t : Type := mk {
  core : Dolphin.Loader;  (* [isReady], [module], [dolphinInstance] *)
  methods : Methods;  (* which optional methods exist *)
  isLoading : bool;
  loadCallbacks : list nat;  (* promises waiting in [loadCallbacks] *)
  errorCallbacks : list nat;  (* promises waiting in [errorCallbacks] *)
  nextPromise : nat;  (* ghost: the next promise id *)
  settled : list (nat * Settlement);  (* ghost: settlements, in order *)
  scripts : list string;  (* [src] of the script elements in the document *)
  loadsInFlight : list string;  (* script loads under way *)
  calls : list EngineCall  (* ghost: calls made to the engine *)
}.

Definition setCore (v : Dolphin.Loader) (s : t) : t :=
  mk v (methods s) (isLoading s) (loadCallbacks s) (errorCallbacks s)
    (nextPromise s) (settled s) (scripts s) (loadsInFlight s) (calls s).

Definition setMethods (v : Methods) (s : t) : t :=
  mk (core s) v (isLoading s) (loadCallbacks s) (errorCallbacks s)
    (nextPromise s) (settled s) (scripts s) (loadsInFlight s) (calls s).

Definition setIsLoading (v : bool) (s : t) : t :=
  mk (core s) (methods s) v (loadCallbacks s) (errorCallbacks s)
    (nextPromise s) (settled s) (scripts s) (loadsInFlight s) (calls s).

Definition setLoadCallbacks (v : list nat) (s : t) : t :=
  mk (core s) (methods s) (isLoading s) v (errorCallbacks s) (nextPromise s)
    (settled s) (scripts s) (loadsInFlight s) (calls s).

Definition setErrorCallbacks (v : list nat) (s : t) : t :=
  mk (core s) (methods s) (isLoading s) (loadCallbacks s) v (nextPromise s)
    (settled s) (scripts s) (loadsInFlight s) (calls s).

Definition setNextPromise (v : nat) (s : t) : t :=
  mk (core s) (methods s) (isLoading s) (loadCallbacks s) (errorCallbacks s) v
    (settled s) (scripts s) (loadsInFlight s) (calls s).

Definition setSettled (v : list (nat * Settlement)) (s : t) : t :=
  mk (core s) (methods s) (isLoading s) (loadCallbacks s) (errorCallbacks s)
    (nextPromise s) v (scripts s) (loadsInFlight s) (calls s).

Definition setScripts (v : list string) (s : t) : t :=
  mk (core s) (methods s) (isLoading s) (loadCallbacks s) (errorCallbacks s)
    (nextPromise s) (settled s) v (loadsInFlight s) (calls s).

Definition setLoadsInFlight (v : list string) (s : t) : t :=
  mk (core s) (methods s) (isLoading s) (loadCallbacks s) (errorCallbacks s)
    (nextPromise s) (settled s) (scripts s) v (calls s).

Definition setCalls (v : list EngineCall) (s : t) : t :=
  mk (core s) (methods s) (isLoading s) (loadCallbacks s) (errorCallbacks s)
    (nextPromise s) (settled s) (scripts s) (loadsInFlight s) v.

Definition setIsReady (v : bool) (s : t) : t :=
  setCore (Dolphin.mkLoader v (Dolphin.module (core s))
             (Dolphin.dolphinInstance (core s))) s.

Definition setModule (v : option Dolphin.EmModule) (s : t) : t :=
  setCore (Dolphin.mkLoader (Dolphin.isReady (core s)) v
             (Dolphin.dolphinInstance (core s))) s.

Definition setDolphinInstance (v : option (option (string -> bool))) (s : t) : t :=
  setCore (Dolphin.mkLoader (Dolphin.isReady (core s)) (Dolphin.module (core s)) v) s.

(** [new DolphinLoader()], on a page with the given script elements. *)
Definition fresh (pageScripts : list string) : t :=
  mk (Dolphin.mkLoader false None None) noMethods false [] [] 0 [] pageScripts [] [].

(** [notifyReady()]: every waiting resolve function is called, in order,
    and both lists are emptied. *)
Definition notifyReady (s : t) : t :=
  let s1 := setSettled (settled s ++ map (fun id => (id, Resolved)) (loadCallbacks s)) s in
  setErrorCallbacks [] (setLoadCallbacks [] s1).

(** [notifyError(error)]: every waiting reject function is called with the
    error, in order, and both lists are emptied. *)
Definition notifyError (e : JsError) (s : t) : t :=
  let s1 := setSettled (settled s ++ map (fun id => (id, Rejected e)) (errorCallbacks s)) s in
  setErrorCallbacks [] (setLoadCallbacks [] s1).

(** [config.scriptPath || 'dolphin.js']. *)
Definition scriptPathOf (scriptPath : option string) : string :=
  match scriptPath with
  | Some path => if String.eqb path "" then "dolphin.js" else path
  | None => "dolphin.js"
  end.

(** [loadDolphinScript(scriptPath)] up to the return of its promise: if the
    document already has a script element with this source the promise is
    resolved at once and nothing is loaded; otherwise a script element is
    appended and its load begins. *)
Definition loadDolphinScript (path : string) (s : t) : t :=
  if bool_decide (path ∈ scripts s) then s
  else setLoadsInFlight (loadsInFlight s ++ [path]) (setScripts (scripts s ++ [path]) s).

(** [init(config)]; [wasmDefined] tells whether [DolphinWasm] is defined
    when the call is made. The module configuration installed by a first
    call is a new object, without file system and without [ccall]. *)
Definition init (scriptPath : option string) (wasmDefined : bool) (s : t) : t :=
  let promise := nextPromise s in
  let s0 := setNextPromise (S promise) s in
  if Dolphin.isReady (core s0) then
    setSettled (settled s0 ++ [(promise, Resolved)]) s0
  else if isLoading s0 then
    setErrorCallbacks (errorCallbacks s0 ++ [promise])
      (setLoadCallbacks (loadCallbacks s0 ++ [promise]) s0)
  else
    let s1 := setIsLoading true s0 in
    let s2 := setErrorCallbacks (errorCallbacks s1 ++ [promise])
                (setLoadCallbacks (loadCallbacks s1 ++ [promise]) s1) in
    let s3 := setModule (Some (Dolphin.mkModule None false)) s2 in
    if negb wasmDefined then loadDolphinScript (scriptPathOf scriptPath) s3
    else s3.

(** [script.onload]: the promise of [loadDolphinScript] is resolved, to
    which nothing is attached. *)
Definition onScriptLoad (path : string) (s : t) : t :=
  setLoadsInFlight (filter (fun q => q ≠ path) (loadsInFlight s)) s.

(** [script.onerror], followed by the [catch] attached in [init]. *)
Definition onScriptError (path : string) (s : t) : t :=
  let s1 := setLoadsInFlight (filter (fun q => q ≠ path) (loadsInFlight s)) s in
  let s2 := setIsLoading false s1 in
  notifyError (Error ("Failed to load Dolphin script: " +:+ path)) s2.

(** What the page offers when the runtime reports that it is initialised:
    whether the class [DolphinWasm] is there and what constructing it gives. *)
Inductive WasmClass : Type :=
| Undefined
| Constructs (bootFile : option (string -> bool))
| ConstructorThrows (e : JsError).

(** The state of the world at [onRuntimeInitialized]: the class, and what
    the runtime has put into the module object by then. *)
Record Runtime : Type := mkRuntime {
  wasmClass : WasmClass;
  runtimeFS : option (gmap string (list byte));
  runtimeCcall : bool;
  runtimeMethods : Methods
}.

Definition NOT_FOUND : string := "Dolphin WASM module not found or incomplete".

(** The success path of [onRuntimeReady]. [setupFileSystem] creates
    directories only and catches every exception itself; the file map is
    left as it is. *)
Definition becomeReady (s : t) : t :=
  notifyReady (setIsLoading false (setIsReady true s)).

(** [onRuntimeInitialized], that is [onRuntimeReady()], after the runtime
    has filled the module object. *)
Definition onRuntimeReady (r : Runtime) (s : t) : t :=
  let s1 := setMethods (runtimeMethods r)
              (setModule (option_map (fun _ => Dolphin.mkModule (runtimeFS r) (runtimeCcall r))
                            (Dolphin.module (core s))) s) in
  match wasmClass r with
  | Constructs bootFile => becomeReady (setDolphinInstance (Some bootFile) s1)
  | ConstructorThrows e => notifyError e (setIsLoading false s1)
  | Undefined =>
      match Dolphin.module (core s1) with
      | Some m =>
          if Dolphin.ccall m then becomeReady s1
          else notifyError (Error NOT_FOUND) (setIsLoading false s1)
      | None => notifyError (Error NOT_FOUND) (setIsLoading false s1)
      end
  end.

(** [onAbort(what)]. *)
Definition onAbort (what : string) (s : t) : t :=
  notifyError (Error ("Dolphin WASM failed to load: " +:+ what)) (setIsLoading false s).

Definition call (c : EngineCall) (s : t) : t := setCalls (calls s ++ [c]) s.

Definition hasInstance (s : t) : bool :=
  bool_decide (is_Some (Dolphin.dolphinInstance (core s))).

(** The emulation controls. A control that has to look into a module object
    that is not there raises a [TypeError]. *)
Definition pause (s : t) : t * option JsError :=
  if negb (Dolphin.isReady (core s)) then (s, None)
  else if hasInstance s && instPause (methods s) then (call CallPause s, None)
  else match Dolphin.module (core s) with
       | None => (s, Some TypeError)
       | Some _ => if modPauseMainLoop (methods s)
                   then (call CallPauseMainLoop s, None) else (s, None)
       end.

Definition resume (s : t) : t * option JsError :=
  if negb (Dolphin.isReady (core s)) then (s, None)
  else if hasInstance s && instResume (methods s) then (call CallResume s, None)
  else match Dolphin.module (core s) with
       | None => (s, Some TypeError)
       | Some _ => if modResumeMainLoop (methods s)
                   then (call CallResumeMainLoop s, None) else (s, None)
       end.

Definition stop (s : t) : t * option JsError :=
  if negb (Dolphin.isReady (core s)) then (s, None)
  else if hasInstance s && instStop (methods s) then (call CallStop s, None)
  else match Dolphin.module (core s) with
       | None => (s, Some TypeError)
       | Some m => if Dolphin.ccall m then (call CallCoreStop s, None) else (s, None)
       end.

Definition saveState (slot : Z) (s : t) : t * option JsError :=
  if negb (Dolphin.isReady (core s)) then (s, None)
  else if hasInstance s && instSaveState (methods s) then
    let s1 := call (CallSaveState slot) s in
    match Dolphin.module (core s1) with
    | None => (s1, Some TypeError)
    | Some m =>
        if bool_decide (is_Some (Dolphin.FS m)) && modSyncfs (methods s1)
        then (call CallSyncfs s1, None) else (s1, None)
    end
  else (s, None).

Definition loadState (slot : Z) (s : t) : t * option JsError :=
  if negb (Dolphin.isReady (core s)) then (s, None)
  else if hasInstance s && instLoadState (methods s)
  then (call (CallLoadState slot) s, None)
  else (s, None).

(** [bootROM] on the loader object: its calls into the engine are
    recorded with the others. *)
Definition boot (filename : string) (data : list byte) (s : t) : t * outcome bool :=
  let b := Dolphin.bootROM filename data (core s) in
  (setCalls (calls s ++ map CallBoot (Dolphin.made b)) (setCore (Dolphin.after b) s),
   Dolphin.returned b).

(** What can happen to a loader: calls of its methods and the signals of
    the page and the runtime. *)
Inductive Event : Type :=
| Init (scriptPath : option string) (wasmDefined : bool)
| ScriptLoaded (path : string)
| ScriptError (path : string)
| RuntimeInitialized (r : Runtime)
| Abort (what : string)
| Pause
| Resume
| Stop
| SaveState (slot : Z)
| LoadState (slot : Z)
| Boot (filename : string) (data : list byte).

Definition step (e : Event) (s : t) : t :=
  match e with
  | Init scriptPath wasmDefined => init scriptPath wasmDefined s
  | ScriptLoaded path => onScriptLoad path s
  | ScriptError path => onScriptError path s
  | RuntimeInitialized r => onRuntimeReady r s
  | Abort what => onAbort what s
  | Pause => fst (pause s)
  | Resume => fst (resume s)
  | Stop => fst (stop s)
  | SaveState slot => fst (saveState slot s)
  | LoadState slot => fst (loadState slot s)
  | Boot filename data => fst (boot filename data s)
  end.

Definition run (es : list Event) (s : t) : t :=
  fold_left (fun q e => step e q) es s.

(** The promises handed out so far that have been settled, and those still
    waiting. *)
Definition settledPromises (s : t) : list nat := map fst (settled s).

(** The bookkeeping of the promises is in order: both callback lists hold
    the same promises, no promise is settled twice or settled while still
    waiting, the promises settled or waiting are exactly those handed out,
    a loader that is not loading has nobody waiting, and a loader is never
    ready and loading at once. *)
Definition promisesSound (s : t) : Prop :=
  loadCallbacks s = errorCallbacks s /\
  NoDup (settledPromises s ++ loadCallbacks s) /\
  (forall id, In id (settledPromises s ++ loadCallbacks s) <-> (id < nextPromise s)%nat) /\
  (isLoading s = false -> loadCallbacks s = []) /\
  (Dolphin.isReady (core s) = true -> isLoading s = false).

End Life.


(** The signals of the runtime, which presuppose that the Dolphin script
    has run. *)
Definition isRuntimeSignal (e : Life.Event) : bool :=
  match e with
  | Life.RuntimeInitialized _ | Life.Abort _ => true
  | _ => false
  end.

(** Delivery of a signal to the loader: the load and error events of a
    script only occur for a load that is under way. *)
Definition lifeDeliver (e : Life.Event) (s : Life.t) : Life.t :=
  match e with
  | Life.ScriptLoaded path | Life.ScriptError path =>
      if bool_decide (path ∈ Life.loadsInFlight s) then Life.step e s else s
  | _ => Life.step e s
  end.

Definition lifeDeliverAll (es : list Life.Event) (s : Life.t) : Life.t :=
  fold_left (fun q e => lifeDeliver e q) es s.


(** Files are compared field by field. *)
Definition File_eq_dec (f g : File.t) : {f = g} + {f <> g}.
Proof.
  decide equality; first [apply Z.eq_dec | apply string_dec].
Defined.

(** The list without the first occurrence of [f]: a read that has ended. *)
Fixpoint removeFirst (f : File.t) (l : list File.t) : list File.t :=
  match l with
  | [] => []
  | g :: rest => if File_eq_dec g f then rest else g :: removeFirst f rest
  end.

(** ** bootmii-import.js: the backup card *)

Module Backup.

(** The closure handed to [showNandWarning] by the restore button:
    [() => performBackupRestore(currentBackup)]. *)
Inductive Restore : Type := RestoreCurrent.

(** What [validateAndParseBackup] writes into the details box: the file
    name, the buffer length and the warnings. *)
Record BackupDetails : Type := mkBackupDetails {
  detailsName : string;
  detailsSize : Z;
  detailsWarnings : list string
}.

(** A running [setInterval] of [performBackupRestore] with the variables its
    closure holds. *)
Record RestoreTimer : Type := mkRestoreTimer {
  timerId : nat;
  file : option File.t;
  progress : Z
}.

Record t : Type := mk {
  currentBackup : option File.t;  (* closure variable of [initBootMiiHandler] *)
  reading : list File.t;  (* reads under way *)
  gate : Gate.t Restore;  (* the shared warning modal *)
  status : Status;  (* #bootmii-status *)
  statusLog : list (string * string);  (* ghost: calls of [showBootMiiStatus] *)
  infoDisplay : string;  (* #bootmii-info *)
  details : option BackupDetails;  (* #bootmii-details *)
  restoreDisplay : string;  (* #restore-bootmii *)
  progressDisplay : string;  (* #bootmii-progress *)
  progressWidth : option Z;  (* its .progress-fill width, in percent *)
  progressLog : list Z;  (* ghost: calls of [updateBootMiiProgress] *)
  intervals : list RestoreTimer;  (* the running [setInterval] timers *)
  nextTimer : nat;  (* the next timer id *)
  hideTimeouts : nat;  (* pending [setTimeout]s that hide the bar *)
  lastBootMiiRestore : option (string * Z)  (* cookie: file name and size *)
}.

Definition setCurrentBackup (v : option File.t) (c : t) : t :=
  mk v (reading c) (gate c) (status c) (statusLog c) (infoDisplay c)
    (details c) (restoreDisplay c) (progressDisplay c) (progressWidth c)
    (progressLog c) (intervals c) (nextTimer c) (hideTimeouts c)
    (lastBootMiiRestore c).

Definition setReading (v : list File.t) (c : t) : t :=
  mk (currentBackup c) v (gate c) (status c) (statusLog c) (infoDisplay c)
    (details c) (restoreDisplay c) (progressDisplay c) (progressWidth c)
    (progressLog c) (intervals c) (nextTimer c) (hideTimeouts c)
    (lastBootMiiRestore c).

Definition setGate (v : Gate.t Restore) (c : t) : t :=
  mk (currentBackup c) (reading c) v (status c) (statusLog c) (infoDisplay c)
    (details c) (restoreDisplay c) (progressDisplay c) (progressWidth c)
    (progressLog c) (intervals c) (nextTimer c) (hideTimeouts c)
    (lastBootMiiRestore c).

Definition setStatus (v : Status) (c : t) : t :=
  mk (currentBackup c) (reading c) (gate c) v (statusLog c) (infoDisplay c)
    (details c) (restoreDisplay c) (progressDisplay c) (progressWidth c)
    (progressLog c) (intervals c) (nextTimer c) (hideTimeouts c)
    (lastBootMiiRestore c).

Definition setStatusLog (v : list (string * string)) (c : t) : t :=
  mk (currentBackup c) (reading c) (gate c) (status c) v (infoDisplay c)
    (details c) (restoreDisplay c) (progressDisplay c) (progressWidth c)
    (progressLog c) (intervals c) (nextTimer c) (hideTimeouts c)
    (lastBootMiiRestore c).

Definition setInfoDisplay (v : string) (c : t) : t :=
  mk (currentBackup c) (reading c) (gate c) (status c) (statusLog c) v
    (details c) (restoreDisplay c) (progressDisplay c) (progressWidth c)
    (progressLog c) (intervals c) (nextTimer c) (hideTimeouts c)
    (lastBootMiiRestore c).

Definition setDetails (v : option BackupDetails) (c : t) : t :=
  mk (currentBackup c) (reading c) (gate c) (status c) (statusLog c)
    (infoDisplay c) v (restoreDisplay c) (progressDisplay c) (progressWidth c)
    (progressLog c) (intervals c) (nextTimer c) (hideTimeouts c)
    (lastBootMiiRestore c).

Definition setRestoreDisplay (v : string) (c : t) : t :=
  mk (currentBackup c) (reading c) (gate c) (status c) (statusLog c)
    (infoDisplay c) (details c) v (progressDisplay c) (progressWidth c)
    (progressLog c) (intervals c) (nextTimer c) (hideTimeouts c)
    (lastBootMiiRestore c).

Definition setProgressDisplay (v : string) (c : t) : t :=
  mk (currentBackup c) (reading c) (gate c) (status c) (statusLog c)
    (infoDisplay c) (details c) (restoreDisplay c) v (progressWidth c)
    (progressLog c) (intervals c) (nextTimer c) (hideTimeouts c)
    (lastBootMiiRestore c).

Definition setProgressWidth (v : option Z) (c : t) : t :=
  mk (currentBackup c) (reading c) (gate c) (status c) (statusLog c)
    (infoDisplay c) (details c) (restoreDisplay c) (progressDisplay c) v
    (progressLog c) (intervals c) (nextTimer c) (hideTimeouts c)
    (lastBootMiiRestore c).

Definition setProgressLog (v : list Z) (c : t) : t :=
  mk (currentBackup c) (reading c) (gate c) (status c) (statusLog c)
    (infoDisplay c) (details c) (restoreDisplay c) (progressDisplay c)
    (progressWidth c) v (intervals c) (nextTimer c) (hideTimeouts c)
    (lastBootMiiRestore c).

Definition setIntervals (v : list RestoreTimer) (c : t) : t :=
  mk (currentBackup c) (reading c) (gate c) (status c) (statusLog c)
    (infoDisplay c) (details c) (restoreDisplay c) (progressDisplay c)
    (progressWidth c) (progressLog c) v (nextTimer c) (hideTimeouts c)
    (lastBootMiiRestore c).

Definition setNextTimer (v : nat) (c : t) : t :=
  mk (currentBackup c) (reading c) (gate c) (status c) (statusLog c)
    (infoDisplay c) (details c) (restoreDisplay c) (progressDisplay c)
    (progressWidth c) (progressLog c) (intervals c) v (hideTimeouts c)
    (lastBootMiiRestore c).

Definition setHideTimeouts (v : nat) (c : t) : t :=
  mk (currentBackup c) (reading c) (gate c) (status c) (statusLog c)
    (infoDisplay c) (details c) (restoreDisplay c) (progressDisplay c)
    (progressWidth c) (progressLog c) (intervals c) (nextTimer c) v
    (lastBootMiiRestore c).

Definition setLastBootMiiRestore (v : option (string * Z)) (c : t) : t :=
  mk (currentBackup c) (reading c) (gate c) (status c) (statusLog c)
    (infoDisplay c) (details c) (restoreDisplay c) (progressDisplay c)
    (progressWidth c) (progressLog c) (intervals c) (nextTimer c)
    (hideTimeouts c) v.

Section Card.

Variable formatBytes : Z -> string.

Definition showBootMiiStatus (type message : string) (c : t) : t :=
  setStatusLog (statusLog c ++ [(type, message)])
    (setStatus (mkStatus ("status-message " +:+ type) message "block") c).

Definition updateBootMiiProgress (percent : Z) (c : t) : t :=
  setProgressLog (progressLog c ++ [percent]) (setProgressWidth (Some percent) c).

Definition resetBootMiiUI (c : t) : t :=
  let c1 := setStatus (mkStatus "status-message" (textContent (status c)) "none") c in
  let c2 := setInfoDisplay "none" c1 in
  setRestoreDisplay "none" c2.

(** The [change] listener of the backup input: the size is checked before
    anything is read, and a refused file is not read at all. *)
Definition onChange (file : File.t) (c : t) : t :=
  let c1 := setCurrentBackup (Some file) c in
  let c2 := resetBootMiiUI c1 in
  let c3 := setProgressDisplay "block" c2 in
  let c4 := updateBootMiiProgress 0 c3 in
  let sizeValid := validateBackupSize formatBytes (File.size file) in
  if negb (SizeCheck.isValid sizeValid) then
    setProgressDisplay "none"
      (showBootMiiStatus "error" (SizeCheck.message sizeValid) c4)
  else
    let c5 := if SizeCheck.isWarning sizeValid
              then showBootMiiStatus "info" (SizeCheck.message sizeValid) c4
              else c4 in
    setReading (reading c5 ++ [file]) c5.

(** [validateAndParseBackup(file, arrayBuffer)]; an exception of the
    validation ends it on the spot. *)
Definition validateAndParseBackup (file : File.t) (arrayBuffer : ArrayBuffer)
    (c : t) : t :=
  match result (performBackupValidation arrayBuffer) with
  | Returns validation =>
      if negb (Validation.isValid validation) then
        setProgressDisplay "none"
          (showBootMiiStatus "error" (Validation.message validation) c)
      else
        let c1 := setDetails
                    (Some (mkBackupDetails (File.name file) (len arrayBuffer)
                             (Validation.warnings validation))) c in
        let c2 := setInfoDisplay "block" c1 in
        let c3 := setRestoreDisplay "inline-block" c2 in
        let c4 := setProgressDisplay "none" c3 in
        showBootMiiStatus "success" BACKUP_LOADED_MESSAGE c4
  | Throws _ | OutOfFuel => c
  end.

(** [reader.onload] of the read started for [file]. *)
Definition onLoad (file : File.t) (arrayBuffer : ArrayBuffer) (c : t) : t :=
  let c1 := setReading (removeFirst file (reading c)) c in
  let c2 := updateBootMiiProgress 100 c1 in
  validateAndParseBackup file arrayBuffer c2.

(** [reader.onprogress] of a read under way; [percentLoaded] stands for
    the value of [Math.round((e.loaded / e.total) * 100)]. *)
Definition onProgress (lengthComputable : bool) (percentLoaded : Z) (c : t) : t :=
  if lengthComputable then updateBootMiiProgress percentLoaded c else c.

Definition READ_ERROR_MESSAGE : string :=
  "Error reading backup file. Please try again.".

(** [reader.onerror] of the read started for [file]. *)
Definition onError (file : File.t) (c : t) : t :=
  let c1 := setReading (removeFirst file (reading c)) c in
  setProgressDisplay "none" (showBootMiiStatus "error" READ_ERROR_MESSAGE c1).

Definition restoreMessage (file : File.t) : string :=
  "You are about to restore the BootMii backup " +:+ dquote +:+ File.name file +:+
  dquote +:+
  ". This will REPLACE all current NAND data. This action cannot be undone. Are you sure you want to proceed?".

(** The [click] listener of the restore button. *)
Definition onRestoreClick (c : t) : t :=
  match currentBackup c with
  | Some file =>
      setGate (fst (Gate.showNandWarning (restoreMessage file)
                      (Some RestoreCurrent) (gate c))) c
  | None => c
  end.

Definition RESTORING_MESSAGE : string := "Restoring BootMii backup to virtual NAND...".

(** [performBackupRestore(file)]. *)
Definition performBackupRestore (file : option File.t) (c : t) : t :=
  let c1 := showBootMiiStatus "info" RESTORING_MESSAGE c in
  let c2 := setProgressDisplay "block" c1 in
  let restoreInterval := nextTimer c2 in
  let c3 := setIntervals (intervals c2 ++ [mkRestoreTimer restoreInterval file 0]) c2 in
  setNextTimer (S restoreInterval) c3.

Definition runAction (a : Restore) (c : t) : t :=
  match a with
  | RestoreCurrent => performBackupRestore (currentBackup c) c
  end.

Definition onConfirmClick (c : t) : t :=
  let '(g, cbs) := Gate.clickConfirm (gate c) in
  fold_left (fun q cb => runAction cb q) cbs (setGate g c).

Definition onCancelClick (c : t) : t :=
  let '(g, cbs) := Gate.clickCancel (gate c) in
  fold_left (fun q cb => runAction cb q) cbs (setGate g c).

Definition restoredMessage (f : File.t) : string :=
  "BootMii backup " +:+ dquote +:+ File.name f +:+ dquote +:+ " restored successfully!".

(** One firing of the interval callback of timer [tm]. *)
Definition tick (tm : RestoreTimer) (c : t) : t :=
  let progress' := progress tm + 5 in
  let c1 := setIntervals
              (map (fun t' => if decide (timerId t' = timerId tm)
                              then mkRestoreTimer (timerId t') (file t') progress'
                              else t') (intervals c)) c in
  let c2 := updateBootMiiProgress progress' c1 in
  if 100 <=? progress' then
    let c3 := setIntervals (filter (fun t' => timerId t' ≠ timerId tm) (intervals c2)) c2 in
    match file tm with
    | None => c3
    | Some f =>
        let c4 := showBootMiiStatus "success" (restoredMessage f) c3 in
        let c5 := setLastBootMiiRestore (Some (File.name f, File.size f)) c4 in
        setHideTimeouts (S (hideTimeouts c5)) c5
    end
  else c2.

Definition onTick (id : nat) (c : t) : t :=
  match List.find (fun tm => bool_decide (timerId tm = id)) (intervals c) with
  | Some tm => tick tm c
  | None => c
  end.

Definition onHideTimeout (c : t) : t :=
  match hideTimeouts c with
  | O => c
  | S n => setHideTimeouts n (setProgressDisplay "none" c)
  end.

Inductive Event : Type :=
| ChangeFile (file : File.t)
| ReaderLoaded (file : File.t) (arrayBuffer : ArrayBuffer)
| ReaderFailed (file : File.t)
| ClickRestore
| ClickConfirm
| ClickCancel
| Tick (id : nat)
| HideTimeout
| ReaderProgress (file : File.t) (lengthComputable : bool) (percentLoaded : Z).

Definition step (e : Event) (c : t) : t :=
  match e with
  | ChangeFile file => onChange file c
  | ReaderLoaded file arrayBuffer => onLoad file arrayBuffer c
  | ReaderFailed file => onError file c
  | ClickRestore => onRestoreClick c
  | ClickConfirm => onConfirmClick c
  | ClickCancel => onCancelClick c
  | Tick id => onTick id c
  | HideTimeout => onHideTimeout c
  | ReaderProgress _ lengthComputable percentLoaded =>
      onProgress lengthComputable percentLoaded c
  end.

(** Whether the browser can deliver the event: a read must be under way to
    report progress, fail or finish, and it delivers the bytes of its file; a button must be on
    screen to be clicked; a timer must be pending to fire. *)
Definition enabled (e : Event) (c : t) : bool :=
  match e with
  | ChangeFile _ => true
  | ReaderLoaded file arrayBuffer =>
      (if List.in_dec File_eq_dec file (reading c) then true else false) &&
      (len arrayBuffer =? File.size file)
  | ReaderFailed file | ReaderProgress file _ _ =>
      if List.in_dec File_eq_dec file (reading c) then true else false
  | ClickRestore => String.eqb (restoreDisplay c) "inline-block"
  | ClickConfirm | ClickCancel => Gate.shown (gate c)
  | Tick id => bool_decide (id ∈ map timerId (intervals c))
  | HideTimeout => bool_decide (hideTimeouts c ≠ O)
  end.

Definition run (es : list Event) (c : t) : t :=
  fold_left (fun q e => step e q) es c.

Fixpoint feasible (es : list Event) (c : t) : bool :=
  match es with
  | [] => true
  | e :: es' => enabled e c && feasible es' (step e c)
  end.

End Card.

(** The card as served. *)
Definition initial : t :=
  mk None [] (Gate.mk (Some "") (Some "") (Some 0%nat) (Some 1%nat) [[]; []])
    (mkStatus "status-message" "" "") [] "" None "" "" None [] [] 0 0 None.

End Backup.


(** The progress values 5, 10, ..., 5 * n. *)
Definition fives (n : nat) : list Z := map (fun j => 5 * Z.of_nat j) (seq 1 n).

Arguments fives : simpl never.


(** Every read under way on the backup card is of a file that passed the
    size check. *)
Definition readsChecked (formatBytes : Z -> string) (c : Backup.t) : Prop :=
  Forall (fun f => SizeCheck.isValid (validateBackupSize formatBytes (File.size f)) = true)
    (Backup.reading c).


(** ** emulator.js: RetroArch and the ROM input *)

Module Emulator.

(** The calls of the script into the RetroArch [Module]. *)
Inductive RetroCall : Type := PauseMainLoop | ResumeMainLoop | Reset.

(** A running [waitForRetroArch] interval of [handleROMLoad] with the
    variables its closure holds. *)
Record Wait : Type := mkWait {
  timerId : nat;
  filename : string;
  romData : list byte
}.

Record t : Type := mk {
  page : Page;  (* the document, with [Module] and its [FS] *)
  moduleCanvas : bool;  (* [Module.canvas], consulted when [Module] is defined *)
  modulePauseMainLoop : bool;  (* whether [Module.pauseMainLoop] exists *)
  moduleReset : bool;  (* whether [Module._reset] exists *)
  emulatorReady : bool;  (* global of emulator.js *)
  currentROM : option File.t;  (* global of emulator.js *)
  checkInterval : bool;  (* whether the interval of [checkRetroArchStatus] is live *)
  checkDeadline : bool;  (* whether its 30 s timeout is pending *)
  reading : list File.t;  (* reads under way *)
  waits : list Wait;  (* the live [waitForRetroArch] intervals *)
  waitDeadlines : list nat;  (* their pending 20 s timeouts *)
  nextWait : nat;  (* the next timer id *)
  status : Status;  (* #emulator-status *)
  statusLog : list (string * string);  (* ghost: calls of [showStatus] *)
  placeholderDisplay : string;  (* #emulator-placeholder *)
  containerDisplay : string;  (* #emulator-container *)
  pauseText : string;  (* text of #pause-btn *)
  loads : list (string * list byte);  (* ghost: calls of [loadROMIntoRetroArch] *)
  engineCalls : list RetroCall  (* ghost: calls into [Module] *)
}.

Definition setPage (v : Page) (s : t) : t :=
  mk v (moduleCanvas s) (modulePauseMainLoop s) (moduleReset s)
    (emulatorReady s) (currentROM s) (checkInterval s) (checkDeadline s)
    (reading s) (waits s) (waitDeadlines s) (nextWait s) (status s)
    (statusLog s) (placeholderDisplay s) (containerDisplay s) (pauseText s)
    (loads s) (engineCalls s).

Definition setModuleCanvas (v : bool) (s : t) : t :=
  mk (page s) v (modulePauseMainLoop s) (moduleReset s) (emulatorReady s)
    (currentROM s) (checkInterval s) (checkDeadline s) (reading s) (waits s)
    (waitDeadlines s) (nextWait s) (status s) (statusLog s)
    (placeholderDisplay s) (containerDisplay s) (pauseText s) (loads s)
    (engineCalls s).

Definition setModulePauseMainLoop (v : bool) (s : t) : t :=
  mk (page s) (moduleCanvas s) v (moduleReset s) (emulatorReady s)
    (currentROM s) (checkInterval s) (checkDeadline s) (reading s) (waits s)
    (waitDeadlines s) (nextWait s) (status s) (statusLog s)
    (placeholderDisplay s) (containerDisplay s) (pauseText s) (loads s)
    (engineCalls s).

Definition setModuleReset (v : bool) (s : t) : t :=
  mk (page s) (moduleCanvas s) (modulePauseMainLoop s) v (emulatorReady s)
    (currentROM s) (checkInterval s) (checkDeadline s) (reading s) (waits s)
    (waitDeadlines s) (nextWait s) (status s) (statusLog s)
    (placeholderDisplay s) (containerDisplay s) (pauseText s) (loads s)
    (engineCalls s).

Definition setEmulatorReady (v : bool) (s : t) : t :=
  mk (page s) (moduleCanvas s) (modulePauseMainLoop s) (moduleReset s) v
    (currentROM s) (checkInterval s) (checkDeadline s) (reading s) (waits s)
    (waitDeadlines s) (nextWait s) (status s) (statusLog s)
    (placeholderDisplay s) (containerDisplay s) (pauseText s) (loads s)
    (engineCalls s).

Definition setCurrentROM (v : option File.t) (s : t) : t :=
  mk (page s) (moduleCanvas s) (modulePauseMainLoop s) (moduleReset s)
    (emulatorReady s) v (checkInterval s) (checkDeadline s) (reading s)
    (waits s) (waitDeadlines s) (nextWait s) (status s) (statusLog s)
    (placeholderDisplay s) (containerDisplay s) (pauseText s) (loads s)
    (engineCalls s).

Definition setCheckInterval (v : bool) (s : t) : t :=
  mk (page s) (moduleCanvas s) (modulePauseMainLoop s) (moduleReset s)
    (emulatorReady s) (currentROM s) v (checkDeadline s) (reading s) (waits s)
    (waitDeadlines s) (nextWait s) (status s) (statusLog s)
    (placeholderDisplay s) (containerDisplay s) (pauseText s) (loads s)
    (engineCalls s).

Definition setCheckDeadline (v : bool) (s : t) : t :=
  mk (page s) (moduleCanvas s) (modulePauseMainLoop s) (moduleReset s)
    (emulatorReady s) (currentROM s) (checkInterval s) v (reading s) (waits s)
    (waitDeadlines s) (nextWait s) (status s) (statusLog s)
    (placeholderDisplay s) (containerDisplay s) (pauseText s) (loads s)
    (engineCalls s).

Definition setReading (v : list File.t) (s : t) : t :=
  mk (page s) (moduleCanvas s) (modulePauseMainLoop s) (moduleReset s)
    (emulatorReady s) (currentROM s) (checkInterval s) (checkDeadline s) v
    (waits s) (waitDeadlines s) (nextWait s) (status s) (statusLog s)
    (placeholderDisplay s) (containerDisplay s) (pauseText s) (loads s)
    (engineCalls s).

Definition setWaits (v : list Wait) (s : t) : t :=
  mk (page s) (moduleCanvas s) (modulePauseMainLoop s) (moduleReset s)
    (emulatorReady s) (currentROM s) (checkInterval s) (checkDeadline s)
    (reading s) v (waitDeadlines s) (nextWait s) (status s) (statusLog s)
    (placeholderDisplay s) (containerDisplay s) (pauseText s) (loads s)
    (engineCalls s).

Definition setWaitDeadlines (v : list nat) (s : t) : t :=
  mk (page s) (moduleCanvas s) (modulePauseMainLoop s) (moduleReset s)
    (emulatorReady s) (currentROM s) (checkInterval s) (checkDeadline s)
    (reading s) (waits s) v (nextWait s) (status s) (statusLog s)
    (placeholderDisplay s) (containerDisplay s) (pauseText s) (loads s)
    (engineCalls s).

Definition setNextWait (v : nat) (s : t) : t :=
  mk (page s) (moduleCanvas s) (modulePauseMainLoop s) (moduleReset s)
    (emulatorReady s) (currentROM s) (checkInterval s) (checkDeadline s)
    (reading s) (waits s) (waitDeadlines s) v (status s) (statusLog s)
    (placeholderDisplay s) (containerDisplay s) (pauseText s) (loads s)
    (engineCalls s).

Definition setStatus (v : Status) (s : t) : t :=
  mk (page s) (moduleCanvas s) (modulePauseMainLoop s) (moduleReset s)
    (emulatorReady s) (currentROM s) (checkInterval s) (checkDeadline s)
    (reading s) (waits s) (waitDeadlines s) (nextWait s) v (statusLog s)
    (placeholderDisplay s) (containerDisplay s) (pauseText s) (loads s)
    (engineCalls s).

Definition setStatusLog (v : list (string * string)) (s : t) : t :=
  mk (page s) (moduleCanvas s) (modulePauseMainLoop s) (moduleReset s)
    (emulatorReady s) (currentROM s) (checkInterval s) (checkDeadline s)
    (reading s) (waits s) (waitDeadlines s) (nextWait s) (status s) v
    (placeholderDisplay s) (containerDisplay s) (pauseText s) (loads s)
    (engineCalls s).

Definition setPlaceholderDisplay (v : string) (s : t) : t :=
  mk (page s) (moduleCanvas s) (modulePauseMainLoop s) (moduleReset s)
    (emulatorReady s) (currentROM s) (checkInterval s) (checkDeadline s)
    (reading s) (waits s) (waitDeadlines s) (nextWait s) (status s)
    (statusLog s) v (containerDisplay s) (pauseText s) (loads s)
    (engineCalls s).

Definition setContainerDisplay (v : string) (s : t) : t :=
  mk (page s) (moduleCanvas s) (modulePauseMainLoop s) (moduleReset s)
    (emulatorReady s) (currentROM s) (checkInterval s) (checkDeadline s)
    (reading s) (waits s) (waitDeadlines s) (nextWait s) (status s)
    (statusLog s) (placeholderDisplay s) v (pauseText s) (loads s)
    (engineCalls s).

Definition setPauseText (v : string) (s : t) : t :=
  mk (page s) (moduleCanvas s) (modulePauseMainLoop s) (moduleReset s)
    (emulatorReady s) (currentROM s) (checkInterval s) (checkDeadline s)
    (reading s) (waits s) (waitDeadlines s) (nextWait s) (status s)
    (statusLog s) (placeholderDisplay s) (containerDisplay s) v (loads s)
    (engineCalls s).

Definition setLoads (v : list (string * list byte)) (s : t) : t :=
  mk (page s) (moduleCanvas s) (modulePauseMainLoop s) (moduleReset s)
    (emulatorReady s) (currentROM s) (checkInterval s) (checkDeadline s)
    (reading s) (waits s) (waitDeadlines s) (nextWait s) (status s)
    (statusLog s) (placeholderDisplay s) (containerDisplay s) (pauseText s) v
    (engineCalls s).

Definition setEngineCalls (v : list RetroCall) (s : t) : t :=
  mk (page s) (moduleCanvas s) (modulePauseMainLoop s) (moduleReset s)
    (emulatorReady s) (currentROM s) (checkInterval s) (checkDeadline s)
    (reading s) (waits s) (waitDeadlines s) (nextWait s) (status s)
    (statusLog s) (placeholderDisplay s) (containerDisplay s) (pauseText s)
    (loads s) v.

(** [typeof Module !== 'undefined']. *)
Definition moduleDefined (s : t) : bool :=
  match moduleFS (page s) with Some _ => true | None => false end.

Definition showStatus (type message : string) (s : t) : t :=
  setStatusLog (statusLog s ++ [(type, message)])
    (setStatus (mkStatus ("status-message " +:+ type) message "block") s).

(** A call [loadROMIntoRetroArch(filename, data)] made by this script. *)
Definition loadROM (name : string) (data : list byte) (s : t) : t :=
  setLoads (loads s ++ [(name, data)])
    (setPage (loadROMIntoRetroArch name data (page s)) s).

Definition romLoadingMessage (name : string) : string :=
  "Loading " +:+ name +:+ "...".

Definition romLoadedMessage (name : string) : string :=
  name +:+ " loaded! Use keyboard/gamepad to play.".

Definition romWaitingMessage (name : string) : string :=
  name +:+ " ready. RetroArch is still loading - please wait...".

(** The interval callback of [checkRetroArchStatus]. *)
Definition onCheckTick (s : t) : t :=
  if checkInterval s then
    if moduleDefined s && moduleCanvas s
    then setCheckInterval false (setEmulatorReady true s)
    else s
  else s.

(** The 30 s timeout of [checkRetroArchStatus]. *)
Definition onCheckDeadline (s : t) : t :=
  if checkDeadline s then setCheckDeadline false (setCheckInterval false s) else s.

(** [handleROMLoad(event)] up to the start of the read. *)
Definition handleROMLoad (file : File.t) (s : t) : t :=
  let s1 := setCurrentROM (Some file) s in
  let s2 := showStatus "info" (romLoadingMessage (File.name file)) s1 in
  setReading (reading s2 ++ [file]) s2.

(** [reader.onload] of the read started for [file]. *)
Definition onLoad (file : File.t) (data : list byte) (s : t) : t :=
  let s0 := setReading (removeFirst file (reading s)) s in
  let s1 := setPlaceholderDisplay "none" s0 in
  let s2 := setContainerDisplay "block" s1 in
  if emulatorReady s2 && moduleDefined s2 then
    showStatus "success" (romLoadedMessage (File.name file))
      (loadROM (File.name file) data s2)
  else
    let s3 := showStatus "info" (romWaitingMessage (File.name file)) s2 in
    let waitForRetroArch := nextWait s3 in
    let s4 := setWaits (waits s3 ++ [mkWait waitForRetroArch (File.name file) data]) s3 in
    let s5 := setWaitDeadlines (waitDeadlines s4 ++ [waitForRetroArch]) s4 in
    setNextWait (S waitForRetroArch) s5.

(** [reader.onerror]. *)
Definition onError (file : File.t) (s : t) : t :=
  showStatus "error" "Error loading ROM file."
    (setReading (removeFirst file (reading s)) s).

(** One firing of the [waitForRetroArch] interval [id]. *)
Definition onWaitTick (id : nat) (s : t) : t :=
  match List.find (fun w => bool_decide (timerId w = id)) (waits s) with
  | Some w =>
      if emulatorReady s && moduleDefined s then
        let s1 := setWaits (filter (fun w' => timerId w' ≠ id) (waits s)) s in
        showStatus "success" (romLoadedMessage (filename w))
          (loadROM (filename w) (romData w) s1)
      else s
  | None => s
  end.

(** The 20 s timeout that clears the interval [id]. *)
Definition onWaitDeadline (id : nat) (s : t) : t :=
  if bool_decide (id ∈ waitDeadlines s) then
    setWaitDeadlines (filter (fun d => d ≠ id) (waitDeadlines s))
      (setWaits (filter (fun w' => timerId w' ≠ id) (waits s)) s)
  else s.

Definition call (c : RetroCall) (s : t) : t :=
  setEngineCalls (engineCalls s ++ [c]) s.

(** [togglePause()], the button being there. *)
Definition togglePause (s : t) : t :=
  if moduleDefined s && modulePauseMainLoop s then
    if String.eqb (pauseText s) "Pause"
    then setPauseText "Resume" (call PauseMainLoop s)
    else setPauseText "Pause" (call ResumeMainLoop s)
  else s.

(** [resetEmulator()]: without [Module._reset] the current ROM is read
    again. *)
Definition resetEmulator (s : t) : t :=
  if moduleDefined s && moduleReset s then call Reset s
  else
    match currentROM s with
    | Some file => handleROMLoad file (showStatus "info" "Resetting..." s)
    | None => s
    end.

(** What happens to the page: the RetroArch script defines [Module]; the
    timers of [checkRetroArchStatus] fire; a ROM is chosen and its read
    ends; the timers of a waiting ROM fire; the buttons are clicked. *)
Inductive Event : Type :=
| ModuleLoads (fs : option (gmap string (list byte))) (canvas pause reset : bool)
| CheckTick
| CheckDeadline
| ChangeROM (file : File.t)
| RomLoaded (file : File.t) (data : list byte)
| RomFailed (file : File.t)
| WaitTick (id : nat)
| WaitDeadline (id : nat)
| ClickPause
| ClickReset.

Definition step (e : Event) (s : t) : t :=
  match e with
  | ModuleLoads fs canvas pause reset =>
      setModuleReset reset
        (setModulePauseMainLoop pause
           (setModuleCanvas canvas (setPage (setModuleFS (Some fs) (page s)) s)))
  | CheckTick => onCheckTick s
  | CheckDeadline => onCheckDeadline s
  | ChangeROM file => handleROMLoad file s
  | RomLoaded file data => onLoad file data s
  | RomFailed file => onError file s
  | WaitTick id => onWaitTick id s
  | WaitDeadline id => onWaitDeadline id s
  | ClickPause => togglePause s
  | ClickReset => resetEmulator s
  end.

(** Whether the browser can deliver the event: a timer must be pending to
    fire, a read must be under way to end. *)
Definition enabled (e : Event) (s : t) : bool :=
  match e with
  | CheckTick => checkInterval s
  | CheckDeadline => checkDeadline s
  | RomLoaded file _ | RomFailed file =>
      if List.in_dec File_eq_dec file (reading s) then true else false
  | WaitTick id => bool_decide (id ∈ map timerId (waits s))
  | WaitDeadline id => bool_decide (id ∈ waitDeadlines s)
  | _ => true
  end.

Definition run (es : list Event) (s : t) : t :=
  fold_left (fun q e => step e q) es s.

Fixpoint feasible (es : list Event) (s : t) : bool :=
  match es with
  | [] => true
  | e :: es' => enabled e s && feasible es' (step e s)
  end.

(** The page after [initEmulator], before the RetroArch script has defined
    [Module]; [label] is the text of the pause button. *)
Definition fresh (label : string) : t :=
  mk (setModuleFS None initialPage) false false false false None true true [] [] [] 0
    (mkStatus "status-message" "" "") [] "" "" label [] [].

(** The success messages shown so far. *)
Definition successes (s : t) : list (string * string) :=
  List.filter (fun m => String.eqb (fst m) "success") (statusLog s).

Definition isRomLoaded (e : Event) : bool :=
  match e with RomLoaded _ _ => true | _ => false end.

End Emulator.

(** * Properties *)

(** ** Size tolerance (bootmii-import.js) *)

(** C1. The size check computes [delta = |size - 512 MiB|]; above 10 MiB the
    verdict is a rejection whose message names the file's size and the
    standard size; otherwise above 1 MiB it is an acceptance with a warning
    naming both sizes; otherwise an acceptance with an empty message. *)
Theorem validateBackupSize_verdict (formatBytes : Z -> string) (size : Z) :
  let delta := Z.abs (size - 512 * 1024 * 1024) in
  let verdict := validateBackupSize formatBytes size in
  (10 * (1024 * 1024) < delta ->
     verdict = SizeCheck.mk false false
       ("Error: File size (" +:+ formatBytes size +:+
        ") does not match standard BootMii backup size (" +:+
        formatBytes (512 * 1024 * 1024) +:+
        "). This may not be a valid backup file.")) /\
  (delta <= 10 * (1024 * 1024) -> 1024 * 1024 < delta ->
     verdict = SizeCheck.mk true true
       ("Warning: File size (" +:+ formatBytes size +:+
        ") differs slightly from standard BootMii backup size (" +:+
        formatBytes (512 * 1024 * 1024) +:+
        "). Proceeding with validation...")) /\
  (delta <= 1024 * 1024 -> verdict = SizeCheck.mk true false "").
Proof.
  intros delta verdict. subst delta verdict.
  unfold validateBackupSize, sizeErrorMessage, sizeWarningMessage,
    BOOTMII_STANDARD_SIZE, SIZE_TOLERANCE.
  repeat split; intros;
    repeat match goal with
      | |- context [?a <? ?b] => destruct (Z.ltb_spec a b); try lia
      end; reflexivity.
Qed.

(** ** The zero scan (bootmii-import.js) *)

Lemma getUint32_inside b i le :
  0 <= i -> i + 4 <= len b ->
  getUint32 b i le = ([mkRead i le], Returns (word32 b i le)).
Proof.
  intros Hi Hl. unfold getUint32.
  destruct (Z.ltb_spec i 0); [lia|].
  destruct (Z.ltb_spec (len b) (i + 4)); [lia|]. reflexivity.
Qed.

Lemma getUint32_outside b i le :
  len b < i + 4 -> getUint32 b i le = ([], Throws RangeError).
Proof.
  intros Hl. unfold getUint32.
  destruct (Z.ltb_spec (len b) (i + 4)); [|lia].
  rewrite orb_true_r. reflexivity.
Qed.

Lemma u8_zero b i : u8 b i = 0 <-> byteAt b i = x00.
Proof.
  unfold u8. split.
  - intros H. assert (Hn : Byte.to_N (byteAt b i) = 0%N) by lia.
    pose proof (Byte.of_to_N (byteAt b i)) as Hof. rewrite Hn in Hof.
    simpl in Hof. congruence.
  - intros ->. reflexivity.
Qed.

Lemma word32_zero b i le :
  word32 b i le = 0 <->
  byteAt b i = x00 /\ byteAt b (i + 1) = x00 /\
  byteAt b (i + 2) = x00 /\ byteAt b (i + 3) = x00.
Proof.
  unfold word32. destruct le;
    rewrite !Z.lor_eq_0_iff, !Z.shiftl_eq_0_iff, !u8_zero by lia; tauto.
Qed.

Lemma wordOffsets_S i n : wordOffsets i (S n) = i :: wordOffsets (i + 4) n.
Proof.
  unfold wordOffsets. simpl. f_equal; [lia|].
  rewrite <- seq_shift, map_map. apply map_ext. intros k. lia.
Qed.

Lemma hasDataIn_false b n : forall i,
  hasDataIn b n i = false <->
  (forall k, 0 <= k < Z.of_nat n -> word32 b (i + 4 * k) true = 0).
Proof.
  induction n as [|n IH]; intros i; simpl.
  - split; [intros _ k Hk; lia | reflexivity].
  - destruct (Z.eqb_spec (word32 b i true) 0) as [H0|H0]; cbn iota.
    + rewrite IH. split.
      * intros H k Hk. destruct (Z.eq_dec k 0) as [->|Hne].
        -- replace (i + 4 * 0) with i by lia. exact H0.
        -- replace (i + 4 * k) with (i + 4 + 4 * (k - 1)) by lia.
           apply H. lia.
      * intros H k Hk. replace (i + 4 + 4 * k) with (i + 4 * (k + 1)) by lia.
        apply H. lia.
    + split; [discriminate|]. intros H. exfalso. apply H0.
      replace i with (i + 4 * 0) by lia. apply H. lia.
Qed.

Lemma scanned_all_zero b n : forall i,
  hasDataIn b n i = false -> scanned b n i = n.
Proof.
  induction n as [|n IH]; intros i; simpl; [reflexivity|].
  destruct (word32 b i true =? 0); [|discriminate].
  intros H. f_equal. apply IH, H.
Qed.

Lemma scanned_le b n : forall i, (scanned b n i <= n)%nat.
Proof.
  induction n as [|n IH]; intros i; simpl; [lia|].
  destruct (word32 b i true =? 0); [|lia]. specialize (IH (i + 4)). lia.
Qed.

(** The loop, for any buffer: [n] whole words remain below the bound from
    word [q] on. It stops at the first non-zero word; if all are zero it
    returns [false], unless a partial word is left below the bound, whose
    read raises [RangeError]. *)
Lemma scanLoop_words b : forall n fuel q,
  (n < fuel)%nat -> 0 <= q ->
  4 * (q + Z.of_nat n) <= Z.min 1024 (len b) < 4 * (q + Z.of_nat n) + 4 ->
  scanLoop fuel b (4 * q) =
    (map readLE (wordOffsets (4 * q) (scanned b n (4 * q))),
     if hasDataIn b n (4 * q) then Returns true
     else if 4 * (q + Z.of_nat n) <? Z.min 1024 (len b) then Throws RangeError
     else Returns false).
Proof.
  induction n as [|n IH]; intros fuel q Hf Hq Hb.
  - destruct fuel as [|fuel]; [lia|]. simpl.
    replace (q + Z.of_nat 0) with q in * by lia.
    destruct (Z.ltb_spec (4 * q) (Z.min 1024 (len b))) as [Hlt|Hge].
    + rewrite getUint32_outside by lia. reflexivity.
    + reflexivity.
  - destruct fuel as [|fuel]; [lia|]. cbn [scanLoop hasDataIn scanned].
    destruct (Z.ltb_spec (4 * q) (Z.min 1024 (len b))) as [Hlt|Hge]; [|lia].
    rewrite getUint32_inside by lia. unfold bind.
    destruct (Z.eqb_spec (word32 b (4 * q) true) 0) as [H0|H0]; cbn [negb].
    + replace (4 * q + 4) with (4 * (q + 1)) by lia.
      rewrite (IH fuel (q + 1)) by lia.
      replace (q + 1 + Z.of_nat n) with (q + Z.of_nat (S n)) by lia.
      rewrite wordOffsets_S.
      replace (4 * q + 4) with (4 * (q + 1)) by lia. reflexivity.
    + rewrite wordOffsets_S. reflexivity.
Qed.

Lemma scanLoop_from_start b :
  let n := Z.to_nat (Z.min 1024 (len b) / 4) in
  scanLoop 257 b 0 =
    (map readLE (wordOffsets 0 (scanned b n 0)),
     if hasDataIn b n 0 then Returns true
     else if 4 * Z.of_nat n <? Z.min 1024 (len b) then Throws RangeError
     else Returns false).
Proof.
  intros n. subst n.
  assert (Hlen : 0 <= len b) by (unfold len; lia).
  set (bound := Z.min 1024 (len b)).
  assert (Hbound : 0 <= bound <= 1024) by (subst bound; lia).
  pose proof (Z.div_mod bound 4 ltac:(lia)) as Hdm.
  pose proof (Z.mod_pos_bound bound 4 ltac:(lia)) as Hmod.
  assert (Hq : 0 <= bound / 4 <= 256) by lia.
  pose proof (scanLoop_words b (Z.to_nat (bound / 4)) 257 0) as H.
  change (4 * 0) with 0 in H. rewrite Z.add_0_l in H.
  apply H; fold bound; lia.
Qed.

(** What [performBackupValidation] does on every non-empty buffer. *)
Lemma performBackupValidation_outcome b :
  0 < len b ->
  let n := Z.to_nat (Z.min 1024 (len b) / 4) in
  performBackupValidation b =
    (map readLE (wordOffsets 0 (scanned b n 0)),
     if hasDataIn b n 0 then Returns (Validation.mk true "" [])
     else if 4 * Z.of_nat n <? Z.min 1024 (len b) then Throws RangeError
     else Returns (Validation.mk true "" [EMPTY_1KB_WARNING])).
Proof.
  intros Hpos n. unfold performBackupValidation.
  destruct (Z.eqb_spec (len b) 0); [lia|].
  rewrite scanLoop_from_start. fold n. unfold bind, ret.
  destruct (hasDataIn b n 0); cbn [negb]; [rewrite app_nil_r; reflexivity|].
  destruct (4 * Z.of_nat n <? Z.min 1024 (len b));
    [reflexivity | rewrite app_nil_r; reflexivity].
Qed.

(** X1. On a non-empty buffer the scan raises exactly on the buffers shorter
    than 1 KiB whose length is not a multiple of four and whose whole words
    are all zero; on every other non-empty buffer it returns an accepting
    verdict. *)
Lemma performBackupValidation_raises_iff b :
  0 < len b ->
  (result (performBackupValidation b) = Throws RangeError <->
   len b < 1024 /\ len b mod 4 <> 0 /\
   (forall k, 0 <= k < len b / 4 -> word32 b (4 * k) true = 0)) /\
  (result (performBackupValidation b) = Throws RangeError \/
   exists v, result (performBackupValidation b) = Returns v /\
             Validation.isValid v = true).
Proof.
  intros Hpos. rewrite performBackupValidation_outcome by exact Hpos.
  cbv zeta. unfold result. cbn [snd].
  split;
    [|destruct (hasDataIn b _ 0); [right; eexists; split; reflexivity|];
      destruct (_ <? _); [left; reflexivity|right; eexists; split; reflexivity]].
  set (bound := Z.min 1024 (len b)).
  assert (Hbound : 0 <= bound <= 1024) by (subst bound; lia).
  pose proof (Z.div_mod bound 4 ltac:(lia)) as Hdm.
  pose proof (Z.mod_pos_bound bound 4 ltac:(lia)) as Hmod.
  pose proof (Z.div_mod (len b) 4 ltac:(lia)) as Hdm'.
  pose proof (Z.mod_pos_bound (len b) 4 ltac:(lia)) as Hmod'.
  rewrite Z2Nat.id by lia.
  destruct (hasDataIn b (Z.to_nat (bound / 4)) 0) eqn:Hdata.
  - split; [discriminate|]. intros (Hlt & Hrem & Hz). exfalso.
    assert (Hf : hasDataIn b (Z.to_nat (bound / 4)) 0 = false); [|congruence].
    apply hasDataIn_false. intros k Hk. rewrite Z.add_0_l. apply Hz.
    subst bound. rewrite Z.min_r in Hk by lia. lia.
  - pose proof (proj1 (hasDataIn_false _ _ _) Hdata) as Hzero.
    clear Hdata. rename Hzero into Hdata.
    destruct (Z.ltb_spec (4 * (bound / 4)) bound) as [Htail|Hfull].
    + split; [intros _|reflexivity].
      assert (bound = len b) as Hb.
      { subst bound. destruct (Z.min_spec 1024 (len b)) as [[_ Hm]|[_ Hm]];
          [|exact Hm]. rewrite Hm in *. change (1024 / 4) with 256 in Htail. lia. }
      rewrite Hb in *. repeat split; [subst bound; lia | lia |].
      intros k Hk. specialize (Hdata k). rewrite Z.add_0_l in Hdata.
      apply Hdata. lia.
    + split; [discriminate|]. intros (Hlt & Hrem & _). exfalso.
      subst bound. rewrite Z.min_r in * by lia. lia.
Qed.

Lemma words_zero_iff_bytes b :
  (forall k, 0 <= k < 256 -> word32 b (0 + 4 * k) true = 0) <->
  (forall j, 0 <= j < 1024 -> byteAt b j = x00).
Proof.
  split.
  - intros H j Hj.
    pose proof (Z.div_mod j 4 ltac:(lia)) as Hdm.
    pose proof (Z.mod_pos_bound j 4 ltac:(lia)) as Hmod.
    assert (Hk : 0 <= j / 4 < 256) by lia.
    specialize (H (j / 4) Hk). apply word32_zero in H.
    destruct H as (H0 & H1 & H2 & H3).
    assert (Hcases : j mod 4 = 0 \/ j mod 4 = 1 \/ j mod 4 = 2 \/ j mod 4 = 3) by lia.
    destruct Hcases as [Hc|[Hc|[Hc|Hc]]].
    + replace j with (0 + 4 * (j / 4)) by lia. exact H0.
    + replace j with (0 + 4 * (j / 4) + 1) by lia. exact H1.
    + replace j with (0 + 4 * (j / 4) + 2) by lia. exact H2.
    + replace j with (0 + 4 * (j / 4) + 3) by lia. exact H3.
  - intros H k Hk. apply word32_zero. repeat split; apply H; lia.
Qed.

Lemma Forall_wordOffsets_reads n : forall q m,
  0 <= q -> q + Z.of_nat n <= m ->
  Forall (fun r => littleEndian r = true /\ exists k, 0 <= k < m /\ offset r = 4 * k)
    (map readLE (wordOffsets (4 * q) n)).
Proof.
  induction n as [|n IH]; intros q m Hq Hm.
  - constructor.
  - rewrite wordOffsets_S. cbn [map]. constructor.
    + split; [reflexivity|]. exists q. cbn. lia.
    + replace (4 * q + 4) with (4 * (q + 1)) by lia. apply IH; lia.
Qed.

Lemma size_check_passes_length formatBytes b :
  SizeCheck.isValid (validateBackupSize formatBytes (len b)) = true ->
  1024 <= len b.
Proof.
  unfold validateBackupSize, BOOTMII_STANDARD_SIZE, SIZE_TOLERANCE.
  destruct (Z.ltb_spec (1024 * 1024 * 10) (Z.abs (len b - 512 * 1024 * 1024)));
    [discriminate|]. intros _. lia.
Qed.

(** Through the BootMii card the validation cannot raise: a file more than
    10 MiB away from the standard size is refused before it is read, and any
    other is long enough for the scan. *)
Lemma importBackup_returns formatBytes b :
  exists r, result (importBackup formatBytes b) = Returns r.
Proof.
  unfold importBackup.
  destruct (SizeCheck.isValid (validateBackupSize formatBytes (len b))) eqn:Hv;
    cbn [negb]; [|eexists; reflexivity].
  pose proof (size_check_passes_length _ _ Hv) as Hlen.
  rewrite performBackupValidation_outcome by lia. cbv zeta.
  rewrite Z.min_l by lia. change (Z.to_nat (1024 / 4)) with 256%nat.
  change (4 * Z.of_nat 256 <? 1024) with false. cbv iota.
  unfold bind, ret, result.
  destruct (hasDataIn b 256 0); cbn [Validation.isValid negb snd];
    eexists; reflexivity.
Qed.

(** C4. For a backup that passed the size check, the validation returns an
    accepting verdict; every read of the scan is a little-endian 32-bit read
    at a multiple of four below 1024; if the first 1024 bytes are all zero
    the scan reads all 256 words and the verdict carries exactly one warning
    (the blank-image warning), otherwise it carries none; the verdict accepts
    in both cases. *)
Theorem zero_scan_heuristic (formatBytes : Z -> string) (b : ArrayBuffer) :
  SizeCheck.isValid (validateBackupSize formatBytes (len b)) = true ->
  exists v,
    result (performBackupValidation b) = Returns v /\
    Validation.isValid v = true /\
    Forall (fun r => littleEndian r = true /\
                     exists k, 0 <= k < 256 /\ offset r = 4 * k)
      (reads (performBackupValidation b)) /\
    ((forall j, 0 <= j < 1024 -> byteAt b j = x00) ->
       reads (performBackupValidation b) = map readLE (wordOffsets 0 256) /\
       Validation.warnings v = [EMPTY_1KB_WARNING]) /\
    (~ (forall j, 0 <= j < 1024 -> byteAt b j = x00) ->
       Validation.warnings v = []).
Proof.
  intros Hsize.
  pose proof (size_check_passes_length _ _ Hsize) as Hlen.
  rewrite performBackupValidation_outcome by lia. cbv zeta.
  rewrite Z.min_l by lia. change (Z.to_nat (1024 / 4)) with 256%nat.
  change (4 * Z.of_nat 256 <? 1024) with false. cbv iota.
  unfold result, reads. cbn [fst snd].
  pose proof (hasDataIn_false b 256 0) as Hfalse.
  change (Z.of_nat 256) with 256 in Hfalse.
  rewrite words_zero_iff_bytes in Hfalse.
  assert (Hreads : Forall (fun r => littleEndian r = true /\
                     exists k, 0 <= k < 256 /\ offset r = 4 * k)
                     (map readLE (wordOffsets 0 (scanned b 256 0)))).
  { pose proof (scanned_le b 256 0) as Hle.
    apply (Forall_wordOffsets_reads _ 0 256); lia. }
  destruct (hasDataIn b 256 0) eqn:Hdata.
  - eexists. split; [reflexivity|]. split; [reflexivity|]. split; [exact Hreads|].
    split.
    + intros Hz. apply Hfalse in Hz. discriminate.
    + intros _. reflexivity.
  - eexists. split; [reflexivity|]. split; [reflexivity|]. split; [exact Hreads|].
    split.
    + intros _. rewrite scanned_all_zero by exact Hdata. split; reflexivity.
    + intros Hnz. exfalso. apply Hnz. apply Hfalse. reflexivity.
Qed.

Lemma zero_scan_heuristic_witness :
  SizeCheck.isValid (validateBackupSize pretty (len (zeros 536870912))) = true /\
  exists v,
    result (performBackupValidation (zeros 536870912)) = Returns v /\
    Validation.isValid v = true /\
    Forall (fun r => littleEndian r = true /\
                     exists k, 0 <= k < 256 /\ offset r = 4 * k)
      (reads (performBackupValidation (zeros 536870912))) /\
    ((forall j, 0 <= j < 1024 -> byteAt (zeros 536870912) j = x00) ->
       reads (performBackupValidation (zeros 536870912)) =
         map readLE (wordOffsets 0 256) /\
       Validation.warnings v = [EMPTY_1KB_WARNING]) /\
    (~ (forall j, 0 <= j < 1024 -> byteAt (zeros 536870912) j = x00) ->
       Validation.warnings v = []).
Proof.
  split; [reflexivity | apply (zero_scan_heuristic pretty (zeros 536870912)); reflexivity].
Defined.

Lemma validateBackupSize_verdict_witness :
  10 * (1024 * 1024) < Z.abs (548405248 - 512 * 1024 * 1024) /\
  validateBackupSize pretty 548405248 =
    SizeCheck.mk false false
      ("Error: File size (" +:+ pretty 548405248 +:+
       ") does not match standard BootMii backup size (" +:+
       pretty (512 * 1024 * 1024) +:+
       "). This may not be a valid backup file.").
Proof.
  split; [reflexivity |
    apply (proj1 (validateBackupSize_verdict pretty 548405248)); reflexivity].
Defined.

(** ** Structural checks and type detection (wad-handler.js) *)

Lemma validateWadFile_eq b :
  validateWadFile b =
    if len b <? 64 then ([], Returns false) else ([mkRead 0 false], Returns true).
Proof.
  unfold validateWadFile.
  destruct (Z.ltb_spec (len b) 64) as [Hs|Hl]; [reflexivity|].
  rewrite getUint32_inside by lia. unfold bind, ret.
  destruct (_ || _); reflexivity.
Qed.

Lemma validateDolFile_eq b :
  validateDolFile b =
    if len b <? 0x100 then ([], Returns false)
    else ([mkRead 0 false; mkRead 0x1C false], Returns true).
Proof.
  unfold validateDolFile, DOL_TEXT_OFFSET, DOL_DATA_OFFSET.
  destruct (Z.ltb_spec (len b) 256) as [Hs|Hl]; [reflexivity|].
  rewrite !getUint32_inside by lia. unfold bind, ret.
  destruct (_ && _); [reflexivity|]. destruct (_ && _); reflexivity.
Qed.

(** C5, as the code has it. Both header checks answer from the length alone:
    [true] for every buffer of at least 64 bytes (WAD) or 256 bytes (DOL),
    whatever its bytes, and [false] for every shorter one; they never raise.
    The same holds for the earlier revision of the handler. *)
Theorem header_checks_by_length (b : ArrayBuffer) :
  result (validateWadFile b) = Returns (negb (len b <? 64)) /\
  result (validateDolFile b) = Returns (negb (len b <? 256)) /\
  result (Legacy.validateWadFile b) = Returns (negb (len b <? 64)) /\
  result (Legacy.validateDolFile b) = Returns (negb (len b <? 256)).
Proof.
  rewrite validateWadFile_eq, validateDolFile_eq.
  unfold Legacy.validateWadFile, Legacy.validateDolFile.
  change 0x100 with 256.
  destruct (len b <? 64), (len b <? 256); repeat split; reflexivity.
Qed.

(** C5, as stated, fails: a ten-byte buffer is refused by both checks. *)
Lemma header_checks_refuse_ten_bytes :
  result (validateWadFile (zeros 10)) = Returns false /\
  result (validateDolFile (zeros 10)) = Returns false.
Proof. split; reflexivity. Qed.

Lemma split_not_nil sep s : split sep s <> [].
Proof.
  destruct s as [|c s]; cbn [split]; [discriminate|].
  destruct (Ascii.eqb c sep); [discriminate|].
  destruct (split sep s); discriminate.
Qed.

Lemma pop_split sep s : pop (split sep s) = Some (default EmptyString (pop (split sep s))).
Proof.
  unfold pop. destruct (last (split sep s)) eqn:E; [reflexivity|].
  apply last_None in E. destruct (split_not_nil _ _ E).
Qed.

Lemma lowerChar_dot c : Ascii.eqb (lowerChar c) "." = Ascii.eqb c ".".
Proof. destruct c as [[] [] [] [] [] [] [] []]; reflexivity. Qed.

Lemma lowerChar_idem c : lowerChar (lowerChar c) = lowerChar c.
Proof. destruct c as [[] [] [] [] [] [] [] []]; reflexivity. Qed.

Lemma toLowerCase_idem s : toLowerCase (toLowerCase s) = toLowerCase s.
Proof.
  induction s as [|c s IH]; cbn [toLowerCase]; [reflexivity|].
  rewrite lowerChar_idem, IH. reflexivity.
Qed.

Lemma split_toLowerCase s :
  split "." (toLowerCase s) = map toLowerCase (split "." s).
Proof.
  induction s as [|c s IH]; cbn [toLowerCase split]; [reflexivity|].
  rewrite lowerChar_dot, IH.
  destruct (Ascii.eqb c "."); [reflexivity|].
  destruct (split "." s) as [|piece pieces] eqn:E; [|reflexivity].
  destruct (split_not_nil _ _ E).
Qed.

Lemma last_map {A B} (f : A -> B) (l : list A) :
  last (map f l) = option_map f (last l).
Proof.
  induction l as [|x [|y l] IH]; [reflexivity | reflexivity |].
  exact IH.
Qed.

Lemma extensionOf_toLowerCase s :
  extensionOf (toLowerCase s) = toLowerCase (extensionOf s).
Proof.
  unfold extensionOf, pop. rewrite split_toLowerCase, last_map.
  destruct (last (split "." s)); reflexivity.
Qed.

Lemma classifyByExtension_toLowerCase s :
  classifyByExtension (toLowerCase s) = classifyByExtension s.
Proof.
  unfold classifyByExtension.
  rewrite extensionOf_toLowerCase, toLowerCase_idem. reflexivity.
Qed.

Lemma detectFileType_eq f b :
  detectFileType f b =
    match classifyByExtension f with
    | Some WAD => if len b <? 64 then ([], Returns None)
                  else ([mkRead 0 false], Returns (Some WAD))
    | Some DOL => if len b <? 0x100 then ([], Returns None)
                  else ([mkRead 0 false; mkRead 0x1C false], Returns (Some DOL))
    | None => ([], Returns None)
    end.
Proof.
  unfold detectFileType, classifyByExtension. rewrite pop_split.
  fold (extensionOf f). cbn [EXTENSION_TABLE lookupExtension].
  destruct (String.eqb (toLowerCase (extensionOf f)) "wad").
  - rewrite validateWadFile_eq. destruct (len b <? 64); reflexivity.
  - destruct (String.eqb (toLowerCase (extensionOf f)) "dol"); [|reflexivity].
    rewrite validateDolFile_eq. destruct (len b <? 0x100); reflexivity.
Qed.

Lemma Legacy_detectFileType_result f b :
  result (Legacy.detectFileType f b) = result (detectFileType f b).
Proof.
  rewrite detectFileType_eq.
  unfold Legacy.detectFileType, classifyByExtension. rewrite pop_split.
  fold (extensionOf f). cbn [EXTENSION_TABLE lookupExtension].
  unfold Legacy.validateWadFile, Legacy.validateDolFile.
  destruct (String.eqb (toLowerCase (extensionOf f)) "wad").
  - destruct (len b <? 64); reflexivity.
  - destruct (String.eqb (toLowerCase (extensionOf f)) "dol"); [|reflexivity].
    destruct (len b <? 0x100); reflexivity.
Qed.

(** C6, as the code has it. The extension alone, compared without regard to
    case against the static table, selects the candidate type; the result is
    that type when the buffer has at least the type's minimum length and null
    otherwise; no extension in the table gives null; the call never raises;
    names that differ only in case are classified alike; and the bytes of the
    buffer never matter: two buffers of one length give the same result. *)
Theorem detectFileType_by_extension_and_length (filename : string) (b : ArrayBuffer) :
  result (detectFileType filename b) =
    Returns (match classifyByExtension filename with
             | Some t => if len b <? minSize t then None else Some t
             | None => None
             end) /\
  result (Legacy.detectFileType filename b) = result (detectFileType filename b) /\
  (forall filename', toLowerCase filename' = toLowerCase filename ->
     detectFileType filename' b = detectFileType filename b) /\
  (forall b', byteLength b' = byteLength b ->
     detectFileType filename b' = detectFileType filename b).
Proof.
  split; [|split; [apply Legacy_detectFileType_result|split]].
  - rewrite detectFileType_eq.
    destruct (classifyByExtension filename) as [[]|]; cbn [minSize];
      try reflexivity; destruct (_ <? _); reflexivity.
  - intros f' Hf. rewrite !detectFileType_eq.
    rewrite <- (classifyByExtension_toLowerCase f'), Hf,
      classifyByExtension_toLowerCase. reflexivity.
  - intros b' Hb. rewrite !detectFileType_eq. unfold len. rewrite Hb. reflexivity.
Qed.

Lemma detectFileType_by_extension_and_length_witness :
  detectFileType "GAME.WAD" (zeros 64) = detectFileType "game.wad" (zeros 64) /\
  detectFileType "game.wad" (mkBuffer 64 (fun _ => xff)) =
    detectFileType "game.wad" (zeros 64).
Proof.
  split.
  - apply (proj1 (proj2 (proj2
      (detectFileType_by_extension_and_length "game.wad" (zeros 64))))).
    reflexivity.
  - apply (proj2 (proj2 (proj2
      (detectFileType_by_extension_and_length "game.wad" (zeros 64))))).
    reflexivity.
Defined.

(** C6, as stated, fails: under one file name the classification changes
    with the buffer. *)
Lemma classification_depends_on_buffer :
  result (detectFileType "game.wad" (zeros 10)) = Returns None /\
  result (detectFileType "game.wad" (zeros 64)) = Returns (Some WAD) /\
  result (detectFileType "game.wad" (zeros 10)) <>
    result (detectFileType "game.wad" (zeros 64)).
Proof. split; [reflexivity | split; [reflexivity | discriminate]]. Qed.

(** ** Minimum sizes *)

Lemma onLoad_undersized file b p t :
  classifyByExtension (File.name file) = Some t -> len b < minSize t ->
  onLoad file b p =
    setProgressDisplay "none"
      (showStatus "error" INVALID_TYPE_MESSAGE
         (setCurrentFileType None (updateProgress 100 p))).
Proof.
  intros Hc Hl. unfold onLoad. rewrite detectFileType_eq, Hc.
  destruct t; cbn [minSize] in Hl.
  - destruct (Z.ltb_spec (len b) 64); [reflexivity|lia].
  - destruct (Z.ltb_spec (len b) 0x100); [reflexivity|lia].
Qed.

(** C2, as the code has it. Below the minimum length (64 bytes for WAD, 256
    for DOL, 1 for a backup) the checks refuse at once, before any byte is
    read and without raising: the WAD and DOL checks return [false], also in
    the earlier revision, and the upload handler then clears the file type
    and shows exactly one error status, the fixed text
    "Invalid file type. Please select a .wad or .dol file.", leaving the
    details box and the install button as they were; the backup validation
    returns a rejecting verdict with the single fixed message
    "Error: Backup file is empty." and no warnings. *)
Theorem minimum_size_rejections :
  (forall b, len b < 64 ->
     validateWadFile b = ([], Returns false) /\
     Legacy.validateWadFile b = ([], Returns false)) /\
  (forall b, len b < 256 ->
     validateDolFile b = ([], Returns false) /\
     Legacy.validateDolFile b = ([], Returns false)) /\
  (forall file b p t,
     classifyByExtension (File.name file) = Some t -> len b < minSize t ->
     currentFileType (onLoad file b p) = None /\
     statusLog (onLoad file b p) =
       statusLog p ++ [("error", "Invalid file type. Please select a .wad or .dol file.")] /\
     status (onLoad file b p) =
       mkStatus "status-message error"
         "Invalid file type. Please select a .wad or .dol file." "block" /\
     details (onLoad file b p) = details p /\
     installDisplay (onLoad file b p) = installDisplay p) /\
  (forall b, len b < 1 ->
     performBackupValidation b =
       ([], Returns (Validation.mk false "Error: Backup file is empty." []))).
Proof.
  repeat apply conj.
  - intros b Hb. rewrite validateWadFile_eq. unfold Legacy.validateWadFile.
    destruct (Z.ltb_spec (len b) 64); [split; reflexivity|lia].
  - intros b Hb. rewrite validateDolFile_eq. unfold Legacy.validateDolFile.
    change 0x100 with 256.
    destruct (Z.ltb_spec (len b) 256); [split; reflexivity|lia].
  - intros file b p t Hc Hl. rewrite (onLoad_undersized file b p t Hc Hl).
    repeat split; reflexivity.
  - intros b Hb. unfold performBackupValidation.
    assert (H0 : len b = 0) by (unfold len in *; lia).
    rewrite H0. reflexivity.
Qed.

Lemma minimum_size_rejections_witness :
  validateWadFile (zeros 10) = ([], Returns false) /\
  validateDolFile (zeros 10) = ([], Returns false) /\
  statusLog (onLoad (File.mk "game.wad" 10 0) (zeros 10) initialPage) =
    [("error", "Invalid file type. Please select a .wad or .dol file.")] /\
  performBackupValidation (zeros 0) =
    ([], Returns (Validation.mk false "Error: Backup file is empty." [])).
Proof.
  pose proof minimum_size_rejections as (Hwad & Hdol & Hload & Hbackup).
  split; [apply (Hwad (zeros 10)); reflexivity|].
  split; [apply (Hdol (zeros 10)); reflexivity|].
  split; [|apply (Hbackup (zeros 0)); reflexivity].
  apply (Hload (File.mk "game.wad" 10 0) (zeros 10) initialPage WAD);
    reflexivity.
Defined.

(** C2, as stated, fails: for the ten-byte upload [game.wad] the one error
    shown names neither the required 64 bytes nor the actual 10. *)
Lemma undersized_error_cites_no_size :
  statusLog (onLoad (File.mk "game.wad" 10 0) (zeros 10)
               (onChange (File.mk "game.wad" 10 0) initialPage)) =
    [("error", INVALID_TYPE_MESSAGE)] /\
  contains "64" INVALID_TYPE_MESSAGE = false /\
  contains "10" INVALID_TYPE_MESSAGE = false.
Proof. repeat split; reflexivity. Qed.

(** ** The validators never raise *)

(** C3. No validator raises, whatever the length of the buffer, lengths
    below four bytes and lengths that are not a multiple of four included;
    a malformed upload only shows in the verdict. The validation of a
    backup, which is the size check followed for the sizes it lets through
    by the zero scan, returns for every buffer: a buffer refused on its
    size gets the one error of the size check and is not scanned, and every
    other is long enough for all the reads of the scan. The header checks
    of the WAD and DOL files and the type detection built on them return
    for every buffer and every file name, in both revisions of the
    handler. *)
Theorem validators_never_raise
    (formatBytes : Z -> string) (filename : string) (b : ArrayBuffer) :
  (exists r, result (importBackup formatBytes b) = Returns r /\
             (restoreOffered r = false ->
              reads (importBackup formatBytes b) = [] /\
              statuses r = [("error", sizeErrorMessage formatBytes (len b))])) /\
  (exists ok, result (validateWadFile b) = Returns ok) /\
  (exists ok, result (validateDolFile b) = Returns ok) /\
  (exists t, result (detectFileType filename b) = Returns t) /\
  (exists ok, result (Legacy.validateWadFile b) = Returns ok) /\
  (exists ok, result (Legacy.validateDolFile b) = Returns ok) /\
  (exists t, result (Legacy.detectFileType filename b) = Returns t).
Proof.
  assert (Hdetect : exists t, result (detectFileType filename b) = Returns t).
  { rewrite detectFileType_eq.
    destruct (classifyByExtension filename) as [[]|];
      try destruct (len b <? _); eexists; reflexivity. }
  split.
  { unfold importBackup.
    destruct (SizeCheck.isValid (validateBackupSize formatBytes (len b))) eqn:Hv;
      cbn [negb].
    - pose proof (size_check_passes_length _ _ Hv) as Hlen.
      rewrite performBackupValidation_outcome by lia. cbv zeta.
      rewrite Z.min_l by lia. change (Z.to_nat (1024 / 4)) with 256%nat.
      change (4 * Z.of_nat 256 <? 1024) with false. cbv iota.
      unfold bind, ret, result.
      destruct (hasDataIn b 256 0); cbn [Validation.isValid negb snd];
        eexists; (split; [reflexivity|]); cbn [restoreOffered]; discriminate.
    - eexists. split; [reflexivity|]. intros _. split; [reflexivity|].
      cbn [statuses]. revert Hv. unfold validateBackupSize. cbv zeta.
      destruct (_ <? _); [reflexivity|]. destruct (_ <? _); discriminate. }
  split; [rewrite validateWadFile_eq; destruct (len b <? 64); eexists; reflexivity|].
  split; [rewrite validateDolFile_eq; destruct (len b <? 0x100); eexists; reflexivity|].
  split; [exact Hdetect|].
  split; [unfold Legacy.validateWadFile; destruct (len b <? 64); eexists; reflexivity|].
  split; [unfold Legacy.validateDolFile; destruct (len b <? 0x100); eexists; reflexivity|].
  rewrite Legacy_detectFileType_result. exact Hdetect.
Qed.

(** ** The confirmation modal (shared utilities) *)

Section GateProperties.

Context {Cb : Type}.
Implicit Types (g : Gate.t Cb) (onConfirm : option Cb).

(** On a complete page the call runs to its end: message set, modal on
    screen, and two new nodes, each with its one listener, in the place
    of the two buttons; the earlier nodes are left as they were. *)
Lemma showNandWarning_complete g message onConfirm :
  Gate.complete g = true ->
  Gate.showNandWarning message onConfirm g =
    (Gate.mk (Some "flex") (Some message)
       (Some (length (Gate.nodes g))) (Some (S (length (Gate.nodes g))))
       (Gate.nodes g ++ [[Gate.ConfirmListener onConfirm]; [Gate.CancelListener]]),
     None).
Proof.
  unfold Gate.complete, Gate.showNandWarning. destruct g as [md mt cf cn ns].
  cbn [Gate.modalDisplay Gate.messageText Gate.confirmButton Gate.cancelButton
       Gate.nodes].
  destruct md, mt, cf, cn; try discriminate. intros _.
  cbn [Gate.setModalDisplay Gate.setMessageText Gate.cloneNode
       Gate.replaceConfirm Gate.replaceCancel Gate.addEventListener
       Gate.modalDisplay Gate.messageText Gate.confirmButton Gate.cancelButton
       Gate.nodes option_map].
  f_equal.
  unfold Gate.addEventListener, Gate.replaceCancel, Gate.replaceConfirm.
  cbn [Gate.modalDisplay Gate.messageText Gate.confirmButton Gate.cancelButton
       Gate.nodes].
  rewrite length_app. cbn [length]. f_equal; [f_equal; lia|].
  replace (length ns + 1)%nat with (S (length ns)) by lia.
  rewrite <- (app_assoc ns [[]] [[]]). cbn [app].
  replace (length ns) with (length ns + 0)%nat at 2 by lia.
  rewrite alter_app_r. cbn.
  replace (S (length ns)) with (length ns + 1)%nat by lia.
  rewrite alter_app_r. reflexivity.
Qed.

Lemma showNandWarning_armed g message onConfirm :
  Gate.complete g = true ->
  armed onConfirm (fst (Gate.showNandWarning message onConfirm g)).
Proof.
  intros Hc. rewrite showNandWarning_complete by exact Hc. cbn [fst].
  split; [reflexivity|]. split.
  - exists (length (Gate.nodes g)). split; [reflexivity|].
    cbn [Gate.nodes]. apply list_lookup_middle. reflexivity.
  - exists (S (length (Gate.nodes g))). split; [reflexivity|].
    cbn [Gate.nodes].
    change (Gate.nodes g ++ [[Gate.ConfirmListener onConfirm]; [Gate.CancelListener]])
      with (Gate.nodes g ++ [[Gate.ConfirmListener onConfirm]] ++ [[Gate.CancelListener]]).
    rewrite app_assoc. apply list_lookup_middle.
    rewrite length_app. cbn. lia.
Qed.

Lemma setModalDisplay_armed d onConfirm g :
  armed onConfirm g -> armed onConfirm (Gate.setModalDisplay d g).
Proof.
  intros (Hc & Hconfirm & Hcancel). split; [|split; assumption].
  revert Hc. unfold Gate.complete, Gate.setModalDisplay.
  destruct g as [[] [] [] [] ?]; cbn; congruence.
Qed.

Lemma setModalDisplay_complete d g :
  Gate.complete (Gate.setModalDisplay d g) = Gate.complete g.
Proof. destruct g as [[] [] [] [] ?]; reflexivity. Qed.

(** Listeners only ever hide the modal. *)
Lemma runListeners_frame ls : forall g,
  fst (Gate.runListeners ls g) = g \/
  fst (Gate.runListeners ls g) = Gate.setModalDisplay "none" g.
Proof.
  induction ls as [|l ls IH]; intros g; cbn [Gate.runListeners]; [left; reflexivity|].
  destruct (Gate.runListener l g) as [g1 cbs1] eqn:E1.
  destruct (Gate.runListeners ls g1) as [g2 cbs2] eqn:E2. cbn [fst].
  assert (Hg1 : g1 = Gate.setModalDisplay "none" g)
    by (destruct l; cbn in E1; congruence).
  right. specialize (IH g1). rewrite E2 in IH. cbn [fst] in IH.
  destruct IH as [->| ->]; [exact Hg1|].
  rewrite Hg1. destruct g as [[] ? ? ? ?]; reflexivity.
Qed.

Lemma click_frame n g :
  fst (Gate.click n g) = g \/ fst (Gate.click n g) = Gate.setModalDisplay "none" g.
Proof.
  unfold Gate.click. destruct (Gate.nodes g !! n); [apply runListeners_frame|].
  left. reflexivity.
Qed.

Lemma clickConfirm_armed onConfirm g :
  armed onConfirm g ->
  Gate.clickConfirm g = (Gate.setModalDisplay "none" g, invoked onConfirm).
Proof.
  intros (_ & (n & Hn & Hls) & _). unfold Gate.clickConfirm, Gate.click.
  rewrite Hn, Hls. cbn. rewrite app_nil_r.
  destruct g as [[] ? ? ? ?]; reflexivity.
Qed.

Lemma clickCancel_armed onConfirm g :
  armed onConfirm g ->
  Gate.clickCancel g = (Gate.setModalDisplay "none" g, []).
Proof.
  intros (_ & _ & (m & Hm & Hls)). unfold Gate.clickCancel, Gate.click.
  rewrite Hm, Hls. cbn. destruct g as [[] ? ? ? ?]; reflexivity.
Qed.

Lemma step_complete e g :
  Gate.complete g = true -> Gate.complete (fst (Gate.step e g)) = true.
Proof.
  intros Hc. destruct e as [message onConfirm| |]; cbn [Gate.step fst].
  - apply (showNandWarning_armed g message onConfirm Hc).
  - destruct (Gate.shown g); [|exact Hc]. unfold Gate.clickConfirm.
    destruct (Gate.confirmButton g) as [n|]; [|exact Hc].
    destruct (click_frame n g) as [-> | ->];
      [|rewrite setModalDisplay_complete]; exact Hc.
  - destruct (Gate.shown g); [|exact Hc]. unfold Gate.clickCancel.
    destruct (Gate.cancelButton g) as [n|]; [|exact Hc].
    destruct (click_frame n g) as [-> | ->];
      [|rewrite setModalDisplay_complete]; exact Hc.
Qed.

Lemma run_complete es : forall g,
  Gate.complete g = true -> Gate.complete (fst (Gate.run es g)) = true.
Proof.
  induction es as [|e es IH]; intros g Hc; cbn [Gate.run]; [exact Hc|].
  pose proof (step_complete e g Hc) as Hs.
  destruct (Gate.step e g) as [g1 cbs1]. cbn [fst] in Hs.
  specialize (IH g1 Hs). destruct (Gate.run es g1) as [g2 cbs2]. exact IH.
Qed.

Lemma step_armed onConfirm e g :
  armed onConfirm g -> Gate.isRequest e = false ->
  armed onConfirm (fst (Gate.step e g)).
Proof.
  intros Ha He. destruct e as [message cb| |]; [discriminate| |];
    cbn [Gate.step]; destruct (Gate.shown g); try exact Ha.
  - rewrite (clickConfirm_armed onConfirm g Ha). apply setModalDisplay_armed, Ha.
  - rewrite (clickCancel_armed onConfirm g Ha). apply setModalDisplay_armed, Ha.
Qed.

Lemma run_armed onConfirm es : forall g,
  armed onConfirm g -> forallb (fun e => negb (Gate.isRequest e)) es = true ->
  armed onConfirm (fst (Gate.run es g)).
Proof.
  induction es as [|e es IH]; intros g Ha Hes; cbn [Gate.run]; [exact Ha|].
  cbn [forallb] in Hes. apply andb_true_iff in Hes as [He Hes].
  apply negb_true_iff in He.
  pose proof (step_armed onConfirm e g Ha He) as Hs.
  destruct (Gate.step e g) as [g1 cbs1]. cbn [fst] in Hs.
  specialize (IH g1 Hs Hes). destruct (Gate.run es g1) as [g2 cbs2]. exact IH.
Qed.

Lemma run_app es1 es2 g :
  fst (Gate.run (es1 ++ es2) g) = fst (Gate.run es2 (fst (Gate.run es1 g))).
Proof.
  revert g. induction es1 as [|e es1 IH]; intros g; cbn [app Gate.run fst];
    [reflexivity|].
  destruct (Gate.step e g) as [g1 cbs1]. specialize (IH g1).
  destruct (Gate.run (es1 ++ es2) g1) as [g2 cbs2].
  destruct (Gate.run es1 g1) as [g3 cbs3]. exact IH.
Qed.

End GateProperties.

Section LatestRequest.

Context {Cb : Type}.

(** C10. Each call of [showNandWarning] on a complete page puts two new
    nodes in the place of the confirm and cancel buttons, each with only
    the listener of this call, and leaves the earlier nodes and their
    listeners out of the document. Hence after any sequence of requests
    and clicks, a click on the confirm button invokes the callback of the
    most recent request, once, and nothing else: no callback of an
    earlier request. *)
Theorem confirm_invokes_latest_request_only
    (g : Gate.t Cb) (before after : list (Gate.Event Cb))
    (message : string) (onConfirm : option Cb) :
  Gate.complete g = true ->
  forallb (fun e => negb (Gate.isRequest e)) after = true ->
  let requested := fst (Gate.run (before ++ [Gate.Request message onConfirm]) g) in
  let current := fst (Gate.run after requested) in
  (exists old,
     Gate.nodes requested =
       old ++ [[Gate.ConfirmListener onConfirm]; [Gate.CancelListener]] /\
     Gate.confirmButton requested = Some (length old) /\
     Gate.cancelButton requested = Some (S (length old))) /\
  snd (Gate.clickConfirm current) = invoked onConfirm /\
  snd (Gate.clickCancel current) = [].
Proof.
  intros Hc Hafter requested current.
  pose proof (run_complete before g Hc) as Hbefore.
  assert (Hreq : requested =
            fst (Gate.showNandWarning message onConfirm (fst (Gate.run before g)))).
  { subst requested. rewrite run_app. cbn [Gate.run Gate.step fst].
    destruct (Gate.showNandWarning _ _ _); reflexivity. }
  split.
  - exists (Gate.nodes (fst (Gate.run before g))).
    rewrite Hreq, showNandWarning_complete by exact Hbefore.
    repeat split; reflexivity.
  - assert (Ha : armed onConfirm current).
    { subst current. apply run_armed; [|exact Hafter].
      rewrite Hreq. apply showNandWarning_armed, Hbefore. }
    rewrite (clickConfirm_armed onConfirm current Ha),
      (clickCancel_armed onConfirm current Ha). split; reflexivity.
Qed.

End LatestRequest.

Lemma confirm_invokes_latest_request_only_witness :
  Gate.complete staleGate = true /\
  forallb (fun e : Gate.Event nat => negb (Gate.isRequest e))
    [Gate.UserCancel; Gate.UserConfirm] = true /\
  snd (Gate.clickConfirm
         (fst (Gate.run [Gate.UserCancel; Gate.UserConfirm]
                 (fst (Gate.run
                         ([Gate.Request "first" (Some 1%nat); Gate.UserCancel] ++
                          [Gate.Request "second" (Some 2%nat)])
                         staleGate))))) =
    [2%nat].
Proof.
  split; [reflexivity|]. split; [reflexivity|].
  apply (confirm_invokes_latest_request_only staleGate
           [Gate.Request "first" (Some 1%nat); Gate.UserCancel]
           [Gate.UserCancel; Gate.UserConfirm] "second" (Some 2%nat));
    reflexivity.
Defined.

(** ** Requests, cancellation and installation on the page *)

Lemma onInstallClick_request p f t :
  Gate.complete (gate p) = true ->
  currentFile p = Some f -> currentFileType p = Some t ->
  step ClickInstall p =
    setGate (fst (Gate.showNandWarning (installMessage f) (Some InstallCurrent)
                    (gate p))) p.
Proof.
  intros _ Hf Ht. cbn [step]. unfold onInstallClick. rewrite Hf, Ht. reflexivity.
Qed.

Lemma gate_setGate g p : gate (setGate g p) = g.
Proof. reflexivity. Qed.

Lemma request_shown (g : Gate.t Action) message onConfirm :
  Gate.complete g = true ->
  Gate.shown (fst (Gate.showNandWarning message onConfirm g)) = true.
Proof.
  intros Hc. rewrite showNandWarning_complete by exact Hc. reflexivity.
Qed.

Lemma hidden_not_shown (g : Gate.t Action) :
  Gate.shown (Gate.setModalDisplay "none" g) = false.
Proof. destruct g as [[] ? ? ? ?]; reflexivity. Qed.

Lemma deliverAll_modal_hidden clicks : forall p,
  Gate.shown (gate p) = false -> forallb isModalClick clicks = true ->
  deliverAll clicks p = p.
Proof.
  induction clicks as [|e clicks IH]; intros p Hs Hcl; [reflexivity|].
  cbn [forallb] in Hcl. apply andb_true_iff in Hcl as [He Hcl].
  unfold deliverAll. cbn [fold_left]. fold (deliverAll clicks (deliver e p)).
  assert (Hd : deliver e p = p).
  { unfold deliver. destruct e; try discriminate; cbn [enabled]; rewrite Hs;
      reflexivity. }
  rewrite Hd. apply IH; assumption.
Qed.

(** C9. A request that awaits confirmation can be cancelled, and the cancel
    click only hides the modal: the file system, the progress events, the
    timers, the status messages and the cookie are as before the request, so
    the installation callback has not run; and while the modal stays hidden
    no click on its buttons can be delivered, so the callback of the
    cancelled request is not invoked afterwards either. *)
Theorem cancel_discards_request (p : Page) (f : File.t) (t : FileType) :
  Gate.complete (gate p) = true ->
  currentFile p = Some f -> currentFileType p = Some t ->
  let awaiting := step ClickInstall p in
  let cancelled := step ClickCancel awaiting in
  enabled ClickCancel awaiting = true /\
  cancelled = setGate (Gate.setModalDisplay "none" (gate awaiting)) awaiting /\
  moduleFS cancelled = moduleFS p /\
  progressLog cancelled = progressLog p /\
  intervals cancelled = intervals p /\
  statusLog cancelled = statusLog p /\
  lastWadDolInstall cancelled = lastWadDolInstall p /\
  (forall clicks, forallb isModalClick clicks = true ->
     deliverAll clicks cancelled = cancelled).
Proof.
  intros Hc Hf Ht awaiting cancelled.
  assert (Haw : awaiting =
            setGate (fst (Gate.showNandWarning (installMessage f)
                            (Some InstallCurrent) (gate p))) p)
    by (apply onInstallClick_request with (t := t); assumption).
  assert (Harmed : armed (Some InstallCurrent) (gate awaiting))
    by (rewrite Haw, gate_setGate; apply showNandWarning_armed, Hc).
  assert (Hcancel : cancelled =
            setGate (Gate.setModalDisplay "none" (gate awaiting)) awaiting).
  { subst cancelled. cbn [step]. unfold onCancelClick.
    rewrite (clickCancel_armed _ _ Harmed). reflexivity. }
  split.
  { cbn [enabled]. rewrite Haw, gate_setGate. apply request_shown, Hc. }
  split; [exact Hcancel|].
  rewrite Hcancel, Haw.
  repeat (split; [reflexivity|]).
  intros clicks Hcl. apply deliverAll_modal_hidden; [|exact Hcl].
  cbn [gate setGate]. apply hidden_not_shown.
Qed.

Lemma cancel_discards_request_witness :
  let loaded := run [ChangeFile gameWad; ReaderLoaded gameWad (zeros 64)] initialPage in
  Gate.complete (gate loaded) = true /\
  currentFile loaded = Some gameWad /\ currentFileType loaded = Some WAD /\
  intervals (step ClickCancel (step ClickInstall loaded)) = intervals loaded /\
  deliverAll [ClickConfirm; ClickCancel; ClickConfirm]
    (step ClickCancel (step ClickInstall loaded)) =
    step ClickCancel (step ClickInstall loaded).
Proof.
  intros loaded.
  pose proof (cancel_discards_request loaded gameWad WAD
                eq_refl eq_refl eq_refl) as H.
  cbv zeta in H. destruct H as (_ & _ & _ & _ & Hint & _ & _ & Hclicks).
  split; [reflexivity|]. split; [reflexivity|]. split; [reflexivity|].
  split; [exact Hint|]. apply Hclicks. reflexivity.
Defined.

Lemma onConfirmClick_armed p :
  armed (Some InstallCurrent) (gate p) ->
  step ClickConfirm p =
    performNandInstallation (currentFile p) (currentFileType p)
      (setGate (Gate.setModalDisplay "none" (gate p)) p).
Proof.
  intros Ha. cbn [step]. unfold onConfirmClick.
  rewrite (clickConfirm_armed _ _ Ha). reflexivity.
Qed.

(** When a timer's progress reaches 100 its interval is cleared: the
    operation has succeeded and no longer runs. *)
Lemma tick_finishes t p :
  100 <= progress t + 10 ->
  Forall (fun t' => timerId t' ≠ timerId t) (intervals (tick t p)).
Proof.
  intros Hdone. unfold tick. destruct (Z.leb_spec 100 (progress t + 10)); [|lia].
  assert (Hcleared : forall q,
            Forall (fun t' => timerId t' ≠ timerId t)
              (intervals (clearInterval (timerId t) q))).
  { intros q. cbn. apply Forall_forall. intros t' Hin.
    apply list_elem_of_filter in Hin. apply Hin. }
  destruct (file t); [|apply Hcleared].
  cbn [intervals setHideTimeouts setLastWadDolInstall showStatus setStatusLog
       setStatus]. apply Hcleared.
Qed.

(** C8, as the code has it. A request is never refused: on a page with a
    file loaded, the install click opens the modal and the confirm click
    starts a new installation timer at progress 0, added to whatever timers
    are already running, also for the same file; there is no
    operation-in-progress failure. In particular a request made after an
    earlier installation has finished succeeds. *)
Theorem request_never_refused (p : Page) (f : File.t) (t : FileType) :
  Gate.complete (gate p) = true ->
  currentFile p = Some f -> currentFileType p = Some t ->
  let awaiting := step ClickInstall p in
  let started := step ClickConfirm awaiting in
  enabled ClickConfirm awaiting = true /\
  intervals started =
    intervals p ++ [mkInterval (nextTimer p) (Some f) (Some t) 0] /\
  runningOn (File.name f) started =
    runningOn (File.name f) p ++ [mkInterval (nextTimer p) (Some f) (Some t) 0] /\
  statusLog started =
    statusLog p ++ [("info", "Installing " +:+ fileTypeName t +:+ " file to virtual NAND...")].
Proof.
  intros Hc Hf Ht awaiting started.
  assert (Haw : awaiting =
            setGate (fst (Gate.showNandWarning (installMessage f)
                            (Some InstallCurrent) (gate p))) p)
    by (apply onInstallClick_request with (t := t); assumption).
  assert (Harmed : armed (Some InstallCurrent) (gate awaiting))
    by (rewrite Haw, gate_setGate; apply showNandWarning_armed, Hc).
  assert (Hst : intervals started =
            intervals p ++ [mkInterval (nextTimer p) (Some f) (Some t) 0]).
  { subst started. rewrite (onConfirmClick_armed _ Harmed), Haw.
    cbn. rewrite Hf, Ht. reflexivity. }
  split.
  { cbn [enabled]. rewrite Haw, gate_setGate. apply request_shown, Hc. }
  split; [exact Hst|]. split.
  - unfold runningOn. rewrite Hst, filter_app. f_equal.
    cbn. rewrite decide_True by reflexivity. reflexivity.
  - subst started. rewrite (onConfirmClick_armed _ Harmed), Haw.
    cbn. rewrite Ht. reflexivity.
Qed.

Lemma request_never_refused_witness :
  let running := run [ChangeFile gameWad; ReaderLoaded gameWad (zeros 64);
                      ClickInstall; ClickConfirm; Tick 0] initialPage in
  Gate.complete (gate running) = true /\
  currentFile running = Some gameWad /\ currentFileType running = Some WAD /\
  intervals (step ClickConfirm (step ClickInstall running)) =
    [mkInterval 0 (Some gameWad) (Some WAD) 10;
     mkInterval 1 (Some gameWad) (Some WAD) 0].
Proof.
  intros running.
  pose proof (request_never_refused running gameWad WAD
                eq_refl eq_refl eq_refl) as H.
  cbv zeta in H. destruct H as (_ & Hint & _).
  split; [reflexivity|]. split; [reflexivity|]. split; [reflexivity|].
  rewrite Hint. reflexivity.
Defined.

(** C8, as stated, fails: with the first installation of [game.wad] still
    running at 10 percent, a second request for the same file is accepted
    and both run; every event of the run can be delivered. *)
Lemma two_installations_run_together :
  let clicks := [ChangeFile gameWad; ReaderLoaded gameWad (zeros 64);
                 ClickInstall; ClickConfirm; Tick 0;
                 ClickInstall; ClickConfirm] in
  feasible clicks initialPage = true /\
  map progress (runningOn "game.wad" (run clicks initialPage)) = [10; 0].
Proof. split; reflexivity. Qed.

(** ** Paths written by the loaders *)

Lemma writeFile_rooted path data fs :
  beginsWithRoot path = true -> writeFile path data fs = Staged (<[path := data]> fs).
Proof. intros H. unfold writeFile. rewrite H. reflexivity. Qed.

Lemma writeFile_refused path data fs :
  beginsWithRoot path = false -> writeFile path data fs = InvalidPath.
Proof. intros H. unfold writeFile. rewrite H. reflexivity. Qed.

Lemma allBeginWithRoot_insert path data fs :
  beginsWithRoot path = true -> allBeginWithRoot fs ->
  allBeginWithRoot (<[path := data]> fs).
Proof.
  intros Hp Hfs path' Hsome.
  destruct (decide (path = path')) as [<-|Hne]; [exact Hp|].
  rewrite lookup_insert_ne in Hsome by exact Hne. apply Hfs, Hsome.
Qed.

Lemma allBeginWithRoot_staged path data fs :
  allBeginWithRoot fs -> allBeginWithRoot (staged path data fs).
Proof.
  intros Hfs. unfold staged, writeFile.
  destruct (beginsWithRoot path) eqn:Hp; [|exact Hfs].
  apply allBeginWithRoot_insert; assumption.
Qed.

Lemma allBeginWithRoot_stagedAll ws fs :
  allBeginWithRoot fs -> allBeginWithRoot (stagedAll ws fs).
Proof.
  revert fs. induction ws as [|w ws IH]; intros fs Hfs; [exact Hfs|].
  unfold stagedAll. cbn [fold_left]. apply IH, allBeginWithRoot_staged, Hfs.
Qed.

Lemma allBeginWithRoot_empty : allBeginWithRoot ∅.
Proof. intros path [x Hx]. rewrite lookup_empty in Hx. discriminate. Qed.

Lemma roms_path_begins_with_root filename :
  beginsWithRoot ("/roms/" +:+ filename) = true.
Proof. destruct filename; reflexivity. Qed.

Lemma tmp_path_begins_with_root filename :
  beginsWithRoot ("/tmp/" +:+ filename) = true.
Proof. destruct filename; reflexivity. Qed.

Lemma loadROMIntoRetroArch_writes filename data p fs :
  moduleFS p = Some (Some fs) ->
  loadROMIntoRetroArch filename data p =
    setModuleFS (Some (Some (<["/tmp/" +:+ filename := data]> fs))) p.
Proof.
  intros Hfs. unfold loadROMIntoRetroArch. rewrite Hfs.
  rewrite writeFile_rooted by apply tmp_path_begins_with_root. reflexivity.
Qed.

Lemma bootROM_writes filename data l m fs :
  Dolphin.isReady l = true -> Dolphin.module l = Some m -> Dolphin.FS m = Some fs ->
  Dolphin.files (Dolphin.after (Dolphin.bootROM filename data l)) =
    <["/roms/" +:+ filename := data]> fs /\
  In (Dolphin.WriteFile ("/roms/" +:+ filename) data)
    (Dolphin.made (Dolphin.bootROM filename data l)) /\
  Dolphin.returned (Dolphin.bootROM filename data l) <> Throws TypeError /\
  Dolphin.returned (Dolphin.bootROM filename data l) <> Throws (Error Dolphin.NOT_READY) /\
  Dolphin.returned (Dolphin.bootROM filename data l) <> Throws (Error Dolphin.INVALID_PATH).
Proof.
  intros Hr Hm Hfs. unfold Dolphin.bootROM. rewrite Hr, Hm, Hfs. cbn [negb].
  rewrite writeFile_rooted by apply roms_path_begins_with_root.
  destruct (Dolphin.dolphinInstance l) as [[bootFile|]|];
    [destruct (bootFile _)| |]; try destruct (Dolphin.ccall m);
    cbn [Dolphin.after Dolphin.made Dolphin.returned Dolphin.files Dolphin.module
         Dolphin.FS default];
    repeat apply conj; first [reflexivity | discriminate | left; reflexivity].
Qed.

Lemma bootROM_files_frame filename data l :
  Dolphin.files (Dolphin.after (Dolphin.bootROM filename data l)) = Dolphin.files l \/
  Dolphin.files (Dolphin.after (Dolphin.bootROM filename data l)) =
    <["/roms/" +:+ filename := data]> (Dolphin.files l).
Proof.
  unfold Dolphin.bootROM.
  destruct (Dolphin.isReady l) eqn:Hr; [|left; reflexivity]. cbn [negb].
  destruct (Dolphin.module l) as [m|] eqn:Hm; [|left; reflexivity].
  destruct (Dolphin.FS m) as [fs|] eqn:Hfs; [|left; reflexivity].
  rewrite writeFile_rooted by apply roms_path_begins_with_root.
  right. unfold Dolphin.files at 2. rewrite Hm, Hfs.
  destruct (Dolphin.dolphinInstance l) as [[bootFile|]|];
    [destruct (bootFile _)| |]; try destruct (Dolphin.ccall m); reflexivity.
Qed.

Lemma step_pageFiles e p :
  pageFiles (step e p) = pageFiles p \/
  exists filename data fs,
    e = LoadRom filename data /\ moduleFS p = Some (Some fs) /\
    pageFiles (step e p) = <["/tmp/" +:+ filename := data]> fs.
Proof.
  destruct e as [f|f b| | | |id| |filename data|lc v|]; cbn [step].
  - left. reflexivity.
  - left. unfold onLoad.
    destruct (result (detectFileType (File.name f) b)) as [[[]|]| |]; reflexivity.
  - left. unfold onInstallClick.
    destruct (currentFile p), (currentFileType p); reflexivity.
  - left. unfold onConfirmClick.
    destruct (Gate.clickConfirm (gate p)) as [g cbs].
    assert (H : forall q, pageFiles (fold_left (fun q cb => runAction cb q) cbs q)
                          = pageFiles q).
    { induction cbs as [|[] cbs IH]; intros q; cbn [fold_left]; [reflexivity|].
      rewrite IH. reflexivity. }
    rewrite H. reflexivity.
  - left. unfold onCancelClick.
    destruct (Gate.clickCancel (gate p)) as [g cbs].
    assert (H : forall q, pageFiles (fold_left (fun q cb => runAction cb q) cbs q)
                          = pageFiles q).
    { induction cbs as [|[] cbs IH]; intros q; cbn [fold_left]; [reflexivity|].
      rewrite IH. reflexivity. }
    rewrite H. reflexivity.
  - left. unfold onTick. destruct (List.find _ _) as [t|]; [|reflexivity].
    unfold tick. destruct (100 <=? progress t + 10); [|reflexivity].
    destruct (file t); reflexivity.
  - left. unfold onHideTimeout. destruct (hideTimeouts p); reflexivity.
  - destruct (moduleFS p) as [[fs|]|] eqn:E.
    + right. exists filename, data, fs.
      rewrite (loadROMIntoRetroArch_writes filename data p fs E).
      repeat split; reflexivity.
    + left. unfold loadROMIntoRetroArch. rewrite E. reflexivity.
    + left. unfold loadROMIntoRetroArch. rewrite E. reflexivity.
  - left. unfold onProgress. destruct lc; reflexivity.
  - left. reflexivity.
Qed.

Lemma run_allBeginWithRoot es p :
  allBeginWithRoot (pageFiles p) -> allBeginWithRoot (pageFiles (run es p)).
Proof.
  revert p. induction es as [|e es IH]; intros p Hall; [exact Hall|].
  unfold run. cbn [fold_left]. apply IH.
  destruct (step_pageFiles e p) as [->|(filename & data & fs & _ & Hfs & ->)];
    [exact Hall|].
  apply allBeginWithRoot_insert; [apply tmp_path_begins_with_root|].
  unfold pageFiles in Hall. rewrite Hfs in Hall. exact Hall.
Qed.

(** C7. Every path of the staging namespace begins with one of the fixed
    roots [/roms], [/saves], [/states], [/user], [/tmp] (the directories of
    [setupFileSystem] and the RetroArch loader's [/tmp]), and staging under
    a path that does not begin with one of them fails with [InvalidPath],
    the namespace staying as it was. Whatever writes are attempted on an
    empty namespace, all its paths begin with a root. The two loaders of the
    code never meet the refusal: they write to their root followed by the
    file name, ["/roms/"] in [bootROM] and ["/tmp/"] in
    [loadROMIntoRetroArch], so a file system whose paths all begin with a
    root keeps that property under [bootROM] and under every run of the
    page. *)
Theorem staging_stays_under_the_roots :
  ROOTS = Dolphin.dirs ++ ["/tmp"] /\
  (forall path data fs,
     beginsWithRoot path = false ->
     writeFile path data fs = InvalidPath /\ staged path data fs = fs) /\
  (forall path data fs,
     beginsWithRoot path = true ->
     writeFile path data fs = Staged (<[path := data]> fs)) /\
  (forall ws, allBeginWithRoot (stagedAll ws ∅)) /\
  (forall filename data l m fs,
     Dolphin.isReady l = true -> Dolphin.module l = Some m ->
     Dolphin.FS m = Some fs ->
     Dolphin.files (Dolphin.after (Dolphin.bootROM filename data l)) =
       <["/roms/" +:+ filename := data]> fs /\
     Dolphin.returned (Dolphin.bootROM filename data l) <>
       Throws (Error Dolphin.INVALID_PATH)) /\
  (forall filename data p fs,
     moduleFS p = Some (Some fs) ->
     pageFiles (step (LoadRom filename data) p) =
       <["/tmp/" +:+ filename := data]> fs) /\
  (forall filename data l,
     allBeginWithRoot (Dolphin.files l) ->
     allBeginWithRoot (Dolphin.files (Dolphin.after (Dolphin.bootROM filename data l)))) /\
  (forall es p,
     allBeginWithRoot (pageFiles p) -> allBeginWithRoot (pageFiles (run es p))).
Proof.
  repeat apply conj.
  - reflexivity.
  - intros path data fs Hp. unfold staged.
    rewrite (writeFile_refused path data fs Hp). split; reflexivity.
  - intros path data fs Hp. apply writeFile_rooted, Hp.
  - intros ws. apply allBeginWithRoot_stagedAll, allBeginWithRoot_empty.
  - intros filename data l m fs Hr Hm Hfs.
    destruct (bootROM_writes filename data l m fs Hr Hm Hfs) as (H1 & _ & _ & _ & H5).
    split; assumption.
  - intros filename data p fs Hfs. cbn [step].
    rewrite (loadROMIntoRetroArch_writes filename data p fs Hfs). reflexivity.
  - intros filename data l Hall.
    destruct (bootROM_files_frame filename data l) as [->| ->]; [exact Hall|].
    apply allBeginWithRoot_insert; [apply roms_path_begins_with_root|exact Hall].
  - intros es p. apply run_allBeginWithRoot.
Qed.

Lemma staging_stays_under_the_roots_witness :
  beginsWithRoot "/x" = false /\
  writeFile "/x" [x01] ∅ = InvalidPath /\
  Dolphin.isReady readyLoader = true /\
  Dolphin.files (Dolphin.after (Dolphin.bootROM "game.iso" [x01] readyLoader)) =
    <["/roms/game.iso" := [x01]]> ∅ /\
  pageFiles (step (LoadRom "game.iso" [x01]) initialPage) =
    <["/tmp/game.iso" := [x01]]> ∅ /\
  allBeginWithRoot (pageFiles (run [LoadRom "game.iso" [x01]] initialPage)).
Proof.
  pose proof staging_stays_under_the_roots
    as (_ & Hrefused & _ & _ & Hboot & Hload & _ & Hrun).
  split; [reflexivity|]. split; [apply (Hrefused "/x" [x01] ∅ eq_refl)|].
  split; [reflexivity|]. split.
  - apply (Hboot "game.iso" [x01] readyLoader
             (Dolphin.mkModule (Some ∅) true) ∅ eq_refl eq_refl eq_refl).
  - split; [apply (Hload "game.iso" [x01] initialPage ∅ eq_refl)|].
    apply (Hrun [LoadRom "game.iso" [x01]] initialPage).
    exact allBeginWithRoot_empty.
Defined.

(** ** Worked runs *)

(** The three sizes the specification tests: the standard size, 2 MiB over,
    11 MiB over. *)
Example standard_size_accepted :
  validateBackupSize pretty (512 * 1024 * 1024) = SizeCheck.mk true false "".
Proof. reflexivity. Qed.

Example two_mib_over_warns :
  SizeCheck.isValid (validateBackupSize pretty (512 * 1024 * 1024 + 2 * 1024 * 1024)) = true /\
  SizeCheck.isWarning (validateBackupSize pretty (512 * 1024 * 1024 + 2 * 1024 * 1024)) = true.
Proof. split; reflexivity. Qed.

Example eleven_mib_over_rejected :
  SizeCheck.isValid (validateBackupSize pretty (512 * 1024 * 1024 + 11 * 1024 * 1024)) = false.
Proof. reflexivity. Qed.

(** A zero-filled upload of 600 MiB is refused on its size alone, unread. *)
Example oversized_backup_refused :
  exists message,
    importBackup pretty (zeros (600 * 1024 * 1024)) =
      ([], Returns (mkImportResult [("error", message)] [] false)).
Proof. eexists. reflexivity. Qed.

(** The scan called on its own, outside the card, on a buffer the size
    check would have refused. One zero byte: the scan asks for the four
    bytes at offset 0 and the read raises. Six zero bytes: the first word is
    read, the read of the second, partial word raises. *)
Example one_zero_byte_raises :
  performBackupValidation (zeros 1) = ([], Throws RangeError).
Proof. reflexivity. Qed.

Example six_zero_bytes_raise :
  performBackupValidation (zeros 6) = ([readLE 0], Throws RangeError).
Proof. reflexivity. Qed.

(** An installation runs to its end in ten ticks: the timer is cleared, the
    success status shown, the cookie written, and the hiding of the progress
    bar scheduled. *)
Example installation_completes :
  let done := run ([ChangeFile gameWad; ReaderLoaded gameWad (zeros 64);
                    ClickInstall; ClickConfirm] ++ repeat (Tick 0) 10)
                initialPage in
  intervals done = [] /\
  progressLog done = [0; 100; 10; 20; 30; 40; 50; 60; 70; 80; 90; 100] /\
  lastWadDolInstall done = Some ("game.wad", "WAD") /\
  hideTimeouts done = 1%nat /\
  textContent (status done) = installedMessage gameWad (Some WAD).
Proof. repeat split; reflexivity. Qed.

(** * Further properties of the code *)

(** ** The BootMii validation and upload path *)

(** Six zero bytes are such a buffer. *)
Lemma performBackupValidation_raises_iff_witness :
  0 < len (zeros 6) /\
  result (performBackupValidation (zeros 6)) = Throws RangeError.
Proof.
  split; [reflexivity|].
  apply (proj2 (proj1 (performBackupValidation_raises_iff (zeros 6) eq_refl))).
  split; [reflexivity|]. split; [discriminate|].
  intros k Hk. reflexivity.
Defined.

(** X2. An upload through the BootMii card never raises and ends in one of
    two ways. A file more than 10 MiB away from 512 MiB is refused on its
    size, unread, with the one error naming both sizes, and no restore is
    offered. Any other file is read and always accepted: the restore button
    is offered, the last status is the success message, preceded by the size
    note exactly when the size is more than 1 MiB off, and the blank-image
    warning is listed exactly when the first 1024 bytes are zero. The
    "file is empty" error of the validator is never shown. *)
Theorem importBackup_outcomes (formatBytes : Z -> string) (b : ArrayBuffer) :
  let delta := Z.abs (len b - 512 * 1024 * 1024) in
  (10 * (1024 * 1024) < delta ->
     importBackup formatBytes b =
       ([], Returns (mkImportResult
                       [("error", sizeErrorMessage formatBytes (len b))] [] false))) /\
  (delta <= 10 * (1024 * 1024) ->
     exists listed,
       result (importBackup formatBytes b) =
         Returns (mkImportResult
                    ((if 1024 * 1024 <? delta
                      then [("info", sizeWarningMessage formatBytes (len b))]
                      else []) ++ [("success", BACKUP_LOADED_MESSAGE)])
                    listed true) /\
       ((forall j, 0 <= j < 1024 -> byteAt b j = x00) ->
          listed = [EMPTY_1KB_WARNING]) /\
       (~ (forall j, 0 <= j < 1024 -> byteAt b j = x00) -> listed = [])).
Proof.
  intros delta. subst delta. split.
  - intros Hfar. unfold importBackup, validateBackupSize,
      BOOTMII_STANDARD_SIZE, SIZE_TOLERANCE.
    destruct (Z.ltb_spec (1024 * 1024 * 10) (Z.abs (len b - 512 * 1024 * 1024)));
      [reflexivity|lia].
  - intros Hnear.
    assert (Hlen : 1024 <= len b) by lia.
    pose proof (hasDataIn_false b 256 0) as Hfalse.
    change (Z.of_nat 256) with 256 in Hfalse.
    rewrite words_zero_iff_bytes in Hfalse.
    unfold importBackup, validateBackupSize, BOOTMII_STANDARD_SIZE, SIZE_TOLERANCE.
    destruct (Z.ltb_spec (1024 * 1024 * 10) (Z.abs (len b - 512 * 1024 * 1024)));
      [lia|]. cbn [negb SizeCheck.isValid SizeCheck.isWarning SizeCheck.message].
    rewrite performBackupValidation_outcome by lia. cbv zeta.
    rewrite Z.min_l by lia. change (Z.to_nat (1024 / 4)) with 256%nat.
    change (4 * Z.of_nat 256 <? 1024) with false. cbv iota.
    unfold bind, ret, result.
    destruct (hasDataIn b 256 0) eqn:Hdata;
      destruct (Z.ltb_spec (1024 * 1024) (Z.abs (len b - 512 * 1024 * 1024)));
      cbn [SizeCheck.isValid SizeCheck.isWarning SizeCheck.message
           Validation.isValid Validation.warnings negb snd];
      eexists; (split; [reflexivity|]); split;
      try (intros Hz; apply Hfalse in Hz; discriminate);
      try (intros _; reflexivity);
      try (intros Hnz; exfalso; apply Hnz, Hfalse; reflexivity).
Qed.

Lemma importBackup_outcomes_witness :
  10 * (1024 * 1024) < Z.abs (len (zeros 629145600) - 512 * 1024 * 1024) /\
  importBackup pretty (zeros 629145600) =
    ([], Returns (mkImportResult
                    [("error", sizeErrorMessage pretty (len (zeros 629145600)))]
                    [] false)).
Proof.
  split; [reflexivity|].
  apply (proj1 (importBackup_outcomes pretty (zeros 629145600))). reflexivity.
Defined.

(** ** File names and uploads on the WAD/DOL card *)

Lemma split_app_sep sep a b :
  split sep (a +:+ String sep b) = split sep a ++ split sep b.
Proof.
  induction a as [|c a IH]; simpl.
  - rewrite Ascii.eqb_refl. reflexivity.
  - rewrite IH. destruct (Ascii.eqb c sep); [reflexivity|].
    destruct (split sep a) as [|piece pieces] eqn:E; [|reflexivity].
    destruct (split_not_nil _ _ E).
Qed.

Lemma split_noDot s : noDot s = true -> split "." s = [s].
Proof.
  induction s as [|c s IH]; cbn [noDot split]; [reflexivity|].
  intros H. apply andb_true_iff in H as [Hc Hs].
  apply negb_true_iff in Hc. rewrite Hc, (IH Hs). reflexivity.
Qed.

(** X3. Only what follows the last dot of the file name counts: a name
    [stem.ext], where [ext] has no dot, is classified exactly as the bare
    name [ext] is, whatever the stem (which may itself contain dots). So
    [archive.wad.txt] is not a WAD, [a.b.wad] is, and so is a file called
    just [wad]. *)
Theorem only_last_extension_counts (stem ext : string) (b : ArrayBuffer) :
  noDot ext = true ->
  detectFileType (stem +:+ "." +:+ ext) b = detectFileType ext b /\
  extensionOf (stem +:+ "." +:+ ext) = ext.
Proof.
  intros Hext.
  assert (Hx : extensionOf (stem +:+ "." +:+ ext) = ext).
  { unfold extensionOf, pop. change ("." +:+ ext) with (String "." ext).
    rewrite split_app_sep, (split_noDot ext Hext), last_snoc. reflexivity. }
  assert (Hy : extensionOf ext = ext).
  { unfold extensionOf, pop. rewrite (split_noDot ext Hext). reflexivity. }
  split; [|exact Hx].
  rewrite !detectFileType_eq. unfold classifyByExtension. rewrite Hx, Hy.
  reflexivity.
Qed.

Lemma only_last_extension_counts_witness :
  noDot "WAD" = true /\
  detectFileType ("my.game.v2" +:+ "." +:+ "WAD") (zeros 64) =
    detectFileType "WAD" (zeros 64).
Proof.
  split; [reflexivity|].
  apply (only_last_extension_counts "my.game.v2" "WAD" (zeros 64)). reflexivity.
Defined.

Lemma reportedPercents_app es es' :
  reportedPercents (es ++ es') = reportedPercents es ++ reportedPercents es'.
Proof. unfold reportedPercents. apply flat_map_app. Qed.

Lemma progress_frame reports : forall p,
  let q := run (progressEvents reports) p in
  currentFile q = currentFile p /\ currentFileType q = currentFileType p /\
  details q = details p /\ installDisplay q = installDisplay p /\
  infoDisplay q = infoDisplay p /\ progressDisplay q = progressDisplay p /\
  status q = status p /\
  progressLog q = progressLog p ++ reportedPercents (progressEvents reports).
Proof.
  induction reports as [|[lc v] reports IH]; intros p.
  - cbn. rewrite app_nil_r. repeat split; reflexivity.
  - cbv zeta. change (run (progressEvents ((lc, v) :: reports)) p)
      with (run (progressEvents reports) (onProgress lc v p)).
    destruct (IH (onProgress lc v p)) as (H1 & H2 & H3 & H4 & H5 & H6 & H7 & H8).
    cbv zeta in H1, H2, H3, H4, H5, H6, H7, H8.
    rewrite H1, H2, H3, H4, H5, H6, H7, H8.
    change (reportedPercents (progressEvents ((lc, v) :: reports)))
      with ((if lc then [v] else []) ++ reportedPercents (progressEvents reports)).
    unfold onProgress. destruct lc; cbn; rewrite <- ?app_assoc;
      repeat split; reflexivity.
Qed.

(** X4. One complete upload: the file is chosen, the read reports its
    progress any number of times, then it finishes. The file becomes the
    current file, its detected type the current type; the progress bar is
    set to 0, then to each percentage reported, then to 100, and hidden
    again. If the type was detected, the install button and the information
    box are displayed, the details give the file name, the type line and
    the buffer length, and the status is the success message; if not,
    button and box stay hidden, the details are untouched and the status
    is the invalid-type error. *)
Theorem upload_offers_install_iff_accepted
    (p : Page) (f : File.t) (b : ArrayBuffer) (reports : list (bool * Z)) :
  let q := run ([ChangeFile f] ++ progressEvents reports ++ [ReaderLoaded f b]) p in
  currentFile q = Some f /\
  currentFileType q = detected (File.name f) b /\
  progressLog q =
    progressLog p ++ [0] ++ reportedPercents (progressEvents reports) ++ [100] /\
  progressDisplay q = "none" /\
  match detected (File.name f) b with
  | Some t =>
      installDisplay q = "inline-block" /\ infoDisplay q = "block" /\
      details q = Some (mkDetails (File.name f) (typeLine t) (len b)) /\
      status q = mkStatus "status-message success" (loadedMessage t) "block"
  | None =>
      installDisplay q = "none" /\ infoDisplay q = "none" /\
      details q = details p /\
      status q = mkStatus "status-message error" INVALID_TYPE_MESSAGE "block"
  end.
Proof.
  intros q.
  set (reading := run (progressEvents reports) (onChange f p)).
  assert (Hq : q = onLoad f b reading).
  { subst q reading. unfold run. rewrite !fold_left_app. reflexivity. }
  destruct (progress_frame reports (onChange f p))
    as (H1 & H2 & H3 & H4 & H5 & H6 & H7 & H8).
  cbv zeta in H1, H2, H3, H4, H5, H6, H7, H8. fold reading in H1, H2, H3, H4, H5, H6, H7, H8.
  clearbody reading q. subst q. unfold onLoad, detected. rewrite detectFileType_eq.
  destruct (classifyByExtension (File.name f)) as [[]|]; cbn [minSize result snd];
    try destruct (len b <? _); cbn;
    rewrite ?H1, ?H2, ?H3, ?H4, ?H5, ?H6, ?H7, ?H8; cbn;
    rewrite <- ?app_assoc; repeat split; reflexivity.
Qed.

(** ** Installation timers *)

Lemma intervals_tick t p :
  intervals (tick t p) =
    let stored := map (fun t' => if decide (timerId t' = timerId t)
                                 then mkInterval (timerId t') (file t') (fileType t')
                                        (progress t + 10)
                                 else t') (intervals p) in
    if 100 <=? progress t + 10
    then filter (fun t' => timerId t' ≠ timerId t) stored else stored.
Proof.
  unfold tick. cbv zeta. destruct (100 <=? progress t + 10); [|reflexivity].
  destruct (file t); reflexivity.
Qed.

Lemma progressLog_tick t p :
  progressLog (tick t p) = progressLog p ++ [progress t + 10].
Proof.
  unfold tick. destruct (100 <=? progress t + 10); [|reflexivity].
  destruct (file t); reflexivity.
Qed.

Lemma nextTimer_tick t p : nextTimer (tick t p) = nextTimer p.
Proof.
  unfold tick. destruct (100 <=? progress t + 10); [|reflexivity].
  destruct (file t); reflexivity.
Qed.


Lemma onTick_found id p :
  (exists t, In t (intervals p) /\ timerId t = id /\ step (Tick id) p = tick t p) \/
  (Forall (fun t => timerId t ≠ id) (intervals p) /\ step (Tick id) p = p).
Proof.
  cbn [step]. unfold onTick.
  destruct (List.find _ (intervals p)) as [t|] eqn:E.
  - left. exists t. apply List.find_some in E as [Hin Hid].
    apply bool_decide_eq_true in Hid. auto.
  - right. split; [|reflexivity]. apply List.Forall_forall. intros t Hin Hid.
    pose proof (List.find_none _ _ E t Hin) as Hf. cbn beta in Hf.
    apply bool_decide_eq_false in Hf. contradiction.
Qed.

Lemma NoDup_map_filter {A B} (f : A -> B) (P : A -> Prop)
    `{forall x, Decision (P x)} (l : list A) :
  NoDup (map f l) -> NoDup (map f (filter P l)).
Proof.
  induction l as [|x l IH]; [intros _; constructor|].
  cbn [map]. intros Hnd. apply NoDup_cons in Hnd as [Hx Hl].
  rewrite filter_cons. destruct (decide (P x)); [|apply IH, Hl].
  cbn [map]. apply NoDup_cons. split; [|apply IH, Hl].
  intros Hin. apply Hx. apply list_elem_of_In in Hin.
  apply list_elem_of_In. apply in_map_iff in Hin as (y & Hy & Hin).
  apply in_map_iff. exists y. split; [exact Hy|].
  apply list_elem_of_In. apply list_elem_of_In in Hin.
  apply list_elem_of_filter in Hin. apply Hin.
Qed.

Lemma Forall_filter_keep {A} (Q : A -> Prop) (P : A -> Prop)
    `{forall x, Decision (P x)} (l : list A) :
  Forall Q l -> Forall Q (filter P l).
Proof.
  intros Hl. apply List.Forall_forall. intros x Hin.
  apply list_elem_of_In, list_elem_of_filter in Hin as [_ Hin].
  apply list_elem_of_In in Hin. revert x Hin. apply List.Forall_forall, Hl.
Qed.

Lemma timersSound_more r r' p : timersSound r p -> timersSound (r ++ r') p.
Proof.
  intros (Hnd & Hall & Hlog). split; [exact Hnd|]. split; [exact Hall|].
  eapply List.Forall_impl; [|exact Hlog]. cbn beta.
  intros x [Hx|Hx]; [left; exact Hx|right; apply in_or_app; left; exact Hx].
Qed.

Lemma updateProgress_sound r v p :
  0 <= v <= 100 \/ In v r -> timersSound r p -> timersSound r (updateProgress v p).
Proof.
  intros Hv (Hnd & Hall & Hlog). unfold timersSound. cbn.
  split; [exact Hnd|]. split; [exact Hall|].
  apply Forall_app. split; [exact Hlog|]. constructor; [exact Hv|constructor].
Qed.

Lemma performNandInstallation_sound r f t p :
  timersSound r p -> timersSound r (performNandInstallation f t p).
Proof.
  intros (Hnd & Hall & Hlog). unfold timersSound. cbn.
  split; [|split; [|exact Hlog]].
  - rewrite map_app. cbn [map timerId].
    apply NoDup_app. split; [exact Hnd|]. split; [|apply NoDup_singleton].
    intros x Hx Hx'. apply list_elem_of_singleton in Hx'. subst x.
    apply list_elem_of_In, in_map_iff in Hx as (y & Hy & Hin).
    rewrite List.Forall_forall in Hall. destruct (Hall y Hin) as [Hlt _]. lia.
  - apply Forall_app. split.
    + eapply List.Forall_impl; [|exact Hall]. cbn beta.
      intros y [Hlt Hk]. split; [lia|exact Hk].
    + constructor; [|constructor]. cbn. split; [lia|]. exists 0. lia.
Qed.

Lemma runActions_sound r cbs : forall p,
  timersSound r p -> timersSound r (fold_left (fun q cb => runAction cb q) cbs p).
Proof.
  induction cbs as [|[] cbs IH]; intros p Hp; cbn [fold_left]; [exact Hp|].
  apply IH. apply performNandInstallation_sound, Hp.
Qed.

Lemma tick_sound r t p :
  timersSound r p -> In t (intervals p) -> timersSound r (tick t p).
Proof.
  intros (Hnd & Hall & Hlog) Hin. unfold timersSound.
  rewrite intervals_tick, progressLog_tick, nextTimer_tick. cbv zeta.
  pose proof Hall as Hall'. rewrite List.Forall_forall in Hall'.
  destruct (Hall' t Hin) as (_ & k & Hk & Hprog).
  set (stored := map _ (intervals p)).
  assert (Hids : map timerId stored = map timerId (intervals p)).
  { subst stored. rewrite map_map. apply map_ext. intros t'.
    destruct (decide (timerId t' = timerId t)); reflexivity. }
  assert (Hlog' : Forall (fun x => 0 <= x <= 100 \/ In x r)
                    (progressLog p ++ [progress t + 10])).
  { apply Forall_app. split; [exact Hlog|]. constructor; [left; lia|constructor]. }
  destruct (Z.leb_spec 100 (progress t + 10)) as [Hdone|Hmore].
  - split; [apply NoDup_map_filter; rewrite Hids; exact Hnd|].
    split; [|exact Hlog'].
    apply List.Forall_forall. intros y Hy.
    apply list_elem_of_In, list_elem_of_filter in Hy as [Hne Hy].
    apply list_elem_of_In in Hy. subst stored.
    apply in_map_iff in Hy as (z & Hz & Hzin).
    destruct (decide (timerId z = timerId t)) as [He|_];
      [subst y; cbn in Hne; contradiction|].
    subst y. apply Hall', Hzin.
  - split; [rewrite Hids; exact Hnd|]. split; [|exact Hlog'].
    apply List.Forall_forall. intros y Hy. subst stored.
    apply in_map_iff in Hy as (z & Hz & Hzin).
    destruct (Hall' z Hzin) as [Hlt Hkz].
    destruct (decide (timerId z = timerId t)) as [He|_]; subst y;
      [|split; assumption].
    cbn. split; [exact Hlt|]. exists (k + 1). lia.
Qed.

Lemma step_sound r e p :
  timersSound r p -> timersSound (r ++ reportedPercents [e]) (step e p).
Proof.
  intros Hp.
  destruct e as [f|f b| | | |id| |filename data|lc v|];
    cbn [step reportedPercents flat_map app]; rewrite ?app_nil_r.
  - apply updateProgress_sound; [left; lia|exact Hp].
  - assert (Hp1 : timersSound r (updateProgress 100 p))
      by (apply updateProgress_sound; [left; lia|exact Hp]).
    unfold onLoad.
    destruct (result (detectFileType (File.name f) b)) as [[[]|]| |]; exact Hp1.
  - unfold onInstallClick.
    destruct (currentFile p), (currentFileType p); exact Hp.
  - unfold onConfirmClick. destruct (Gate.clickConfirm (gate p)) as [g cbs].
    apply runActions_sound. exact Hp.
  - unfold onCancelClick. destruct (Gate.clickCancel (gate p)) as [g cbs].
    apply runActions_sound. exact Hp.
  - destruct (onTick_found id p) as [(t & Hin & _ & Hstep)|[_ Hstep]];
      cbn [step] in Hstep; rewrite Hstep; [apply tick_sound; assumption|exact Hp].
  - unfold onHideTimeout. destruct (hideTimeouts p); exact Hp.
  - unfold loadROMIntoRetroArch. destruct (moduleFS p) as [[fs|]|]; [|exact Hp..].
    destruct (writeFile _ _ _); exact Hp.
  - unfold onProgress. destruct lc; rewrite ?app_nil_r; [|exact Hp].
    apply updateProgress_sound; [|apply timersSound_more, Hp].
    right. apply in_or_app. right. left. reflexivity.
  - destruct Hp as (Hnd & Hall & Hlog). repeat split; assumption.
Qed.

(** X5. In every run of the page from its initial state, whatever the
    events and their order, the running timers have distinct ids, each
    holds a progress among 0, 10, ..., 90, and every value ever handed to
    the progress bar lies between 0 and 100 or is a percentage that a
    progress event of a read reported; so if the reads report percentages
    between 0 and 100 only, the bar never receives anything else. *)
Theorem timers_stay_sound (es : list Event) :
  timersSound (reportedPercents es) (run es initialPage) /\
  (Forall (fun x => 0 <= x <= 100) (reportedPercents es) ->
   Forall (fun x => 0 <= x <= 100) (progressLog (run es initialPage))).
Proof.
  assert (H : forall p r, timersSound r p ->
                          timersSound (r ++ reportedPercents es) (run es p)).
  { induction es as [|e es IH]; intros p r Hp.
    - rewrite app_nil_r. exact Hp.
    - change (e :: es) with ([e] ++ es).
      rewrite reportedPercents_app, app_assoc.
      unfold run. cbn [fold_left app]. apply IH, step_sound, Hp. }
  assert (H0 : timersSound (reportedPercents es) (run es initialPage)).
  { apply (H initialPage []). unfold timersSound. cbn.
    split; [constructor|]. split; constructor. }
  split; [exact H0|].
  intros Hrep. destruct H0 as (_ & _ & Hlog).
  eapply List.Forall_impl; [|exact Hlog]. cbn beta.
  intros x [Hx|Hx]; [exact Hx|].
  rewrite List.Forall_forall in Hrep. apply Hrep, Hx.
Qed.

Lemma timers_stay_sound_witness :
  let es := [ChangeFile gameWad; ReaderProgress true 100;
             ReaderLoaded gameWad (zeros 64)] in
  Forall (fun x => 0 <= x <= 100) (reportedPercents es) /\
  Forall (fun x => 0 <= x <= 100) (progressLog (run es initialPage)).
Proof.
  intros es.
  assert (H : Forall (fun x => 0 <= x <= 100) (reportedPercents es))
    by (constructor; [lia|constructor]).
  split; [exact H|]. apply (proj2 (timers_stay_sound es)), H.
Defined.

Lemma find_fresh_last id (l : list Interval) x :
  Forall (fun t => timerId t ≠ id) l -> timerId x = id ->
  List.find (fun t => bool_decide (timerId t = id)) (l ++ [x]) = Some x.
Proof.
  intros Hl Hx. induction Hl as [|y l Hy _ IH]; cbn [app List.find].
  - rewrite bool_decide_eq_true_2 by exact Hx. reflexivity.
  - rewrite bool_decide_eq_false_2 by exact Hy. exact IH.
Qed.

Lemma store_fresh_last id (l : list Interval) x v :
  Forall (fun t => timerId t ≠ id) l -> timerId x = id ->
  map (fun t' => if decide (timerId t' = id)
                 then mkInterval (timerId t') (file t') (fileType t') v else t')
    (l ++ [x]) = l ++ [mkInterval id (file x) (fileType x) v].
Proof.
  intros Hl Hx. rewrite map_app. cbn [map].
  rewrite decide_True by exact Hx. rewrite Hx. f_equal.
  induction Hl as [|y l Hy _ IH]; [reflexivity|]. cbn [map].
  rewrite decide_False by exact Hy. f_equal. exact IH.
Qed.

Lemma clear_fresh_last id (l : list Interval) x :
  Forall (fun t => timerId t ≠ id) l -> timerId x = id ->
  filter (fun t => timerId t ≠ id) (l ++ [x]) = l.
Proof.
  intros Hl Hx. rewrite filter_app, filter_cons, decide_False, filter_nil
    by (intros Hne; apply Hne, Hx).
  rewrite app_nil_r. induction Hl as [|y l Hy _ IH]; [reflexivity|].
  rewrite filter_cons, decide_True by exact Hy. f_equal. exact IH.
Qed.

Lemma run_snoc es e p : run (es ++ [e]) p = step e (run es p).
Proof. unfold run. rewrite fold_left_app. reflexivity. Qed.

Lemma repeat_snoc {A} (x : A) n : repeat x (S n) = repeat x n ++ [x].
Proof. induction n as [|n IH]; [reflexivity|]. cbn [repeat app] in *. f_equal. exact IH. Qed.

Lemma tens_snoc n : tens (S n) = tens n ++ [10 * Z.of_nat (S n)].
Proof. unfold tens. rewrite seq_S, map_app. reflexivity. Qed.

Lemma final_tick_fields id f t q :
  let r := tick (mkInterval id (Some f) t 90) q in
  progressLog r = progressLog q ++ [100] /\
  statusLog r = statusLog q ++ [("success", installedMessage f t)] /\
  lastWadDolInstall r = Some (File.name f, typeText t) /\
  hideTimeouts r = S (hideTimeouts q).
Proof. repeat split; reflexivity. Qed.

(** X6. An installation started for file [f] runs to its end in exactly ten
    ticks of its timer, whatever else is running: after [k < 10] ticks the
    timer is still running at [10 * k] percent; the tenth tick clears it,
    leaving the other timers as they were; its progress events are
    10, 20, ..., 100 in this order; the status shown is the success message
    naming the file, the cookie records file name and type, and one hiding
    of the progress bar is scheduled; a further tick of the cleared timer
    changes nothing. *)
Theorem installation_runs_ten_ticks (p : Page) (f : File.t) (t : option FileType) :
  Forall (fun x => timerId x ≠ nextTimer p) (intervals p) ->
  let id := nextTimer p in
  let started := performNandInstallation (Some f) t p in
  let after k := run (repeat (Tick id) k) started in
  (forall k, (k < 10)%nat ->
     intervals (after k) =
       intervals p ++ [mkInterval id (Some f) t (10 * Z.of_nat k)]) /\
  intervals (after 10%nat) = intervals p /\
  progressLog (after 10%nat) = progressLog p ++ [10; 20; 30; 40; 50; 60; 70; 80; 90; 100] /\
  statusLog (after 10%nat) =
    statusLog p ++ [("info", installingMessage t); ("success", installedMessage f t)] /\
  lastWadDolInstall (after 10%nat) = Some (File.name f, typeText t) /\
  hideTimeouts (after 10%nat) = S (hideTimeouts p) /\
  after 11%nat = after 10%nat.
Proof.
  intros Hfresh id started after.
  assert (Hinv : forall k, (k < 10)%nat ->
            intervals (after k) =
              intervals p ++ [mkInterval id (Some f) t (10 * Z.of_nat k)] /\
            progressLog (after k) = progressLog p ++ tens k /\
            statusLog (after k) = statusLog p ++ [("info", installingMessage t)] /\
            lastWadDolInstall (after k) = lastWadDolInstall p /\
            hideTimeouts (after k) = hideTimeouts p).
  { induction k as [|k IH]; intros Hk.
    - subst after started. cbn. rewrite app_nil_r. repeat split; reflexivity.
    - destruct (IH ltac:(lia)) as (Hi & Hl & Hs & Hc & Hh).
      subst after. cbv beta in *. rewrite repeat_snoc, run_snoc.
      set (q := run (repeat (Tick id) k) started) in *.
      cbn [step]. unfold onTick. rewrite Hi.
      rewrite (find_fresh_last id (intervals p)
                 (mkInterval id (Some f) t (10 * Z.of_nat k)) Hfresh eq_refl).
      unfold tick.
      cbn [progress timerId file fileType].
      destruct (Z.leb_spec 100 (10 * Z.of_nat k + 10)) as [Hd|_]; [lia|].
      cbn. rewrite Hi.
      rewrite (store_fresh_last id (intervals p)
                 (mkInterval id (Some f) t (10 * Z.of_nat k)) _ Hfresh eq_refl).
      rewrite Hl, Hs, Hc, Hh.
      rewrite tens_snoc, app_assoc.
      replace (10 * Z.of_nat k + 10) with (10 * Z.of_nat (S k)) by lia.
      repeat split; reflexivity. }
  destruct (Hinv 9%nat ltac:(lia)) as (Hi & Hl & Hs & Hc & Hh).
  assert (Hten : after 10%nat = tick (mkInterval id (Some f) t 90) (after 9%nat)).
  { subst after. cbv beta. rewrite repeat_snoc, run_snoc.
    cbn [step]. unfold onTick. cbv beta in Hi. rewrite Hi.
    rewrite (find_fresh_last id (intervals p)
               (mkInterval id (Some f) t (10 * Z.of_nat 9)) Hfresh eq_refl).
    reflexivity. }
  assert (Hi10 : intervals (after 10%nat) = intervals p).
  { rewrite Hten, intervals_tick. cbn [progress timerId]. cbv zeta.
    change (100 <=? 90 + 10) with true. cbv iota.
    rewrite Hi.
    rewrite (store_fresh_last id (intervals p)
               (mkInterval id (Some f) t (10 * Z.of_nat 9)) _ Hfresh eq_refl).
    apply (clear_fresh_last id (intervals p)
             (mkInterval id (Some f) t (90 + 10)) Hfresh eq_refl). }
  split; [intros k Hk; apply (Hinv k Hk)|].
  split; [exact Hi10|].
  destruct (final_tick_fields id f t (after 9%nat)) as (Fl & Fs & Fc & Fh).
  cbv zeta in Fl, Fs, Fc, Fh. rewrite <- Hten in Fl, Fs, Fc, Fh.
  split; [rewrite Fl, Hl, <- app_assoc; reflexivity|].
  split; [rewrite Fs, Hs, <- app_assoc; reflexivity|].
  split; [exact Fc|].
  split; [rewrite Fh, Hh; reflexivity|].
  change (after 11%nat) with (run (repeat (Tick id) 11) started).
  rewrite repeat_snoc, run_snoc. fold (after 10%nat).
  destruct (onTick_found id (after 10%nat)) as [(x & Hin & Hx & _)|[_ Hstep]];
    [|exact Hstep].
  rewrite Hi10 in Hin. rewrite List.Forall_forall in Hfresh.
  destruct (Hfresh x Hin Hx).
Qed.

Lemma installation_runs_ten_ticks_witness :
  let running := run [ChangeFile gameWad; ReaderLoaded gameWad (zeros 64);
                      ClickInstall; ClickConfirm; Tick 0] initialPage in
  Forall (fun x => timerId x <> nextTimer running) (intervals running) /\
  intervals (run (repeat (Tick (nextTimer running)) 10)
               (performNandInstallation (Some gameWad) (Some DOL) running)) =
    intervals running.
Proof.
  intros running.
  assert (H : Forall (fun x => timerId x <> nextTimer running) (intervals running))
    by (vm_compute; repeat constructor; discriminate).
  split; [exact H|].
  pose proof (installation_runs_ten_ticks running gameWad (Some DOL) H) as T.
  cbv zeta in T. apply T.
Defined.

(** ** Requests and installations *)







(** X8. Two overlapping uploads mix their data. If file [B] is chosen
    while the read of file [A] is still under way, and [A]'s read then
    finishes with an accepted type, the install button is displayed with
    [B] as the current file and [A]'s type as the current type: the warning
    names [B], and confirming starts the installation of [B], of which no
    byte was ever checked, under the type detected for [A]. Every event of
    this run can be delivered. *)
Theorem overlapping_uploads_install_unchecked_file
    (p : Page) (A B : File.t) (bufA : ArrayBuffer) (t : FileType) :
  Gate.complete (gate p) = true ->
  detected (File.name A) bufA = Some t ->
  let uploaded := run [ChangeFile A; ChangeFile B; ReaderLoaded A bufA] p in
  let awaiting := step ClickInstall uploaded in
  let started := step ClickConfirm awaiting in
  feasible [ChangeFile A; ChangeFile B; ReaderLoaded A bufA;
            ClickInstall; ClickConfirm] p = true /\
  currentFile uploaded = Some B /\ currentFileType uploaded = Some t /\
  Gate.messageText (gate awaiting) = Some (installMessage B) /\
  intervals started = intervals p ++ [mkInterval (nextTimer p) (Some B) (Some t) 0].
Proof.
  intros Hc Hdet uploaded awaiting started.
  assert (Hres : result (detectFileType (File.name A) bufA) = Returns (Some t)).
  { rewrite detectFileType_eq. unfold detected in Hdet.
    destruct (classifyByExtension (File.name A)) as [[]|]; cbn [minSize] in Hdet;
      try discriminate; destruct (len bufA <? _); try discriminate;
      injection Hdet as <-; reflexivity. }
  assert (Hup : uploaded =
            (match t with WAD => handleWadFile A bufA | DOL => handleDolFile A bufA end)
              (setCurrentFileType (Some t)
                 (updateProgress 100 (onChange B (onChange A p))))).
  { subst uploaded. unfold run. cbn [fold_left step]. unfold onLoad.
    rewrite Hres. destruct t; reflexivity. }
  assert (Hfile : currentFile uploaded = Some B) by (rewrite Hup; destruct t; reflexivity).
  assert (Htype : currentFileType uploaded = Some t) by (rewrite Hup; destruct t; reflexivity).
  assert (Hgate : gate uploaded = gate p) by (rewrite Hup; destruct t; reflexivity).
  assert (Hshow : installDisplay uploaded = "inline-block")
    by (rewrite Hup; destruct t; reflexivity).
  assert (Hcu : Gate.complete (gate uploaded) = true) by (rewrite Hgate; exact Hc).
  assert (Haw : awaiting =
            setGate (fst (Gate.showNandWarning (installMessage B)
                            (Some InstallCurrent) (gate uploaded))) uploaded)
    by (apply onInstallClick_request with (t := t); assumption).
  assert (Harmed : armed (Some InstallCurrent) (gate awaiting))
    by (rewrite Haw, gate_setGate; apply showNandWarning_armed, Hcu).
  split.
  { change (feasible [ChangeFile A; ChangeFile B; ReaderLoaded A bufA;
                      ClickInstall; ClickConfirm] p)
      with (true && (true && (true &&
              (enabled ClickInstall uploaded &&
                 (enabled ClickConfirm awaiting && true))))).
    cbn [enabled andb]. rewrite Hshow. cbn [String.eqb Ascii.eqb andb].
    rewrite Haw, gate_setGate, (request_shown _ _ _ Hcu). reflexivity. }
  split; [exact Hfile|]. split; [exact Htype|]. split.
  { rewrite Haw, gate_setGate, showNandWarning_complete by exact Hcu. reflexivity. }
  assert (Hint : intervals uploaded = intervals p)
    by (rewrite Hup; destruct t; reflexivity).
  assert (Hnext : nextTimer uploaded = nextTimer p)
    by (rewrite Hup; destruct t; reflexivity).
  subst started. rewrite (onConfirmClick_armed _ Harmed), Haw.
  cbn [intervals nextTimer currentFile currentFileType performNandInstallation
       setNextTimer setIntervals setProgressDisplay showStatus setStatusLog
       setStatus setGate].
  rewrite Hfile, Htype, Hint, Hnext. reflexivity.
Qed.

Lemma overlapping_uploads_install_unchecked_file_witness :
  Gate.complete (gate initialPage) = true /\
  detected (File.name gameWad) (zeros 64) = Some WAD /\
  intervals (run [ChangeFile gameWad; ChangeFile (File.mk "notes.txt" 3 0);
                  ReaderLoaded gameWad (zeros 64); ClickInstall; ClickConfirm]
               initialPage) =
    [mkInterval 0 (Some (File.mk "notes.txt" 3 0)) (Some WAD) 0].
Proof.
  split; [reflexivity|]. split; [reflexivity|].
  pose proof (overlapping_uploads_install_unchecked_file initialPage gameWad
                (File.mk "notes.txt" 3 0) (zeros 64) WAD eq_refl eq_refl) as H.
  cbv zeta in H. destruct H as (_ & _ & _ & _ & H). exact H.
Defined.

(** ** The warning modal on a page that lacks one of its elements *)

(** X9. On a page that lacks one of the modal's elements, [showNandWarning]
    registers no listener and replaces no button: the document's buttons and
    every node's listeners are as before. Without the modal the call
    returns quietly and changes nothing; without the message line it raises
    a [TypeError] and changes nothing; with both but without one of the
    buttons it raises a [TypeError] only after having put the new message
    on screen, so that the modal is displayed while the remaining button
    still carries the listeners of the previous request. *)
Theorem showNandWarning_on_incomplete_page {Cb : Type}
    (g : Gate.t Cb) (message : string) (onConfirm : option Cb) :
  Gate.complete g = false ->
  let g' := fst (Gate.showNandWarning message onConfirm g) in
  let raised := snd (Gate.showNandWarning message onConfirm g) in
  Gate.confirmButton g' = Gate.confirmButton g /\
  Gate.cancelButton g' = Gate.cancelButton g /\
  (forall n ls, Gate.nodes g !! n = Some ls -> Gate.nodes g' !! n = Some ls) /\
  (Gate.modalDisplay g = None -> g' = g /\ raised = None) /\
  (is_Some (Gate.modalDisplay g) -> raised = Some TypeError) /\
  (is_Some (Gate.modalDisplay g) -> Gate.messageText g = None -> g' = g) /\
  (is_Some (Gate.modalDisplay g) -> is_Some (Gate.messageText g) ->
     Gate.shown g' = true /\ Gate.messageText g' = Some message).
Proof.
  intros Hc g' raised. subst g' raised. unfold Gate.showNandWarning.
  destruct g as [md mt cf cn ns]. unfold Gate.complete in Hc.
  cbn [Gate.modalDisplay Gate.messageText Gate.confirmButton Gate.cancelButton
       Gate.nodes] in *.
  destruct md as [d|], mt as [m|], cf as [a|], cn as [c|]; try discriminate;
    cbn; repeat apply conj;
    first
      [ reflexivity
      | intros n ls Hn; first [exact Hn | apply lookup_app_l_Some; exact Hn]
      | intros H; first [ discriminate H | reflexivity | split; reflexivity
                        | destruct H as [? H]; discriminate H ]
      | intros H1 H2;
        first [ discriminate H2 | reflexivity | split; reflexivity
              | destruct H1 as [? H1]; discriminate H1
              | destruct H2 as [? H2]; discriminate H2 ] ].
Qed.

Lemma showNandWarning_on_incomplete_page_witness :
  Gate.complete (Gate.mk (Some "") (Some "") (Some 0%nat) None
                   [[Gate.ConfirmListener (Some 7%nat)]]) = false /\
  Gate.shown (fst (Gate.showNandWarning "again" (Some 8%nat)
                     (Gate.mk (Some "") (Some "") (Some 0%nat) None
                        [[Gate.ConfirmListener (Some 7%nat)]]))) = true.
Proof.
  split; [reflexivity|].
  pose proof (showNandWarning_on_incomplete_page
                (Gate.mk (Some "") (Some "") (Some 0%nat) None
                   [[Gate.ConfirmListener (Some 7%nat)]])
                "again" (Some 8%nat) eq_refl) as H.
  cbv zeta in H. destruct H as (_ & _ & _ & _ & _ & _ & H).
  apply H; eexists; reflexivity.
Defined.

(** ** The life cycle of the Dolphin loader *)

Lemma bootROM_isReady filename data l :
  Dolphin.isReady (Dolphin.after (Dolphin.bootROM filename data l)) = Dolphin.isReady l.
Proof.
  unfold Dolphin.bootROM. destruct l as [ready md inst]. cbn [Dolphin.isReady
    Dolphin.module Dolphin.dolphinInstance].
  destruct ready; [|reflexivity]. cbn [negb].
  destruct md as [m|]; [|reflexivity]. destruct (Dolphin.FS m); [|reflexivity].
  destruct (writeFile _ _ _); [|reflexivity].
  destruct inst as [[bootFile|]|];
    [destruct (bootFile _)| |]; try destruct (Dolphin.ccall m); reflexivity.
Qed.

Lemma bootROM_unready filename data l :
  Dolphin.isReady l = false ->
  Dolphin.bootROM filename data l =
    Dolphin.mkBooted l [] (Throws (Error Dolphin.NOT_READY)).
Proof. intros Hr. unfold Dolphin.bootROM. rewrite Hr. reflexivity. Qed.

(** The controls and [bootROM] leave the bookkeeping of [init] alone. *)
Lemma control_frame e s :
  match e with
  | Life.Pause | Life.Resume | Life.Stop | Life.SaveState _ | Life.LoadState _
  | Life.Boot _ _ | Life.ScriptLoaded _ => True
  | _ => False
  end ->
  Life.loadCallbacks (Life.step e s) = Life.loadCallbacks s /\
  Life.errorCallbacks (Life.step e s) = Life.errorCallbacks s /\
  Life.settled (Life.step e s) = Life.settled s /\
  Life.nextPromise (Life.step e s) = Life.nextPromise s /\
  Life.isLoading (Life.step e s) = Life.isLoading s /\
  Life.scripts (Life.step e s) = Life.scripts s /\
  Dolphin.isReady (Life.core (Life.step e s)) = Dolphin.isReady (Life.core s).
Proof.
  destruct e as [sp wd|path|path|r|what| | | |slot|slot|filename data];
    try contradiction; intros _; cbn [Life.step].
  - repeat split; reflexivity.
  - unfold Life.pause. destruct (negb _); [repeat split; reflexivity|].
    destruct (_ && _); [repeat split; reflexivity|].
    destruct (Dolphin.module _); [|repeat split; reflexivity].
    destruct (Life.modPauseMainLoop _); repeat split; reflexivity.
  - unfold Life.resume. destruct (negb _); [repeat split; reflexivity|].
    destruct (_ && _); [repeat split; reflexivity|].
    destruct (Dolphin.module _); [|repeat split; reflexivity].
    destruct (Life.modResumeMainLoop _); repeat split; reflexivity.
  - unfold Life.stop. destruct (negb _); [repeat split; reflexivity|].
    destruct (_ && _); [repeat split; reflexivity|].
    destruct (Dolphin.module _) as [m|]; [|repeat split; reflexivity].
    destruct (Dolphin.ccall m); repeat split; reflexivity.
  - unfold Life.saveState. destruct (negb _); [repeat split; reflexivity|].
    destruct (_ && _); [|repeat split; reflexivity].
    destruct (Dolphin.module _) as [m|]; [|repeat split; reflexivity].
    destruct (_ && _); repeat split; reflexivity.
  - unfold Life.loadState. destruct (negb _); [repeat split; reflexivity|].
    destruct (_ && _); repeat split; reflexivity.
  - unfold Life.boot. cbv zeta. cbn [fst].
    pose proof (bootROM_isReady filename data (Life.core s)) as Hr.
    repeat split; try reflexivity. exact Hr.
Qed.

Lemma settledPromises_notify (f : nat -> nat * Life.Settlement) st cbs :
  (forall id, fst (f id) = id) ->
  map fst (st ++ map f cbs) = map fst st ++ cbs.
Proof.
  intros Hf. rewrite map_app, map_map. f_equal.
  induction cbs as [|c cbs IH]; [reflexivity|]. cbn [map]. rewrite Hf, IH. reflexivity.
Qed.

(** Emptying the lists by calling everyone who waits, on a loader that has
    just stopped loading. *)
Lemma notify_sound (f : nat -> nat * Life.Settlement) s :
  (forall id, fst (f id) = id) ->
  Life.loadCallbacks s = Life.errorCallbacks s ->
  NoDup (Life.settledPromises s ++ Life.loadCallbacks s) ->
  (forall id, In id (Life.settledPromises s ++ Life.loadCallbacks s) <->
              (id < Life.nextPromise s)%nat) ->
  Life.isLoading s = false ->
  Life.promisesSound
    (Life.setErrorCallbacks []
       (Life.setLoadCallbacks []
          (Life.setSettled (Life.settled s ++ map f (Life.loadCallbacks s)) s))).
Proof.
  intros Hf Heq Hnd Hmem Hload. unfold Life.promisesSound, Life.settledPromises.
  cbn. rewrite (settledPromises_notify f _ _ Hf), app_nil_r.
  split; [reflexivity|]. split; [exact Hnd|]. split; [exact Hmem|].
  split; [reflexivity|]. intros _. exact Hload.
Qed.

Lemma notifyReady_sound s :
  Life.loadCallbacks s = Life.errorCallbacks s ->
  NoDup (Life.settledPromises s ++ Life.loadCallbacks s) ->
  (forall id, In id (Life.settledPromises s ++ Life.loadCallbacks s) <->
              (id < Life.nextPromise s)%nat) ->
  Life.isLoading s = false ->
  Life.promisesSound (Life.notifyReady s).
Proof.
  intros. apply (notify_sound (fun id => (id, Life.Resolved))); auto.
Qed.

Lemma notifyError_sound e s :
  Life.loadCallbacks s = Life.errorCallbacks s ->
  NoDup (Life.settledPromises s ++ Life.loadCallbacks s) ->
  (forall id, In id (Life.settledPromises s ++ Life.loadCallbacks s) <->
              (id < Life.nextPromise s)%nat) ->
  Life.isLoading s = false ->
  Life.promisesSound (Life.notifyError e s).
Proof.
  intros Heq Hnd Hmem Hload. unfold Life.notifyError. cbv zeta. rewrite <- Heq.
  apply (notify_sound (fun id => (id, Life.Rejected e))); auto.
Qed.

Lemma NoDup_snoc_fresh (l : list nat) n :
  NoDup l -> (forall id, In id l <-> (id < n)%nat) ->
  NoDup (l ++ [n]) /\ (forall id, In id (l ++ [n]) <-> (id < S n)%nat).
Proof.
  intros Hnd Hmem. split.
  - apply NoDup_app. split; [exact Hnd|]. split; [|apply NoDup_singleton].
    intros x Hx Hx'. apply list_elem_of_singleton in Hx'. subst x.
    apply list_elem_of_In, Hmem in Hx. lia.
  - intros id. rewrite in_app_iff, Hmem. cbn. split; [intros [H|[H|[]]]; lia|].
    intros H. destruct (Nat.eq_dec id n); [right; left; auto | left; lia].
Qed.

Lemma init_sound sp wd s :
  Life.promisesSound s -> Life.promisesSound (Life.init sp wd s).
Proof.
  intros (Heq & Hnd & Hmem & Hidle & Hready). unfold Life.init. cbv zeta.
  cbn [Life.core Life.isLoading Life.setNextPromise Life.nextPromise].
  destruct (NoDup_snoc_fresh _ _ Hnd Hmem) as [Hnd' Hmem'].
  destruct (Dolphin.isReady (Life.core s)) eqn:Hr.
  - specialize (Hready eq_refl). specialize (Hidle Hready).
    unfold Life.promisesSound, Life.settledPromises in *. cbn.
    rewrite Hidle in *. rewrite <- Heq. rewrite app_nil_r in *.
    rewrite map_app. cbn [map fst].
    split; [reflexivity|]. split; [exact Hnd'|]. split; [exact Hmem'|].
    split; [reflexivity|]. intros _. exact Hready.
  - assert (Hpush : forall q,
              Life.loadCallbacks q = Life.loadCallbacks s ++ [Life.nextPromise s] ->
              Life.errorCallbacks q = Life.errorCallbacks s ++ [Life.nextPromise s] ->
              Life.settled q = Life.settled s ->
              Life.nextPromise q = S (Life.nextPromise s) ->
              Dolphin.isReady (Life.core q) = false ->
              Life.isLoading q = true ->
              Life.promisesSound q).
    { intros q Hl He Hs Hn Hrq Hlq. unfold Life.promisesSound, Life.settledPromises.
      rewrite Hl, He, Hs, Hn, Hrq, Hlq. rewrite <- Heq, app_assoc.
      split; [reflexivity|]. split; [exact Hnd'|]. split; [exact Hmem'|].
      split; discriminate. }
    destruct (Life.isLoading s) eqn:Hl.
    + apply Hpush; try reflexivity; assumption.
    + destruct (negb wd); [unfold Life.loadDolphinScript; destruct (bool_decide _)|];
        apply Hpush; try reflexivity; assumption.
Qed.

Lemma step_promisesSound e s :
  Life.promisesSound s -> Life.promisesSound (Life.step e s).
Proof.
  intros Hs. pose proof Hs as (Heq & Hnd & Hmem & Hidle & Hready).
  destruct e as [sp wd|path|path|r|what| | | |slot|slot|filename data];
    try (match goal with
         | |- Life.promisesSound (Life.step ?e s) =>
             destruct (control_frame e s I) as (H1 & H2 & H3 & H4 & H5 & _ & H7)
         end;
         unfold Life.promisesSound, Life.settledPromises;
         rewrite H1, H2, H3, H4, H5, H7; exact Hs).
  - apply init_sound, Hs.
  - cbn [Life.step]. unfold Life.onScriptError. cbv zeta.
    apply notifyError_sound; assumption || reflexivity.
  - cbn [Life.step]. unfold Life.onRuntimeReady. cbv zeta.
    destruct (Life.wasmClass r) as [|bootFile|err].
    + cbn [Life.core Life.setMethods Life.setModule Life.setCore Dolphin.module].
      destruct (option_map _ _) as [m|];
        [destruct (Dolphin.ccall m)|];
        first [apply notifyReady_sound | apply notifyError_sound];
        assumption || reflexivity.
    + apply notifyReady_sound; assumption || reflexivity.
    + apply notifyError_sound; assumption || reflexivity.
  - cbn [Life.step]. unfold Life.onAbort.
    apply notifyError_sound; assumption || reflexivity.
Qed.

(** X10. Every promise returned by [init] is settled at most once, and
    exactly once by the time the loader is no longer loading. In every run
    from a new loader, whatever the calls and signals and their order: the
    two callback lists hold the same promises; no promise is settled twice,
    or settled while it still waits; the loader is never ready and loading
    at once; and whenever it is not loading, nobody waits and each promise
    handed out so far has been settled exactly once. *)
Theorem init_promises_settle_once (pageScripts : list string) (es : list Life.Event) :
  let s := Life.run es (Life.fresh pageScripts) in
  Life.promisesSound s /\
  (Life.isLoading s = false ->
     NoDup (Life.settledPromises s) /\
     forall id, In id (Life.settledPromises s) <-> (id < Life.nextPromise s)%nat).
Proof.
  intros s.
  assert (Hs : Life.promisesSound s).
  { subst s. assert (H : forall q, Life.promisesSound q -> Life.promisesSound (Life.run es q)).
    { induction es as [|e es IH]; intros q Hq; [exact Hq|].
      unfold Life.run. cbn [fold_left]. apply IH, step_promisesSound, Hq. }
    apply H. unfold Life.promisesSound, Life.settledPromises. cbn.
    split; [reflexivity|]. split; [constructor|].
    split; [intros id; split; [intros []|lia]|]. split; [reflexivity|discriminate]. }
  split; [exact Hs|]. intros Hidle.
  destruct Hs as (_ & Hnd & Hmem & Hnone & _).
  rewrite (Hnone Hidle), app_nil_r in Hnd.
  split; [exact Hnd|]. intros id. rewrite <- Hmem, (Hnone Hidle), app_nil_r.
  reflexivity.
Qed.

Lemma step_ready_stays e s :
  Dolphin.isReady (Life.core s) = true ->
  Dolphin.isReady (Life.core (Life.step e s)) = true.
Proof.
  intros Hr.
  destruct e as [sp wd|path|path|r|what| | | |slot|slot|filename data];
    try (match goal with
         | |- Dolphin.isReady (Life.core (Life.step ?e s)) = true =>
             destruct (control_frame e s I) as (_ & _ & _ & _ & _ & _ & H7)
         end; rewrite H7; exact Hr).
  - cbn [Life.step]. unfold Life.init. cbv zeta. cbn [Life.core Life.setNextPromise].
    rewrite Hr. exact Hr.
  - exact Hr.
  - cbn [Life.step]. unfold Life.onRuntimeReady. cbv zeta.
    destruct (Life.wasmClass r) as [|bootFile|err]; cbn; try rewrite Hr; try reflexivity.
    destruct (option_map _ _) as [m|]; [destruct (Dolphin.ccall m)|]; cbn;
      try rewrite Hr; reflexivity.
  - exact Hr.
Qed.

Lemma step_calls_unready e s :
  Dolphin.isReady (Life.core s) = false ->
  Life.calls (Life.step e s) = Life.calls s.
Proof.
  intros Hr.
  destruct e as [sp wd|path|path|r|what| | | |slot|slot|filename data];
    cbn [Life.step].
  - unfold Life.init. cbv zeta. cbn [Life.core Life.setNextPromise]. rewrite Hr.
    destruct (Life.isLoading _); [reflexivity|].
    destruct (negb wd); [|reflexivity].
    unfold Life.loadDolphinScript. destruct (bool_decide _); reflexivity.
  - reflexivity.
  - reflexivity.
  - unfold Life.onRuntimeReady. cbv zeta.
    destruct (Life.wasmClass r) as [|bootFile|err]; try reflexivity.
    cbn [Life.core Life.setMethods Life.setModule Life.setCore Dolphin.module].
    destruct (option_map _ _) as [m|]; [destruct (Dolphin.ccall m)|]; reflexivity.
  - reflexivity.
  - unfold Life.pause. rewrite Hr. reflexivity.
  - unfold Life.resume. rewrite Hr. reflexivity.
  - unfold Life.stop. rewrite Hr. reflexivity.
  - unfold Life.saveState. rewrite Hr. reflexivity.
  - unfold Life.loadState. rewrite Hr. reflexivity.
  - unfold Life.boot. rewrite (bootROM_unready _ _ _ Hr). cbn.
    apply app_nil_r.
Qed.

Lemma life_run_snoc es e s : Life.run (es ++ [e]) s = Life.step e (Life.run es s).
Proof. unfold Life.run. rewrite fold_left_app. reflexivity. Qed.

(** X11. Readiness is permanent and guards the engine. Once a run from a
    new loader has made it ready it stays ready under every further call or
    signal, an abort of the runtime included; and as long as it is not
    ready no call has been made into the engine, neither by the controls
    nor by [bootROM]: the controls do nothing at all and [bootROM] raises
    its not-ready error before it touches the file system. On a ready
    loader with a file system, [bootROM] does call the engine, first of
    all to write the ROM under ["/roms/"]. *)
Theorem ready_is_permanent_and_guards_engine
    (pageScripts : list string) (es es' : list Life.Event) :
  (Dolphin.isReady (Life.core (Life.run es (Life.fresh pageScripts))) = true ->
   Dolphin.isReady (Life.core (Life.run (es ++ es') (Life.fresh pageScripts))) = true) /\
  (Dolphin.isReady (Life.core (Life.run es (Life.fresh pageScripts))) = false ->
   Life.calls (Life.run es (Life.fresh pageScripts)) = [] /\
   forall filename data,
     Life.boot filename data (Life.run es (Life.fresh pageScripts)) =
       (Life.run es (Life.fresh pageScripts), Throws (Error Dolphin.NOT_READY))) /\
  (forall filename data m fs,
     Dolphin.isReady (Life.core (Life.run es (Life.fresh pageScripts))) = true ->
     Dolphin.module (Life.core (Life.run es (Life.fresh pageScripts))) = Some m ->
     Dolphin.FS m = Some fs ->
     exists rest,
       Life.calls (Life.step (Life.Boot filename data)
                     (Life.run es (Life.fresh pageScripts))) =
         Life.calls (Life.run es (Life.fresh pageScripts)) ++
           Life.CallBoot (Dolphin.WriteFile ("/roms/" +:+ filename) data) :: rest).
Proof.
  split; [|split].
  - intros Hr. unfold Life.run. rewrite fold_left_app.
    fold (Life.run es (Life.fresh pageScripts)).
    generalize dependent (Life.run es (Life.fresh pageScripts)).
    induction es' as [|e es' IH]; intros s Hr; [exact Hr|].
    cbn [fold_left]. apply IH, step_ready_stays, Hr.
  - intros Hr. split.
    + revert Hr. induction es as [|e es IH] using rev_ind; [reflexivity|].
      rewrite life_run_snoc. intros Hr.
      destruct (Dolphin.isReady (Life.core (Life.run es (Life.fresh pageScripts))))
        eqn:Hprev.
      * rewrite (step_ready_stays e _ Hprev) in Hr. discriminate.
      * rewrite (step_calls_unready e _ Hprev). apply IH. reflexivity.
    + intros filename data. unfold Life.boot.
      rewrite (bootROM_unready _ _ _ Hr).
      cbn [Dolphin.made Dolphin.after Dolphin.returned map].
      rewrite app_nil_r. destruct (Life.run es (Life.fresh pageScripts)).
      reflexivity.
  - intros filename data m fs Hr Hm Hfs. cbn [Life.step]. unfold Life.boot.
    cbv zeta. cbn [fst Life.calls Life.setCalls].
    unfold Dolphin.bootROM. rewrite Hr, Hm, Hfs. cbn [negb].
    rewrite writeFile_rooted by apply roms_path_begins_with_root.
    destruct (Dolphin.dolphinInstance _) as [[bootFile|]|];
      [| |]; try destruct (Dolphin.ccall m);
      cbn [Dolphin.made map]; eexists; reflexivity.
Qed.

Lemma ready_is_permanent_and_guards_engine_witness :
  let es := [Life.Init None false; Life.ScriptLoaded "dolphin.js";
             Life.RuntimeInitialized
               (Life.mkRuntime (Life.Constructs None) (Some ∅) true Life.noMethods)] in
  Dolphin.isReady (Life.core (Life.run es (Life.fresh []))) = true /\
  Dolphin.isReady
    (Life.core (Life.run (es ++ [Life.Abort "out of memory"]) (Life.fresh []))) = true /\
  Dolphin.isReady (Life.core (Life.run [Life.Init None false] (Life.fresh []))) = false /\
  Life.calls (Life.run [Life.Init None false] (Life.fresh [])) = [] /\
  exists rest,
    Life.calls (Life.step (Life.Boot "game.iso" [x01]) (Life.run es (Life.fresh []))) =
      Life.calls (Life.run es (Life.fresh [])) ++
        Life.CallBoot (Dolphin.WriteFile ("/roms/" +:+ "game.iso") [x01]) :: rest.
Proof.
  intros es.
  pose proof (ready_is_permanent_and_guards_engine [] es [Life.Abort "out of memory"])
    as (Hstays & _ & Hboot).
  pose proof (ready_is_permanent_and_guards_engine [] [Life.Init None false] [])
    as (_ & Hquiet & _).
  split; [reflexivity|]. split; [apply Hstays; reflexivity|].
  split; [reflexivity|]. split; [apply Hquiet; reflexivity|].
  apply (Hboot "game.iso" [x01] (Dolphin.mkModule (Some ∅) true) ∅);
    reflexivity.
Defined.

Lemma lifeDeliver_stuck promise st e s :
  isRuntimeSignal e = false ->
  Dolphin.isReady (Life.core s) = false -> Life.isLoading s = true ->
  Life.loadsInFlight s = [] -> In promise (Life.loadCallbacks s) ->
  Life.settled s = st ->
  Dolphin.isReady (Life.core (lifeDeliver e s)) = false /\
  Life.isLoading (lifeDeliver e s) = true /\
  Life.loadsInFlight (lifeDeliver e s) = [] /\
  In promise (Life.loadCallbacks (lifeDeliver e s)) /\
  Life.settled (lifeDeliver e s) = st.
Proof.
  intros He Hr Hl Hf Hp Hst.
  destruct e as [sp wd|path|path|r|what| | | |slot|slot|filename data];
    try discriminate; cbn [lifeDeliver Life.step].
  - unfold Life.init. cbv zeta. cbn [Life.core Life.isLoading Life.setNextPromise].
    rewrite Hr, Hl. cbn. repeat split; try assumption.
    apply in_or_app. left. exact Hp.
  - rewrite Hf. rewrite bool_decide_eq_false_2 by (apply not_elem_of_nil). auto.
  - rewrite Hf. rewrite bool_decide_eq_false_2 by (apply not_elem_of_nil). auto.
  - unfold Life.pause. rewrite Hr. cbn. auto.
  - unfold Life.resume. rewrite Hr. cbn. auto.
  - unfold Life.stop. rewrite Hr. cbn. auto.
  - unfold Life.saveState. rewrite Hr. cbn. auto.
  - unfold Life.loadState. rewrite Hr. cbn. auto.
  - unfold Life.boot. rewrite (bootROM_unready _ _ _ Hr). cbn. auto.
Qed.

(** X12. An [init] that finds the script element already in the document
    starts no load and then waits for a runtime that nothing brings up: as
    after a failed load, whose script element stays in the document. Let
    the loader be neither ready nor loading, with no load under way and the
    script element present. Then [init] makes it loading with its promise
    waiting, and under every further sequence of calls and script signals
    (anything but a signal of the runtime) it remains loading, the promise
    remains waiting, no load is under way and nothing is settled. *)
Theorem renewed_init_waits_forever
    (s0 : Life.t) (scriptPath : option string) (es : list Life.Event) :
  Dolphin.isReady (Life.core s0) = false -> Life.isLoading s0 = false ->
  Life.loadsInFlight s0 = [] ->
  Life.scriptPathOf scriptPath ∈ Life.scripts s0 ->
  forallb (fun e => negb (isRuntimeSignal e)) es = true ->
  let s := lifeDeliverAll es (Life.init scriptPath false s0) in
  Life.isLoading s = true /\
  In (Life.nextPromise s0) (Life.loadCallbacks s) /\
  Life.loadsInFlight s = [] /\
  Life.settled s = Life.settled s0.
Proof.
  intros Hr Hl Hf Hscript Hes s.
  assert (Hstart : Dolphin.isReady (Life.core (Life.init scriptPath false s0)) = false /\
            Life.isLoading (Life.init scriptPath false s0) = true /\
            Life.loadsInFlight (Life.init scriptPath false s0) = [] /\
            In (Life.nextPromise s0) (Life.loadCallbacks (Life.init scriptPath false s0)) /\
            Life.settled (Life.init scriptPath false s0) = Life.settled s0).
  { unfold Life.init. cbv zeta. cbn [Life.core Life.isLoading Life.setNextPromise].
    rewrite Hr, Hl. cbn [negb]. unfold Life.loadDolphinScript.
    rewrite bool_decide_eq_true_2 by exact Hscript. cbn.
    repeat split; try assumption. apply in_or_app. right. left. reflexivity. }
  subst s. generalize dependent (Life.init scriptPath false s0).
  induction es as [|e es IH]; intros q (H1 & H2 & H3 & H4 & H5).
  - auto.
  - cbn [forallb] in Hes. apply andb_true_iff in Hes as [He Hes].
    apply negb_true_iff in He.
    unfold lifeDeliverAll. cbn [fold_left]. fold (lifeDeliverAll es (lifeDeliver e q)).
    apply (IH Hes). apply lifeDeliver_stuck; assumption.
Qed.

Lemma renewed_init_waits_forever_witness :
  let failed := Life.run [Life.Init None false; Life.ScriptError "dolphin.js"]
                  (Life.fresh []) in
  Dolphin.isReady (Life.core failed) = false /\ Life.isLoading failed = false /\
  Life.loadsInFlight failed = [] /\
  Life.scriptPathOf None ∈ Life.scripts failed /\
  Life.isLoading
    (lifeDeliverAll [Life.Pause; Life.Init None false; Life.ScriptError "dolphin.js"]
       (Life.init None false failed)) = true.
Proof.
  intros failed.
  assert (Hin : Life.scriptPathOf None ∈ Life.scripts failed)
    by (vm_compute; apply list_elem_of_here).
  pose proof (renewed_init_waits_forever failed None
                [Life.Pause; Life.Init None false; Life.ScriptError "dolphin.js"]
                eq_refl eq_refl eq_refl Hin eq_refl) as H.
  cbv zeta in H. destruct H as (Hloading & _ & _ & _).
  split; [reflexivity|]. split; [reflexivity|]. split; [reflexivity|].
  split; [exact Hin|]. exact Hloading.
Defined.

(** ** The backup card: overlapping uploads and the restore timer *)

Lemma validation_accepts_long_buffer b :
  1024 <= len b ->
  exists v, result (performBackupValidation b) = Returns v /\
            Validation.isValid v = true.
Proof.
  intros Hlen. rewrite performBackupValidation_outcome by lia. cbv zeta.
  rewrite Z.min_l by lia. change (Z.to_nat (1024 / 4)) with 256%nat.
  change (4 * Z.of_nat 256 <? 1024) with false. cbv iota. unfold result.
  destruct (hasDataIn b 256 0); eexists; split; reflexivity.
Qed.

(** X13. On the backup card a file refused for its size can still be
    restored. If file [B], refused by the size check, is chosen while the
    read of an acceptable file [A] is under way, then [B] stays the current
    backup; when [A]'s read finishes and passes the validation, the restore
    button is displayed; clicking it and confirming starts the restore of
    [B], the refused file. Every event of this run can be delivered. *)
Theorem overlapping_backups_restore_refused_file
    (formatBytes : Z -> string) (c : Backup.t) (A B : File.t) (bufA : ArrayBuffer) :
  Gate.complete (Backup.gate c) = true ->
  SizeCheck.isValid (validateBackupSize formatBytes (File.size A)) = true ->
  len bufA = File.size A ->
  SizeCheck.isValid (validateBackupSize formatBytes (File.size B)) = false ->
  let chosen := Backup.run formatBytes [Backup.ChangeFile A; Backup.ChangeFile B] c in
  let uploaded := Backup.step formatBytes (Backup.ReaderLoaded A bufA) chosen in
  let started := Backup.run formatBytes [Backup.ClickRestore; Backup.ClickConfirm] uploaded in
  Backup.feasible formatBytes
    [Backup.ChangeFile A; Backup.ChangeFile B; Backup.ReaderLoaded A bufA;
     Backup.ClickRestore; Backup.ClickConfirm] c = true /\
  last (Backup.statusLog chosen) =
    Some ("error", sizeErrorMessage formatBytes (File.size B)) /\
  Backup.currentBackup uploaded = Some B /\
  Backup.restoreDisplay uploaded = "inline-block" /\
  Backup.intervals started =
    Backup.intervals c ++ [Backup.mkRestoreTimer (Backup.nextTimer c) (Some B) 0].
Proof.
  intros Hc HA Hlen HB chosen uploaded started.
  assert (HBmsg : validateBackupSize formatBytes (File.size B) =
            SizeCheck.mk false false (sizeErrorMessage formatBytes (File.size B))).
  { revert HB. unfold validateBackupSize.
    destruct (_ <? _); [reflexivity|]. destruct (_ <? _); discriminate. }
  assert (Hlong : 1024 <= len bufA)
    by (apply (size_check_passes_length formatBytes); rewrite Hlen; exact HA).
  destruct (validation_accepts_long_buffer bufA Hlong) as (v & Hv & Hvalid).
  set (cA := Backup.onChange formatBytes A c).
  assert (HcA : Backup.reading cA = Backup.reading c ++ [A] /\
                Backup.gate cA = Backup.gate c /\
                Backup.intervals cA = Backup.intervals c /\
                Backup.nextTimer cA = Backup.nextTimer c).
  { subst cA. unfold Backup.onChange. cbv zeta. rewrite HA. cbn [negb].
    destruct (SizeCheck.isWarning _); repeat split; reflexivity. }
  destruct HcA as (HrA & HgA & HiA & HnA).
  assert (Hchosen : chosen =
            Backup.setProgressDisplay "none"
              (Backup.showBootMiiStatus "error"
                 (sizeErrorMessage formatBytes (File.size B))
                 (Backup.updateBootMiiProgress 0
                    (Backup.setProgressDisplay "block"
                       (Backup.resetBootMiiUI
                          (Backup.setCurrentBackup (Some B) cA)))))).
  { subst chosen. unfold Backup.run. cbn [fold_left Backup.step]. fold cA.
    unfold Backup.onChange at 1. cbv zeta. rewrite HBmsg. reflexivity. }
  assert (Hreading : Backup.reading chosen = Backup.reading c ++ [A])
    by (rewrite Hchosen; exact HrA).
  assert (Hup : uploaded =
            Backup.showBootMiiStatus "success" BACKUP_LOADED_MESSAGE
              (Backup.setProgressDisplay "none"
                 (Backup.setRestoreDisplay "inline-block"
                    (Backup.setInfoDisplay "block"
                       (Backup.setDetails
                          (Some (Backup.mkBackupDetails (File.name A) (len bufA)
                                   (Validation.warnings v)))
                          (Backup.updateBootMiiProgress 100
                             (Backup.setReading
                                (removeFirst A (Backup.reading chosen)) chosen))))))).
  { subst uploaded. cbn [Backup.step]. unfold Backup.onLoad,
      Backup.validateAndParseBackup. cbv zeta. rewrite Hv, Hvalid. reflexivity. }
  assert (Hcur : Backup.currentBackup uploaded = Some B)
    by (rewrite Hup, Hchosen; reflexivity).
  assert (Hshow : Backup.restoreDisplay uploaded = "inline-block")
    by (rewrite Hup; reflexivity).
  assert (Hgate : Backup.gate uploaded = Backup.gate c)
    by (rewrite Hup, Hchosen; exact HgA).
  assert (Hint : Backup.intervals uploaded = Backup.intervals c)
    by (rewrite Hup, Hchosen; exact HiA).
  assert (Hnext : Backup.nextTimer uploaded = Backup.nextTimer c)
    by (rewrite Hup, Hchosen; exact HnA).
  assert (Hcu : Gate.complete (Backup.gate uploaded) = true)
    by (rewrite Hgate; exact Hc).
  set (awaiting := Backup.step formatBytes Backup.ClickRestore uploaded).
  assert (Haw : awaiting =
            Backup.setGate
              (fst (Gate.showNandWarning (Backup.restoreMessage B)
                      (Some Backup.RestoreCurrent) (Backup.gate uploaded))) uploaded).
  { subst awaiting. cbn [Backup.step]. unfold Backup.onRestoreClick.
    rewrite Hcur. reflexivity. }
  assert (Harmed : armed (Some Backup.RestoreCurrent) (Backup.gate awaiting))
    by (rewrite Haw; apply showNandWarning_armed, Hcu).
  assert (Hshown : Gate.shown (Backup.gate awaiting) = true).
  { rewrite Haw. cbn [Backup.gate Backup.setGate].
    rewrite showNandWarning_complete by exact Hcu. reflexivity. }
  split.
  { change (Backup.feasible formatBytes
              [Backup.ChangeFile A; Backup.ChangeFile B; Backup.ReaderLoaded A bufA;
               Backup.ClickRestore; Backup.ClickConfirm] c)
      with (true && (true &&
              (Backup.enabled (Backup.ReaderLoaded A bufA) chosen &&
                 (Backup.enabled Backup.ClickRestore uploaded &&
                    (Backup.enabled Backup.ClickConfirm awaiting && true))))).
    cbn [Backup.enabled andb]. rewrite Hshow, Hshown, Hreading, Hlen, Z.eqb_refl.
    destruct (in_dec File_eq_dec A (Backup.reading c ++ [A])) as [_|Hn];
      [reflexivity|]. exfalso. apply Hn, in_or_app. right. left. reflexivity. }
  split; [rewrite Hchosen; cbn; apply last_snoc|].
  split; [exact Hcur|]. split; [exact Hshow|].
  change started with (Backup.step formatBytes Backup.ClickConfirm awaiting).
  cbn [Backup.step]. unfold Backup.onConfirmClick.
  rewrite (clickConfirm_armed _ _ Harmed). cbn [invoked fold_left Backup.runAction].
  rewrite Haw.
  cbn [Backup.intervals Backup.nextTimer Backup.currentBackup
       Backup.performBackupRestore Backup.setNextTimer Backup.setIntervals
       Backup.setProgressDisplay Backup.showBootMiiStatus Backup.setStatusLog
       Backup.setStatus Backup.setGate].
  rewrite Hcur, Hint, Hnext. reflexivity.
Qed.

Lemma overlapping_backups_restore_refused_file_witness :
  Gate.complete (Backup.gate Backup.initial) = true /\
  SizeCheck.isValid
    (validateBackupSize pretty (File.size (File.mk "nand.bin" 536870912 0))) = true /\
  len (zeros 536870912) = File.size (File.mk "nand.bin" 536870912 0) /\
  SizeCheck.isValid
    (validateBackupSize pretty (File.size (File.mk "song.mp3" 4096 0))) = false /\
  Backup.intervals
    (Backup.run pretty [Backup.ClickRestore; Backup.ClickConfirm]
       (Backup.step pretty
          (Backup.ReaderLoaded (File.mk "nand.bin" 536870912 0) (zeros 536870912))
          (Backup.run pretty
             [Backup.ChangeFile (File.mk "nand.bin" 536870912 0);
              Backup.ChangeFile (File.mk "song.mp3" 4096 0)] Backup.initial))) =
    [Backup.mkRestoreTimer 0 (Some (File.mk "song.mp3" 4096 0)) 0].
Proof.
  pose proof (overlapping_backups_restore_refused_file pretty Backup.initial
                (File.mk "nand.bin" 536870912 0) (File.mk "song.mp3" 4096 0)
                (zeros 536870912) eq_refl eq_refl eq_refl eq_refl) as H.
  cbv zeta in H. destruct H as (_ & _ & _ & _ & H).
  split; [reflexivity|]. split; [reflexivity|]. split; [reflexivity|].
  split; [reflexivity|]. exact H.
Defined.

(** ** The backup card: what a finished read can lead to *)

Lemma reading_runActions (cbs : list Backup.Restore) c :
  Backup.reading (fold_left (fun q cb => Backup.runAction cb q) cbs c) =
  Backup.reading c.
Proof.
  revert c. induction cbs as [|cb cbs IH]; intros c; [reflexivity|].
  cbn [fold_left]. rewrite IH. destruct cb. reflexivity.
Qed.

Lemma reading_step formatBytes e c :
  Backup.reading (Backup.step formatBytes e c) =
  match e with
  | Backup.ChangeFile f =>
      if SizeCheck.isValid (validateBackupSize formatBytes (File.size f))
      then Backup.reading c ++ [f] else Backup.reading c
  | Backup.ReaderLoaded f _ | Backup.ReaderFailed f => removeFirst f (Backup.reading c)
  | _ => Backup.reading c
  end.
Proof.
  destruct e as [f|f b|f| | | |id| |f lc v]; cbn [Backup.step].
  - unfold Backup.onChange. cbv zeta.
    destruct (SizeCheck.isValid _); cbn [negb]; [|reflexivity].
    destruct (SizeCheck.isWarning _); reflexivity.
  - unfold Backup.onLoad, Backup.validateAndParseBackup. cbv zeta.
    destruct (result _) as [v| |]; [|reflexivity..].
    destruct (negb _); reflexivity.
  - reflexivity.
  - unfold Backup.onRestoreClick. destruct (Backup.currentBackup c); reflexivity.
  - unfold Backup.onConfirmClick. destruct (Gate.clickConfirm _) as [g cbs].
    rewrite reading_runActions. reflexivity.
  - unfold Backup.onCancelClick. destruct (Gate.clickCancel _) as [g cbs].
    rewrite reading_runActions. reflexivity.
  - unfold Backup.onTick. destruct (List.find _ _) as [tm|]; [|reflexivity].
    unfold Backup.tick. cbv zeta. destruct (100 <=? _); [|reflexivity].
    destruct (Backup.file tm); reflexivity.
  - unfold Backup.onHideTimeout. destruct (Backup.hideTimeouts c); reflexivity.
  - unfold Backup.onProgress. destruct lc; reflexivity.
Qed.

Lemma removeFirst_Forall (P : File.t -> Prop) f l :
  Forall P l -> Forall P (removeFirst f l).
Proof.
  induction 1 as [|g l Hg Hl IH]; [constructor|]. cbn [removeFirst].
  destruct (File_eq_dec g f); [exact Hl|]. constructor; assumption.
Qed.

Lemma step_readsChecked formatBytes e c :
  readsChecked formatBytes c -> readsChecked formatBytes (Backup.step formatBytes e c).
Proof.
  unfold readsChecked. intros H. rewrite reading_step.
  destruct e as [f|f b|f| | | |id| |f lc v]; try exact H;
    try (apply removeFirst_Forall; exact H).
  destruct (SizeCheck.isValid _) eqn:Hv; [|exact H].
  apply Forall_app. split; [exact H|]. constructor; [exact Hv|constructor].
Qed.

Lemma run_readsChecked formatBytes es c :
  readsChecked formatBytes c -> readsChecked formatBytes (Backup.run formatBytes es c).
Proof.
  revert c. induction es as [|e es IH]; intros c H; [exact H|].
  unfold Backup.run. cbn [fold_left]. apply IH, step_readsChecked, H.
Qed.

Lemma backup_feasible_app formatBytes es es' c :
  Backup.feasible formatBytes (es ++ es') c =
  Backup.feasible formatBytes es c &&
  Backup.feasible formatBytes es' (Backup.run formatBytes es c).
Proof.
  revert c. induction es as [|e es IH]; intros c; [reflexivity|].
  cbn [app Backup.feasible]. rewrite IH, andb_assoc. reflexivity.
Qed.

Lemma backup_run_snoc formatBytes es e c :
  Backup.run formatBytes (es ++ [e]) c =
  Backup.step formatBytes e (Backup.run formatBytes es c).
Proof. unfold Backup.run. rewrite fold_left_app. reflexivity. Qed.

(** X14. On the backup card the check of the contents refuses nothing. In
    any run of events that the browser can deliver, starting from a card
    whose reads under way are all of files that passed the size check, every
    read that finishes is accepted whatever its bytes: the validation
    returns (it neither raises nor reports an empty file), the details show
    the file's name and size, the restore button is displayed and the
    status is the success message. The size check leaves only files far
    longer than the 1024 bytes the validation looks at. *)
Theorem every_finished_read_is_accepted
    (formatBytes : Z -> string) (c : Backup.t) (pre : list Backup.Event)
    (f : File.t) (b : ArrayBuffer) :
  readsChecked formatBytes c ->
  Backup.feasible formatBytes (pre ++ [Backup.ReaderLoaded f b]) c = true ->
  let c' := Backup.run formatBytes (pre ++ [Backup.ReaderLoaded f b]) c in
  exists v,
    result (performBackupValidation b) = Returns v /\
    Validation.isValid v = true /\
    Backup.details c' =
      Some (Backup.mkBackupDetails (File.name f) (File.size f) (Validation.warnings v)) /\
    Backup.restoreDisplay c' = "inline-block" /\
    last (Backup.statusLog c') = Some ("success", BACKUP_LOADED_MESSAGE) /\
    readsChecked formatBytes c'.
Proof.
  intros Hc Hfeas c'.
  rewrite backup_feasible_app in Hfeas.
  apply andb_true_iff in Hfeas. destruct Hfeas as [_ Hen].
  cbn [Backup.feasible Backup.enabled] in Hen. rewrite andb_true_r in Hen.
  apply andb_true_iff in Hen. destruct Hen as [Hin Hlen].
  apply Z.eqb_eq in Hlen.
  pose proof (run_readsChecked formatBytes pre c Hc) as Hpre.
  set (q := Backup.run formatBytes pre c) in *.
  destruct (in_dec File_eq_dec f (Backup.reading q)) as [Hf|]; [|discriminate].
  assert (Hsize : SizeCheck.isValid (validateBackupSize formatBytes (File.size f)) = true).
  { unfold readsChecked in Hpre. rewrite List.Forall_forall in Hpre.
    apply Hpre, Hf. }
  assert (Hlong : 1024 <= len b)
    by (apply (size_check_passes_length formatBytes); rewrite Hlen; exact Hsize).
  destruct (validation_accepts_long_buffer b Hlong) as (v & Hv & Hvalid).
  exists v. split; [exact Hv|]. split; [exact Hvalid|].
  assert (Hc' : c' = Backup.step formatBytes (Backup.ReaderLoaded f b) q)
    by apply backup_run_snoc.
  assert (Hchecked : readsChecked formatBytes c')
    by (rewrite Hc'; apply step_readsChecked, Hpre).
  clearbody c'. subst c'. cbn [Backup.step] in *.
  unfold Backup.onLoad, Backup.validateAndParseBackup in *. cbv zeta in *.
  rewrite Hv, Hvalid in *. cbn [negb] in *.
  split; [cbn; rewrite Hlen; reflexivity|].
  split; [reflexivity|].
  split; [cbn; apply last_snoc|exact Hchecked].
Qed.

Lemma every_finished_read_is_accepted_witness :
  readsChecked pretty Backup.initial /\
  Backup.feasible pretty
    ([Backup.ChangeFile (File.mk "nand.bin" 536870912 0)] ++
     [Backup.ReaderLoaded (File.mk "nand.bin" 536870912 0) (zeros 536870912)])
    Backup.initial = true /\
  Backup.restoreDisplay
    (Backup.run pretty
       ([Backup.ChangeFile (File.mk "nand.bin" 536870912 0)] ++
        [Backup.ReaderLoaded (File.mk "nand.bin" 536870912 0) (zeros 536870912)])
       Backup.initial) = "inline-block".
Proof.
  assert (Hc : readsChecked pretty Backup.initial) by constructor.
  assert (Hf : Backup.feasible pretty
    ([Backup.ChangeFile (File.mk "nand.bin" 536870912 0)] ++
     [Backup.ReaderLoaded (File.mk "nand.bin" 536870912 0) (zeros 536870912)])
    Backup.initial = true) by (vm_compute; reflexivity).
  split; [exact Hc|]. split; [exact Hf|].
  pose proof (every_finished_read_is_accepted pretty Backup.initial
                [Backup.ChangeFile (File.mk "nand.bin" 536870912 0)]
                (File.mk "nand.bin" 536870912 0) (zeros 536870912) Hc Hf) as T.
  cbv zeta in T. destruct T as (v & _ & _ & _ & T & _). exact T.
Defined.

(** ** The backup card: the restore timer *)

Lemma restore_find_fresh_last id (l : list Backup.RestoreTimer) x :
  Forall (fun t => Backup.timerId t ≠ id) l -> Backup.timerId x = id ->
  List.find (fun t => bool_decide (Backup.timerId t = id)) (l ++ [x]) = Some x.
Proof.
  intros Hl Hx. induction Hl as [|y l Hy _ IH]; cbn [app List.find].
  - rewrite bool_decide_eq_true_2 by exact Hx. reflexivity.
  - rewrite bool_decide_eq_false_2 by exact Hy. exact IH.
Qed.

Lemma restore_find_fresh id (l : list Backup.RestoreTimer) :
  Forall (fun t => Backup.timerId t ≠ id) l ->
  List.find (fun t => bool_decide (Backup.timerId t = id)) l = None.
Proof.
  induction 1 as [|y l Hy _ IH]; [reflexivity|]. cbn [List.find].
  rewrite bool_decide_eq_false_2 by exact Hy. exact IH.
Qed.

Lemma restore_store_fresh_last id (l : list Backup.RestoreTimer) x v :
  Forall (fun t => Backup.timerId t ≠ id) l -> Backup.timerId x = id ->
  map (fun t' => if decide (Backup.timerId t' = id)
                 then Backup.mkRestoreTimer (Backup.timerId t') (Backup.file t') v
                 else t')
    (l ++ [x]) = l ++ [Backup.mkRestoreTimer id (Backup.file x) v].
Proof.
  intros Hl Hx. rewrite map_app. cbn [map].
  rewrite decide_True by exact Hx. rewrite Hx. f_equal.
  induction Hl as [|y l Hy _ IH]; [reflexivity|]. cbn [map].
  rewrite decide_False by exact Hy. f_equal. exact IH.
Qed.

Lemma restore_clear_fresh_last id (l : list Backup.RestoreTimer) x :
  Forall (fun t => Backup.timerId t ≠ id) l -> Backup.timerId x = id ->
  filter (fun t => Backup.timerId t ≠ id) (l ++ [x]) = l.
Proof.
  intros Hl Hx. rewrite filter_app, filter_cons, decide_False, filter_nil
    by (intros Hne; apply Hne, Hx).
  rewrite app_nil_r. induction Hl as [|y l Hy _ IH]; [reflexivity|].
  rewrite filter_cons, decide_True by exact Hy. f_equal. exact IH.
Qed.

Lemma fives_snoc n : fives (S n) = fives n ++ [5 * Z.of_nat (S n)].
Proof. unfold fives. rewrite seq_S, map_app. reflexivity. Qed.

Lemma restore_tick_running id f v q :
  v + 5 < 100 ->
  let r := Backup.tick (Backup.mkRestoreTimer id (Some f) v) q in
  Backup.intervals r =
    map (fun t' => if decide (Backup.timerId t' = id)
                   then Backup.mkRestoreTimer (Backup.timerId t') (Backup.file t') (v + 5)
                   else t') (Backup.intervals q) /\
  Backup.progressLog r = Backup.progressLog q ++ [v + 5] /\
  Backup.statusLog r = Backup.statusLog q /\
  Backup.lastBootMiiRestore r = Backup.lastBootMiiRestore q /\
  Backup.hideTimeouts r = Backup.hideTimeouts q.
Proof.
  intros Hv. unfold Backup.tick. cbn [Backup.progress Backup.timerId Backup.file].
  cbv zeta. destruct (Z.leb_spec 100 (v + 5)) as [Hd|_]; [lia|].
  repeat split; reflexivity.
Qed.

Lemma restore_tick_final id f q :
  let r := Backup.tick (Backup.mkRestoreTimer id (Some f) 95) q in
  Backup.intervals r =
    filter (fun t' => Backup.timerId t' ≠ id)
      (map (fun t' => if decide (Backup.timerId t' = id)
                      then Backup.mkRestoreTimer (Backup.timerId t') (Backup.file t') 100
                      else t') (Backup.intervals q)) /\
  Backup.progressLog r = Backup.progressLog q ++ [100] /\
  Backup.statusLog r = Backup.statusLog q ++ [("success", Backup.restoredMessage f)] /\
  Backup.lastBootMiiRestore r = Some (File.name f, File.size f) /\
  Backup.hideTimeouts r = S (Backup.hideTimeouts q).
Proof. repeat split; reflexivity. Qed.

(** X15. A restore started for backup [f] runs to its end in exactly twenty
    ticks of its timer, whatever else is running: after [k < 20] ticks the
    timer is still running at [5 * k] percent; the twentieth tick clears
    it, leaving the other timers as they were; its progress events are
    5, 10, ..., 100 in this order; the status shown is the success message
    naming the file, the cookie records the file's name and size, and one
    hiding of the progress bar is scheduled; a further tick of the cleared
    timer changes nothing. *)
Theorem restore_runs_twenty_ticks
    (formatBytes : Z -> string) (c : Backup.t) (f : File.t) :
  Forall (fun x => Backup.timerId x ≠ Backup.nextTimer c) (Backup.intervals c) ->
  let id := Backup.nextTimer c in
  let started := Backup.performBackupRestore (Some f) c in
  let after k := Backup.run formatBytes (repeat (Backup.Tick id) k) started in
  (forall k, (k < 20)%nat ->
     Backup.intervals (after k) =
       Backup.intervals c ++ [Backup.mkRestoreTimer id (Some f) (5 * Z.of_nat k)]) /\
  Backup.intervals (after 20%nat) = Backup.intervals c /\
  Backup.progressLog (after 20%nat) = Backup.progressLog c ++ fives 20 /\
  Backup.statusLog (after 20%nat) =
    Backup.statusLog c ++
      [("info", Backup.RESTORING_MESSAGE); ("success", Backup.restoredMessage f)] /\
  Backup.lastBootMiiRestore (after 20%nat) = Some (File.name f, File.size f) /\
  Backup.hideTimeouts (after 20%nat) = S (Backup.hideTimeouts c) /\
  after 21%nat = after 20%nat.
Proof.
  intros Hfresh id started after.
  assert (Hinv : forall k, (k < 20)%nat ->
            Backup.intervals (after k) =
              Backup.intervals c ++ [Backup.mkRestoreTimer id (Some f) (5 * Z.of_nat k)] /\
            Backup.progressLog (after k) = Backup.progressLog c ++ fives k /\
            Backup.statusLog (after k) =
              Backup.statusLog c ++ [("info", Backup.RESTORING_MESSAGE)] /\
            Backup.lastBootMiiRestore (after k) = Backup.lastBootMiiRestore c /\
            Backup.hideTimeouts (after k) = Backup.hideTimeouts c).
  { induction k as [|k IH]; intros Hk.
    - subst after started. cbn. rewrite app_nil_r. repeat split; reflexivity.
    - destruct (IH ltac:(lia)) as (Hi & Hl & Hs & Hc & Hh).
      subst after. cbv beta in *. rewrite repeat_snoc, backup_run_snoc.
      set (q := Backup.run formatBytes (repeat (Backup.Tick id) k) started) in *.
      cbn [Backup.step]. unfold Backup.onTick. rewrite Hi.
      rewrite (restore_find_fresh_last id (Backup.intervals c)
                 (Backup.mkRestoreTimer id (Some f) (5 * Z.of_nat k)) Hfresh eq_refl).
      destruct (restore_tick_running id f (5 * Z.of_nat k) q ltac:(lia))
        as (Ti & Tl & Ts & Tc & Th).
      cbv zeta in Ti, Tl, Ts, Tc, Th.
      rewrite Ti, Tl, Ts, Tc, Th, Hi, Hl, Hs, Hc, Hh.
      rewrite (restore_store_fresh_last id (Backup.intervals c)
                 (Backup.mkRestoreTimer id (Some f) (5 * Z.of_nat k)) _ Hfresh eq_refl).
      rewrite fives_snoc, app_assoc. cbn [Backup.file].
      replace (5 * Z.of_nat k + 5) with (5 * Z.of_nat (S k)) by lia.
      repeat split; reflexivity. }
  destruct (Hinv 19%nat ltac:(lia)) as (Hi & Hl & Hs & Hc & Hh).
  assert (Hlast : after 20%nat =
            Backup.tick (Backup.mkRestoreTimer id (Some f) 95) (after 19%nat)).
  { subst after. cbv beta. rewrite repeat_snoc, backup_run_snoc.
    cbn [Backup.step]. unfold Backup.onTick. cbv beta in Hi. rewrite Hi.
    rewrite (restore_find_fresh_last id (Backup.intervals c)
               (Backup.mkRestoreTimer id (Some f) (5 * Z.of_nat 19)) Hfresh eq_refl).
    reflexivity. }
  destruct (restore_tick_final id f (after 19%nat)) as (Fi & Fl & Fs & Fc & Fh).
  cbv zeta in Fi, Fl, Fs, Fc, Fh. rewrite <- Hlast in Fi, Fl, Fs, Fc, Fh.
  assert (Hi20 : Backup.intervals (after 20%nat) = Backup.intervals c).
  { rewrite Fi, Hi.
    rewrite (restore_store_fresh_last id (Backup.intervals c)
               (Backup.mkRestoreTimer id (Some f) (5 * Z.of_nat 19)) _ Hfresh eq_refl).
    apply (restore_clear_fresh_last id (Backup.intervals c)
             (Backup.mkRestoreTimer id (Some f) 100) Hfresh eq_refl). }
  split; [intros k Hk; apply (Hinv k Hk)|].
  split; [exact Hi20|].
  split; [rewrite Fl, Hl, <- app_assoc; reflexivity|].
  split; [rewrite Fs, Hs, <- app_assoc; reflexivity|].
  split; [exact Fc|].
  split; [rewrite Fh, Hh; reflexivity|].
  change (after 21%nat)
    with (Backup.run formatBytes (repeat (Backup.Tick id) 21) started).
  rewrite repeat_snoc, backup_run_snoc. fold (after 20%nat).
  cbn [Backup.step]. unfold Backup.onTick. rewrite Hi20.
  rewrite (restore_find_fresh id (Backup.intervals c) Hfresh). reflexivity.
Qed.

Lemma restore_runs_twenty_ticks_witness :
  let nand := File.mk "nand.bin" 536870912 0 in
  let running := Backup.run pretty
                   [Backup.ChangeFile nand; Backup.ReaderLoaded nand (zeros 536870912);
                    Backup.ClickRestore; Backup.ClickConfirm; Backup.Tick 0]
                   Backup.initial in
  Forall (fun x => Backup.timerId x <> Backup.nextTimer running)
    (Backup.intervals running) /\
  Backup.intervals
    (Backup.run pretty (repeat (Backup.Tick (Backup.nextTimer running)) 20)
       (Backup.performBackupRestore (Some nand) running)) =
    Backup.intervals running.
Proof.
  intros nand running.
  assert (H : Forall (fun x => Backup.timerId x <> Backup.nextTimer running)
                (Backup.intervals running))
    by (vm_compute; repeat constructor; discriminate).
  split; [exact H|].
  pose proof (restore_runs_twenty_ticks pretty running nand H) as T.
  cbv zeta in T. apply T.
Defined.

(** ** The emulator: noticing RetroArch and loading ROMs *)

Lemma emulator_run_snoc es e s :
  Emulator.run (es ++ [e]) s = Emulator.step e (Emulator.run es s).
Proof. unfold Emulator.run. rewrite fold_left_app. reflexivity. Qed.

Ltac emulator_frame :=
  unfold Emulator.successes; cbn;
  rewrite ?List.filter_app; cbn; rewrite ?app_nil_r;
  repeat apply conj; first [reflexivity | assumption].

Lemma emulator_step_unnoticed e s :
  Emulator.emulatorReady s = false -> Emulator.checkInterval s = false ->
  Emulator.emulatorReady (Emulator.step e s) = false /\
  Emulator.checkInterval (Emulator.step e s) = false /\
  Emulator.loads (Emulator.step e s) = Emulator.loads s /\
  Emulator.successes (Emulator.step e s) = Emulator.successes s.
Proof.
  intros Hr Hc.
  destruct e as [fs canvas pause reset| | |file|file data|file|id|id| |];
    cbn [Emulator.step].
  - emulator_frame.
  - unfold Emulator.onCheckTick. rewrite Hc. emulator_frame.
  - unfold Emulator.onCheckDeadline. destruct (Emulator.checkDeadline s);
      emulator_frame.
  - unfold Emulator.handleROMLoad. emulator_frame.
  - unfold Emulator.onLoad. cbv zeta.
    cbn [Emulator.emulatorReady Emulator.setContainerDisplay
         Emulator.setPlaceholderDisplay Emulator.setReading].
    rewrite Hr. cbn [andb]. emulator_frame.
  - unfold Emulator.onError. emulator_frame.
  - unfold Emulator.onWaitTick. destruct (List.find _ _) as [w|];
      rewrite ?Hr; cbn [andb]; emulator_frame.
  - unfold Emulator.onWaitDeadline. destruct (bool_decide _); emulator_frame.
  - unfold Emulator.togglePause. destruct (_ && _); [|emulator_frame].
    destruct (String.eqb _ _); emulator_frame.
  - unfold Emulator.resetEmulator. destruct (_ && _); [emulator_frame|].
    destruct (Emulator.currentROM s); [|emulator_frame].
    unfold Emulator.handleROMLoad. emulator_frame.
Qed.

(** X16. A RetroArch that arrives late is never noticed. Once the check of
    [checkRetroArchStatus] has stopped without finding RetroArch (the flag
    [emulatorReady] is false and the check interval is cleared, as after
    the 30 second timeout), nothing that happens afterwards (RetroArch
    being defined, ROMs chosen and read, timers, clicks) sets the flag: no
    ROM is ever handed to [loadROMIntoRetroArch] and no success message is
    shown. *)
Theorem late_retroarch_is_never_noticed (s : Emulator.t) (es : list Emulator.Event) :
  Emulator.emulatorReady s = false ->
  Emulator.checkInterval s = false ->
  Emulator.emulatorReady (Emulator.run es s) = false /\
  Emulator.loads (Emulator.run es s) = Emulator.loads s /\
  Emulator.successes (Emulator.run es s) = Emulator.successes s.
Proof.
  intros Hr Hc.
  assert (H : Emulator.emulatorReady (Emulator.run es s) = false /\
              Emulator.checkInterval (Emulator.run es s) = false /\
              Emulator.loads (Emulator.run es s) = Emulator.loads s /\
              Emulator.successes (Emulator.run es s) = Emulator.successes s).
  { induction es as [|e es IH] using rev_ind.
    - repeat apply conj; first [reflexivity | assumption].
    - destruct IH as (Ir & Ic & Il & Is). rewrite emulator_run_snoc.
      destruct (emulator_step_unnoticed e _ Ir Ic) as (Sr & Sc & Sl & Ss).
      rewrite Sl, Ss. repeat apply conj; assumption. }
  destruct H as (H1 & _ & H3 & H4). repeat apply conj; assumption.
Qed.

Lemma late_retroarch_is_never_noticed_witness :
  let late := Emulator.run [Emulator.CheckTick; Emulator.CheckDeadline]
                (Emulator.fresh "Pause") in
  let game := File.mk "game.iso" 4 0 in
  Emulator.emulatorReady late = false /\
  Emulator.checkInterval late = false /\
  Emulator.loads
    (Emulator.run [Emulator.ModuleLoads (Some ∅) true true true;
                   Emulator.ChangeROM game; Emulator.RomLoaded game [x00];
                   Emulator.WaitTick 0] late) = [].
Proof.
  intros late game. split; [reflexivity|]. split; [reflexivity|].
  apply (late_retroarch_is_never_noticed late
           [Emulator.ModuleLoads (Some ∅) true true true;
            Emulator.ChangeROM game; Emulator.RomLoaded game [x00];
            Emulator.WaitTick 0] eq_refl eq_refl).
Defined.

Lemma filter_drops_found id (l : list Emulator.Wait) w :
  List.find (fun w => bool_decide (Emulator.timerId w = id)) l = Some w ->
  (length (filter (fun w' => Emulator.timerId w' ≠ id) l) < length l)%nat.
Proof.
  induction l as [|a l IH]; [discriminate|]. cbn [List.find].
  destruct (bool_decide (Emulator.timerId a = id)) eqn:Ha.
  - intros _. apply bool_decide_eq_true_1 in Ha.
    rewrite filter_cons, decide_False by (intros Hne; apply Hne, Ha).
    pose proof (length_filter (fun w' => Emulator.timerId w' ≠ id) l).
    cbn [length]. lia.
  - intros Hf. apply bool_decide_eq_false_1 in Ha.
    rewrite filter_cons, decide_True by exact Ha.
    cbn [length]. specialize (IH Hf). lia.
Qed.

Lemma emulator_step_loads e s :
  (length (Emulator.loads (Emulator.step e s)) +
   length (Emulator.waits (Emulator.step e s)) <=
   length (Emulator.loads s) + length (Emulator.waits s) +
   (if Emulator.isRomLoaded e then 1 else 0))%nat.
Proof.
  destruct e as [fs canvas pause reset| | |file|file data|file|id|id| |];
    cbn [Emulator.step Emulator.isRomLoaded].
  - cbn. lia.
  - unfold Emulator.onCheckTick. destruct (Emulator.checkInterval s); [|lia].
    destruct (_ && _); cbn; lia.
  - unfold Emulator.onCheckDeadline. destruct (Emulator.checkDeadline s); cbn; lia.
  - unfold Emulator.handleROMLoad. cbn. lia.
  - unfold Emulator.onLoad. cbv zeta. destruct (_ && _); cbn;
      rewrite !length_app; cbn [length]; lia.
  - unfold Emulator.onError. cbn. lia.
  - unfold Emulator.onWaitTick.
    destruct (List.find _ _) as [w|] eqn:Hf; [|lia].
    destruct (_ && _); [|lia]. cbn. rewrite length_app. cbn [length].
    pose proof (filter_drops_found id _ w Hf). lia.
  - unfold Emulator.onWaitDeadline. destruct (bool_decide _); [|lia]. cbn.
    pose proof (length_filter (fun w' => Emulator.timerId w' ≠ id) (Emulator.waits s)).
    lia.
  - unfold Emulator.togglePause. destruct (_ && _); [|lia].
    destruct (String.eqb _ _); cbn; lia.
  - unfold Emulator.resetEmulator. destruct (_ && _); [cbn; lia|].
    destruct (Emulator.currentROM s); [|lia]. unfold Emulator.handleROMLoad.
    cbn. lia.
Qed.

(** X17. A ROM is handed to RetroArch at most once for each read that
    finishes. In any run of events, the calls of [loadROMIntoRetroArch]
    made during the run together with the ROMs still waiting for RetroArch
    at its end are at most the ROMs that were waiting at its start plus
    the reads that finished during it: a waiting interval loads its ROM
    once and clears itself, and its timeout only clears it. *)
Theorem each_read_loads_at_most_once (s : Emulator.t) (es : list Emulator.Event) :
  (length (Emulator.loads (Emulator.run es s)) +
   length (Emulator.waits (Emulator.run es s)) <=
   length (Emulator.loads s) + length (Emulator.waits s) +
   length (List.filter Emulator.isRomLoaded es))%nat.
Proof.
  induction es as [|e es IH] using rev_ind; [cbn; lia|].
  rewrite emulator_run_snoc, List.filter_app, length_app.
  pose proof (emulator_step_loads e (Emulator.run es s)) as Hs.
  cbn [List.filter]. destruct (Emulator.isRomLoaded e); cbn [length]; lia.
Qed.

Lemma wait_find_fresh_last id (l : list Emulator.Wait) x :
  Forall (fun w => Emulator.timerId w ≠ id) l -> Emulator.timerId x = id ->
  List.find (fun w => bool_decide (Emulator.timerId w = id)) (l ++ [x]) = Some x.
Proof.
  intros Hl Hx. induction Hl as [|y l Hy _ IH]; cbn [app List.find].
  - rewrite bool_decide_eq_true_2 by exact Hx. reflexivity.
  - rewrite bool_decide_eq_false_2 by exact Hy. exact IH.
Qed.

Lemma wait_clear_fresh_last id (l : list Emulator.Wait) x :
  Forall (fun w => Emulator.timerId w ≠ id) l -> Emulator.timerId x = id ->
  filter (fun w => Emulator.timerId w ≠ id) (l ++ [x]) = l.
Proof.
  intros Hl Hx. rewrite filter_app, filter_cons, decide_False, filter_nil
    by (intros Hne; apply Hne, Hx).
  rewrite app_nil_r. induction Hl as [|y l Hy _ IH]; [reflexivity|].
  rewrite filter_cons, decide_True by exact Hy. f_equal. exact IH.
Qed.

(** X18. A ROM chosen before RetroArch is ready is loaded once RetroArch
    arrives in time. If the read of [f] ends while [emulatorReady] is false
    and the check interval is still live, the page shows the waiting
    message and starts a waiting interval; when RetroArch is then defined
    with its canvas and a file system [fs], the next check sets the flag
    and the next firing of the waiting interval writes the bytes read to
    ["/tmp/"] followed by the file's name, shows the success message and
    clears the interval. Every event of this run can be delivered. *)
Theorem waiting_rom_is_loaded_when_retroarch_arrives
    (s : Emulator.t) (f : File.t) (data : list byte)
    (fs : gmap string (list byte)) (pause reset : bool) :
  Emulator.emulatorReady s = false ->
  Emulator.checkInterval s = true ->
  In f (Emulator.reading s) ->
  Forall (fun w => Emulator.timerId w ≠ Emulator.nextWait s) (Emulator.waits s) ->
  let id := Emulator.nextWait s in
  let waiting := Emulator.step (Emulator.RomLoaded f data) s in
  let es := [Emulator.RomLoaded f data; Emulator.ModuleLoads (Some fs) true pause reset;
             Emulator.CheckTick; Emulator.WaitTick id] in
  Emulator.feasible es s = true /\
  last (Emulator.statusLog waiting) =
    Some ("info", Emulator.romWaitingMessage (File.name f)) /\
  Emulator.waits waiting =
    Emulator.waits s ++ [Emulator.mkWait id (File.name f) data] /\
  moduleFS (Emulator.page (Emulator.run es s)) =
    Some (Some (<["/tmp/" +:+ File.name f := data]> fs)) /\
  Emulator.loads (Emulator.run es s) = Emulator.loads s ++ [(File.name f, data)] /\
  Emulator.waits (Emulator.run es s) = Emulator.waits s /\
  last (Emulator.statusLog (Emulator.run es s)) =
    Some ("success", Emulator.romLoadedMessage (File.name f)).
Proof.
  intros Hr Hc Hin Hfresh id waiting es.
  assert (Hw : waiting =
            Emulator.setNextWait (S id)
              (Emulator.setWaitDeadlines (Emulator.waitDeadlines s ++ [id])
                 (Emulator.setWaits
                    (Emulator.waits s ++ [Emulator.mkWait id (File.name f) data])
                    (Emulator.showStatus "info"
                       (Emulator.romWaitingMessage (File.name f))
                       (Emulator.setContainerDisplay "block"
                          (Emulator.setPlaceholderDisplay "none"
                             (Emulator.setReading
                                (removeFirst f (Emulator.reading s)) s))))))).
  { subst waiting. cbn [Emulator.step]. unfold Emulator.onLoad. cbv zeta.
    cbn [Emulator.emulatorReady Emulator.setContainerDisplay
         Emulator.setPlaceholderDisplay Emulator.setReading].
    rewrite Hr. reflexivity. }
  set (defined := Emulator.step (Emulator.ModuleLoads (Some fs) true pause reset) waiting).
  set (noticed := Emulator.step Emulator.CheckTick defined).
  assert (Hn : noticed = Emulator.setCheckInterval false
                           (Emulator.setEmulatorReady true defined)).
  { subst noticed. cbn [Emulator.step]. unfold Emulator.onCheckTick.
    subst defined. rewrite Hw. cbn. rewrite Hc. reflexivity. }
  assert (Hwaits : Emulator.waits noticed =
            Emulator.waits s ++ [Emulator.mkWait id (File.name f) data])
    by (rewrite Hn; subst defined; rewrite Hw; reflexivity).
  assert (Hfind : List.find (fun w => bool_decide (Emulator.timerId w = id))
                    (Emulator.waits noticed) =
                  Some (Emulator.mkWait id (File.name f) data))
    by (rewrite Hwaits;
        apply (wait_find_fresh_last id (Emulator.waits s)
                 (Emulator.mkWait id (File.name f) data) Hfresh eq_refl)).
  assert (Hrun : Emulator.run es s = Emulator.step (Emulator.WaitTick id) noticed)
    by reflexivity.
  assert (Hlast : Emulator.step (Emulator.WaitTick id) noticed =
            Emulator.showStatus "success" (Emulator.romLoadedMessage (File.name f))
              (Emulator.loadROM (File.name f) data
                 (Emulator.setWaits
                    (filter (fun w' => Emulator.timerId w' ≠ id)
                       (Emulator.waits noticed)) noticed))).
  { cbn [Emulator.step]. unfold Emulator.onWaitTick. rewrite Hfind.
    assert (Hready : Emulator.emulatorReady noticed && Emulator.moduleDefined noticed = true)
      by (rewrite Hn; reflexivity).
    rewrite Hready. reflexivity. }
  split.
  { change (Emulator.feasible es s)
      with (Emulator.enabled (Emulator.RomLoaded f data) s &&
              (true && (Emulator.enabled Emulator.CheckTick defined &&
                 (Emulator.enabled (Emulator.WaitTick id) noticed && true)))).
    cbn [Emulator.enabled andb].
    destruct (in_dec File_eq_dec f (Emulator.reading s)) as [_|Hn']; [|destruct (Hn' Hin)].
    rewrite Hwaits. subst defined. rewrite Hw. cbn [Emulator.checkInterval
      Emulator.step Emulator.setModuleReset Emulator.setModulePauseMainLoop
      Emulator.setModuleCanvas Emulator.setPage Emulator.setNextWait
      Emulator.setWaitDeadlines Emulator.setWaits Emulator.showStatus
      Emulator.setStatusLog Emulator.setStatus Emulator.setContainerDisplay
      Emulator.setPlaceholderDisplay Emulator.setReading].
    rewrite Hc. cbn [andb]. rewrite andb_true_r.
    apply bool_decide_eq_true_2. rewrite map_app. cbn [map Emulator.timerId].
    apply elem_of_app. right. apply list_elem_of_singleton. reflexivity. }
  split; [rewrite Hw; cbn; apply last_snoc|].
  split; [rewrite Hw; reflexivity|].
  assert (Hfs : moduleFS (Emulator.page noticed) = Some (Some fs))
    by (rewrite Hn; subst defined; rewrite Hw; reflexivity).
  rewrite Hrun, Hlast.
  split.
  { cbn [Emulator.page Emulator.showStatus Emulator.setStatusLog Emulator.setStatus
         Emulator.loadROM Emulator.setLoads Emulator.setPage Emulator.setWaits].
    rewrite (loadROMIntoRetroArch_writes _ _ _ fs Hfs). reflexivity. }
  split; [rewrite Hn; subst defined; rewrite Hw; reflexivity|].
  split.
  - cbn [Emulator.waits Emulator.showStatus Emulator.setStatusLog Emulator.setStatus
         Emulator.loadROM Emulator.setLoads Emulator.setPage Emulator.setWaits].
    rewrite Hwaits.
    apply (wait_clear_fresh_last id (Emulator.waits s)
             (Emulator.mkWait id (File.name f) data) Hfresh eq_refl).
  - cbn [Emulator.statusLog Emulator.showStatus Emulator.setStatusLog]. apply last_snoc.
Qed.

Lemma waiting_rom_is_loaded_when_retroarch_arrives_witness :
  let game := File.mk "game.iso" 4 0 in
  let chosen := Emulator.step (Emulator.ChangeROM game) (Emulator.fresh "Pause") in
  Emulator.emulatorReady chosen = false /\
  Emulator.checkInterval chosen = true /\
  In game (Emulator.reading chosen) /\
  Forall (fun w => Emulator.timerId w <> Emulator.nextWait chosen) (Emulator.waits chosen) /\
  moduleFS (Emulator.page
    (Emulator.run [Emulator.RomLoaded game [x00]; Emulator.ModuleLoads (Some ∅) true false false;
                   Emulator.CheckTick; Emulator.WaitTick (Emulator.nextWait chosen)] chosen)) =
    Some (Some (<["/tmp/" +:+ File.name game := [x00]]> ∅)).
Proof.
  intros game chosen.
  assert (H3 : In game (Emulator.reading chosen)) by (left; reflexivity).
  assert (H4 : Forall (fun w => Emulator.timerId w <> Emulator.nextWait chosen)
                 (Emulator.waits chosen)) by constructor.
  split; [reflexivity|]. split; [reflexivity|]. split; [exact H3|]. split; [exact H4|].
  pose proof (waiting_rom_is_loaded_when_retroarch_arrives chosen game [x00] ∅
                false false eq_refl eq_refl H3 H4) as T.
  cbv zeta in T. destruct T as (_ & _ & _ & T & _). exact T.
Defined.

(** X19. A ROM is reported as loaded although nothing was written. When
    RetroArch has been noticed but its [Module] has no file system, the end
    of a ROM's read calls [loadROMIntoRetroArch], which writes nothing, and
    the page still shows the success message; no waiting interval is
    started, so the ROM is not loaded later either. *)
Theorem rom_reported_loaded_without_file_system
    (s : Emulator.t) (f : File.t) (data : list byte) :
  Emulator.emulatorReady s = true ->
  moduleFS (Emulator.page s) = Some None ->
  let s' := Emulator.step (Emulator.RomLoaded f data) s in
  Emulator.loads s' = Emulator.loads s ++ [(File.name f, data)] /\
  last (Emulator.statusLog s') =
    Some ("success", Emulator.romLoadedMessage (File.name f)) /\
  moduleFS (Emulator.page s') = Some None /\
  Emulator.waits s' = Emulator.waits s.
Proof.
  intros Hr Hfs s'. subst s'. cbn [Emulator.step]. unfold Emulator.onLoad.
  cbv zeta. unfold Emulator.moduleDefined.
  cbn [Emulator.emulatorReady Emulator.page Emulator.setContainerDisplay
       Emulator.setPlaceholderDisplay Emulator.setReading].
  rewrite Hr, Hfs. cbn [andb].
  split; [reflexivity|].
  split; [cbn; apply last_snoc|].
  split; [|reflexivity].
  cbn [Emulator.page Emulator.showStatus Emulator.setStatusLog Emulator.setStatus
       Emulator.loadROM Emulator.setLoads Emulator.setPage
       Emulator.setContainerDisplay Emulator.setPlaceholderDisplay
       Emulator.setReading].
  unfold loadROMIntoRetroArch. rewrite Hfs. exact Hfs.
Qed.

Lemma rom_reported_loaded_without_file_system_witness :
  let game := File.mk "game.iso" 4 0 in
  let noticed := Emulator.run [Emulator.ModuleLoads None true false false;
                               Emulator.CheckTick; Emulator.ChangeROM game]
                   (Emulator.fresh "Pause") in
  Emulator.emulatorReady noticed = true /\
  moduleFS (Emulator.page noticed) = Some None /\
  last (Emulator.statusLog (Emulator.step (Emulator.RomLoaded game [x00]) noticed)) =
    Some ("success", Emulator.romLoadedMessage (File.name game)).
Proof.
  intros game noticed. split; [reflexivity|]. split; [reflexivity|].
  apply (proj2 (rom_reported_loaded_without_file_system noticed game [x00]
                  eq_refl eq_refl)).
Defined.
